(** * RaffoSynth engine (moog_engine.c / moog_plugin.cpp): model and properties

    The C sources are embedded as Rocq functions over an explicit engine
    record.  Conventions of the embedding:

    - C [int] values are [Z]; the arithmetic on them in the engine (note
      numbers, the key-stack count, octave offsets) stays far from the 32-bit
      range, so no wrap-around is written out, except for the [uint32_t]
      noise seed, whose arithmetic is taken modulo 2^32 as in C;
    - C [float] and [double] values are interpreted over the real numbers
      [R]: every arithmetic operation is exact and the casts between the two
      types are the identity.  Rounding, infinities and NaN are outside the
      model; [pow]/[powf] are [Rpower], [sinf] is [sin], [tanhf] is [tanh],
      [fabs]/[fabsf] are [Rabs];
    - fixed-size C arrays are lists, written by index with stdpp's
      [<[i:=x]>] and read with [nth] (an out-of-range read yields 0, an
      out-of-range write does nothing; neither happens on reachable states);
    - the flat [moog_engine_t] struct is grouped into the user parameters
      ([moog_params_t], reached through a coercion so that [glide e] reads as
      [engine->glide]), the two envelopes ([moog_env_t], with the source's
      field names [amp_env_state e], ... kept as abbreviations) and the
      remaining voice state. *)

From Stdlib Require Import Reals Lra Lia ZArith List String.
From stdpp Require Import base list.
Import ListNotations.

Local Open Scope R_scope.

(** ** Comparisons of the C code, as boolean tests on reals *)

Definition Rltb (x y : R) : bool := if Rlt_dec x y then true else false.
Definition Rleb (x y : R) : bool := if Rle_dec x y then true else false.

(** Conversion of a real to a C integer type truncates toward zero. *)
Definition Rtrunc (x : R) : Z :=
  if Rltb x 0 then (- Int_part (- x))%Z else Int_part x.

(** [fmod x y]: remainder of the truncated quotient. *)
Definition fmod (x y : R) : R := x - y * IZR (Rtrunc (x / y)).

(** ** moog_engine.h *)

Definition MOOG_MAX_KEYS : Z := 16.
Definition MOOG_SAMPLE_RATE : R := 44100.
Definition MOOG_MAX_RENDER : Z := 256.

Inductive moog_env_state_t :=
  | ENV_OFF | ENV_ATTACK | ENV_DECAY | ENV_SUSTAIN | ENV_RELEASE.

Inductive moog_wave_t :=
  | WAVE_TRIANGLE | WAVE_SAWTOOTH | WAVE_SQUARE | WAVE_PULSE | WAVE_COUNT.

(** User parameters of [moog_engine_t] (normalised values copied in by the
    plugin), with the sample rate and the plugin-level octave transpose. *)
Record moog_params_t := {
  sample_rate : R;
  osc_wave : list moog_wave_t;       (* [4] *)
  osc_volume : list R;               (* [4] *)
  osc_range : list Z;                (* [4] *)
  osc2_detune : R;
  osc3_detune : R;
  osc4_detune : R;
  filter_cutoff : R;
  filter_resonance : R;
  filter_contour : R;
  filter_key_follow : R;
  amp_attack : R;
  amp_decay : R;
  amp_sustain : R;
  amp_release : R;
  filt_attack : R;
  filt_decay : R;
  filt_sustain : R;
  filt_release : R;
  glide : R;
  master_volume : R;
  noise_volume : R;
  mod_to_filter : R;
  mod_to_pitch : R;
  bend_range : R;
  octave_transpose : Z;
  lfo_rate : R;
  lfo_depth_pitch : R;
  lfo_depth_filter : R;
  velocity_sensitivity : R
}.

(** The five fields of one envelope ([amp_env_*] or [filt_env_*]). *)
Record moog_env_t := {
  env_state : moog_env_state_t;
  env_level : R;
  env_attack_level : R;
  env_release_level : R;
  env_counter : R
}.

Record moog_engine_t := {
  params :> moog_params_t;
  mod_wheel : R;
  pitch_bend : R;
  counter : R;
  period : R;
  glide_period : R;
  last_val : list R;                 (* [5] *)
  amp_env : moog_env_t;
  filt_env : moog_env_t;
  filter_prev : list R;              (* [6] *)
  noise_seed : Z;
  current_note : Z;
  gate_on : Z;
  key_stack : list Z;                (* [MOOG_MAX_KEYS] *)
  key_stack_count : Z;
  lfo_phase : R;
  velocity : R
}.

Abbreviation amp_env_state e := (env_state (amp_env e)).
Abbreviation amp_env_level e := (env_level (amp_env e)).
Abbreviation amp_env_attack_level e := (env_attack_level (amp_env e)).
Abbreviation amp_env_release_level e := (env_release_level (amp_env e)).
Abbreviation amp_env_counter e := (env_counter (amp_env e)).
Abbreviation filt_env_state e := (env_state (filt_env e)).
Abbreviation filt_env_level e := (env_level (filt_env e)).
Abbreviation filt_env_attack_level e := (env_attack_level (filt_env e)).
Abbreviation filt_env_release_level e := (env_release_level (filt_env e)).
Abbreviation filt_env_counter e := (env_counter (filt_env e)).

(** ** Utility functions *)

Definition note_to_hz (note : Z) : R :=
  8.1758 * Rpower 1.0594630943593 (IZR note).

Definition hz_to_period (hz sample_rate : R) : R :=
  if Rltb hz 1 then sample_rate else sample_rate / hz.

Definition clampf (v lo hi : R) : R :=
  if Rltb v lo then lo else if Rltb hi v then hi else v.

Definition param_to_time (param sample_rate : R) : R :=
  let seconds := 0.001 + param * param * 5 in
  seconds * sample_rate.

(** [uint32_t] arithmetic wraps modulo 2^32; [(int32_t)] reinterprets. *)
Definition to_uint32 (z : Z) : Z := (z mod 2 ^ 32)%Z.
Definition to_int32 (z : Z) : Z :=
  (if z mod 2 ^ 32 <? 2 ^ 31 then z mod 2 ^ 32 else z mod 2 ^ 32 - 2 ^ 32)%Z.

Definition noise_sample (seed : Z) : Z * R :=
  let seed' := to_uint32 (seed * 1664525 + 1013904223) in
  (seed', IZR (to_int32 seed') / IZR 2147483647 (* 0x7FFFFFFF *)).

(** ** Oscillator waveform generators *)

Definition osc_triangle (counter period : R) : R :=
  let phase := fmod (counter + period / 4) period / period in
  4 * (Rabs (phase - 0.5) - 0.25).

Definition osc_sawtooth (counter period : R) : R :=
  2 * (fmod counter period / period) - 1.

Definition osc_square (counter period : R) : R :=
  if Rltb (fmod counter period / period) 0.5 then 1 else -1.

Definition osc_pulse (counter period : R) : R :=
  if Rltb (fmod counter period / period) 0.2 then 1 else -1.

Definition generate_osc (wave : moog_wave_t) (counter period : R) : R :=
  match wave with
  | WAVE_TRIANGLE => osc_triangle counter period
  | WAVE_SAWTOOTH => osc_sawtooth counter period
  | WAVE_SQUARE => osc_square counter period
  | WAVE_PULSE => osc_pulse counter period
  | _ => 0
  end.

(** ** Field assignments

    [set_f v e] is the engine after the C assignment [engine->f = v]. *)

Definition set_params (v : moog_params_t) (e : moog_engine_t) : moog_engine_t :=
  {| params := v; mod_wheel := mod_wheel e; pitch_bend := pitch_bend e;
     counter := counter e; period := period e;
     glide_period := glide_period e; last_val := last_val e;
     amp_env := amp_env e; filt_env := filt_env e;
     filter_prev := filter_prev e; noise_seed := noise_seed e;
     current_note := current_note e; gate_on := gate_on e;
     key_stack := key_stack e; key_stack_count := key_stack_count e;
     lfo_phase := lfo_phase e; velocity := velocity e |}.

Definition set_mod_wheel (v : R) (e : moog_engine_t) : moog_engine_t :=
  {| params := params e; mod_wheel := v; pitch_bend := pitch_bend e;
     counter := counter e; period := period e;
     glide_period := glide_period e; last_val := last_val e;
     amp_env := amp_env e; filt_env := filt_env e;
     filter_prev := filter_prev e; noise_seed := noise_seed e;
     current_note := current_note e; gate_on := gate_on e;
     key_stack := key_stack e; key_stack_count := key_stack_count e;
     lfo_phase := lfo_phase e; velocity := velocity e |}.

Definition set_pitch_bend (v : R) (e : moog_engine_t) : moog_engine_t :=
  {| params := params e; mod_wheel := mod_wheel e; pitch_bend := v;
     counter := counter e; period := period e;
     glide_period := glide_period e; last_val := last_val e;
     amp_env := amp_env e; filt_env := filt_env e;
     filter_prev := filter_prev e; noise_seed := noise_seed e;
     current_note := current_note e; gate_on := gate_on e;
     key_stack := key_stack e; key_stack_count := key_stack_count e;
     lfo_phase := lfo_phase e; velocity := velocity e |}.

Definition set_counter (v : R) (e : moog_engine_t) : moog_engine_t :=
  {| params := params e; mod_wheel := mod_wheel e;
     pitch_bend := pitch_bend e; counter := v; period := period e;
     glide_period := glide_period e; last_val := last_val e;
     amp_env := amp_env e; filt_env := filt_env e;
     filter_prev := filter_prev e; noise_seed := noise_seed e;
     current_note := current_note e; gate_on := gate_on e;
     key_stack := key_stack e; key_stack_count := key_stack_count e;
     lfo_phase := lfo_phase e; velocity := velocity e |}.

Definition set_period (v : R) (e : moog_engine_t) : moog_engine_t :=
  {| params := params e; mod_wheel := mod_wheel e;
     pitch_bend := pitch_bend e; counter := counter e; period := v;
     glide_period := glide_period e; last_val := last_val e;
     amp_env := amp_env e; filt_env := filt_env e;
     filter_prev := filter_prev e; noise_seed := noise_seed e;
     current_note := current_note e; gate_on := gate_on e;
     key_stack := key_stack e; key_stack_count := key_stack_count e;
     lfo_phase := lfo_phase e; velocity := velocity e |}.

Definition set_glide_period (v : R) (e : moog_engine_t) : moog_engine_t :=
  {| params := params e; mod_wheel := mod_wheel e;
     pitch_bend := pitch_bend e; counter := counter e; period := period e;
     glide_period := v; last_val := last_val e; amp_env := amp_env e;
     filt_env := filt_env e; filter_prev := filter_prev e;
     noise_seed := noise_seed e; current_note := current_note e;
     gate_on := gate_on e; key_stack := key_stack e;
     key_stack_count := key_stack_count e; lfo_phase := lfo_phase e;
     velocity := velocity e |}.

Definition set_last_val (v : list R) (e : moog_engine_t) : moog_engine_t :=
  {| params := params e; mod_wheel := mod_wheel e;
     pitch_bend := pitch_bend e; counter := counter e; period := period e;
     glide_period := glide_period e; last_val := v; amp_env := amp_env e;
     filt_env := filt_env e; filter_prev := filter_prev e;
     noise_seed := noise_seed e; current_note := current_note e;
     gate_on := gate_on e; key_stack := key_stack e;
     key_stack_count := key_stack_count e; lfo_phase := lfo_phase e;
     velocity := velocity e |}.

Definition set_amp_env (v : moog_env_t) (e : moog_engine_t) : moog_engine_t :=
  {| params := params e; mod_wheel := mod_wheel e;
     pitch_bend := pitch_bend e; counter := counter e; period := period e;
     glide_period := glide_period e; last_val := last_val e; amp_env := v;
     filt_env := filt_env e; filter_prev := filter_prev e;
     noise_seed := noise_seed e; current_note := current_note e;
     gate_on := gate_on e; key_stack := key_stack e;
     key_stack_count := key_stack_count e; lfo_phase := lfo_phase e;
     velocity := velocity e |}.

Definition set_filt_env (v : moog_env_t) (e : moog_engine_t) : moog_engine_t :=
  {| params := params e; mod_wheel := mod_wheel e;
     pitch_bend := pitch_bend e; counter := counter e; period := period e;
     glide_period := glide_period e; last_val := last_val e;
     amp_env := amp_env e; filt_env := v; filter_prev := filter_prev e;
     noise_seed := noise_seed e; current_note := current_note e;
     gate_on := gate_on e; key_stack := key_stack e;
     key_stack_count := key_stack_count e; lfo_phase := lfo_phase e;
     velocity := velocity e |}.

Definition set_filter_prev (v : list R) (e : moog_engine_t) : moog_engine_t :=
  {| params := params e; mod_wheel := mod_wheel e;
     pitch_bend := pitch_bend e; counter := counter e; period := period e;
     glide_period := glide_period e; last_val := last_val e;
     amp_env := amp_env e; filt_env := filt_env e; filter_prev := v;
     noise_seed := noise_seed e; current_note := current_note e;
     gate_on := gate_on e; key_stack := key_stack e;
     key_stack_count := key_stack_count e; lfo_phase := lfo_phase e;
     velocity := velocity e |}.

Definition set_noise_seed (v : Z) (e : moog_engine_t) : moog_engine_t :=
  {| params := params e; mod_wheel := mod_wheel e;
     pitch_bend := pitch_bend e; counter := counter e; period := period e;
     glide_period := glide_period e; last_val := last_val e;
     amp_env := amp_env e; filt_env := filt_env e;
     filter_prev := filter_prev e; noise_seed := v;
     current_note := current_note e; gate_on := gate_on e;
     key_stack := key_stack e; key_stack_count := key_stack_count e;
     lfo_phase := lfo_phase e; velocity := velocity e |}.

Definition set_current_note (v : Z) (e : moog_engine_t) : moog_engine_t :=
  {| params := params e; mod_wheel := mod_wheel e;
     pitch_bend := pitch_bend e; counter := counter e; period := period e;
     glide_period := glide_period e; last_val := last_val e;
     amp_env := amp_env e; filt_env := filt_env e;
     filter_prev := filter_prev e; noise_seed := noise_seed e;
     current_note := v; gate_on := gate_on e; key_stack := key_stack e;
     key_stack_count := key_stack_count e; lfo_phase := lfo_phase e;
     velocity := velocity e |}.

Definition set_gate_on (v : Z) (e : moog_engine_t) : moog_engine_t :=
  {| params := params e; mod_wheel := mod_wheel e;
     pitch_bend := pitch_bend e; counter := counter e; period := period e;
     glide_period := glide_period e; last_val := last_val e;
     amp_env := amp_env e; filt_env := filt_env e;
     filter_prev := filter_prev e; noise_seed := noise_seed e;
     current_note := current_note e; gate_on := v; key_stack := key_stack e;
     key_stack_count := key_stack_count e; lfo_phase := lfo_phase e;
     velocity := velocity e |}.

Definition set_key_stack (v : list Z) (e : moog_engine_t) : moog_engine_t :=
  {| params := params e; mod_wheel := mod_wheel e;
     pitch_bend := pitch_bend e; counter := counter e; period := period e;
     glide_period := glide_period e; last_val := last_val e;
     amp_env := amp_env e; filt_env := filt_env e;
     filter_prev := filter_prev e; noise_seed := noise_seed e;
     current_note := current_note e; gate_on := gate_on e; key_stack := v;
     key_stack_count := key_stack_count e; lfo_phase := lfo_phase e;
     velocity := velocity e |}.

Definition set_key_stack_count (v : Z) (e : moog_engine_t) : moog_engine_t :=
  {| params := params e; mod_wheel := mod_wheel e;
     pitch_bend := pitch_bend e; counter := counter e; period := period e;
     glide_period := glide_period e; last_val := last_val e;
     amp_env := amp_env e; filt_env := filt_env e;
     filter_prev := filter_prev e; noise_seed := noise_seed e;
     current_note := current_note e; gate_on := gate_on e;
     key_stack := key_stack e; key_stack_count := v;
     lfo_phase := lfo_phase e; velocity := velocity e |}.

Definition set_lfo_phase (v : R) (e : moog_engine_t) : moog_engine_t :=
  {| params := params e; mod_wheel := mod_wheel e;
     pitch_bend := pitch_bend e; counter := counter e; period := period e;
     glide_period := glide_period e; last_val := last_val e;
     amp_env := amp_env e; filt_env := filt_env e;
     filter_prev := filter_prev e; noise_seed := noise_seed e;
     current_note := current_note e; gate_on := gate_on e;
     key_stack := key_stack e; key_stack_count := key_stack_count e;
     lfo_phase := v; velocity := velocity e |}.

Definition set_velocity (v : R) (e : moog_engine_t) : moog_engine_t :=
  {| params := params e; mod_wheel := mod_wheel e;
     pitch_bend := pitch_bend e; counter := counter e; period := period e;
     glide_period := glide_period e; last_val := last_val e;
     amp_env := amp_env e; filt_env := filt_env e;
     filter_prev := filter_prev e; noise_seed := noise_seed e;
     current_note := current_note e; gate_on := gate_on e;
     key_stack := key_stack e; key_stack_count := key_stack_count e;
     lfo_phase := lfo_phase e; velocity := v |}.

(** The same for the fields of one envelope. *)

Definition set_env_state (v : moog_env_state_t) (env : moog_env_t) : moog_env_t :=
  {| env_state := v; env_level := env_level env;
     env_attack_level := env_attack_level env;
     env_release_level := env_release_level env;
     env_counter := env_counter env |}.

Definition set_env_level (v : R) (env : moog_env_t) : moog_env_t :=
  {| env_state := env_state env; env_level := v;
     env_attack_level := env_attack_level env;
     env_release_level := env_release_level env;
     env_counter := env_counter env |}.

Definition set_env_attack_level (v : R) (env : moog_env_t) : moog_env_t :=
  {| env_state := env_state env; env_level := env_level env;
     env_attack_level := v; env_release_level := env_release_level env;
     env_counter := env_counter env |}.

Definition set_env_release_level (v : R) (env : moog_env_t) : moog_env_t :=
  {| env_state := env_state env; env_level := env_level env;
     env_attack_level := env_attack_level env; env_release_level := v;
     env_counter := env_counter env |}.

Definition set_env_counter (v : R) (env : moog_env_t) : moog_env_t :=
  {| env_state := env_state env; env_level := env_level env;
     env_attack_level := env_attack_level env;
     env_release_level := env_release_level env; env_counter := v |}.

(** ** Moog ladder filter *)

(** The five local taps [b0 .. b4] of the filter loop. *)
Definition taps : Type := (R * R * R * R * R)%type.

(** Body of the [for] loop of [moog_filter_process], run for [n] frames
    starting at index [i]. *)
Fixpoint moog_filter_loop (f fb : R) (output : list R) (b : taps)
    (i n : nat) : list R * taps :=
  match n with
  | O => (output, b)
  | S n' =>
    let '(b0, b1, b2, b3, b4) := b in
    let input := nth i output 0 - b4 * fb in
    let input := input * (0.35013 * f * f * f * f) in
    let b1 := input + 0.3 * b0 + (1 - f) * b1 in
    let b0 := input in
    let b2 := b1 + 0.3 * b1 + (1 - f) * b2 in
    let b3 := b2 + 0.3 * b2 + (1 - f) * b3 in
    let b4 := b3 + 0.3 * b3 + (1 - f) * b4 in
    (* Clamp to prevent blowup *)
    let b4 := if Rltb 4 b4 then 4 else b4 in
    let b4 := if Rltb b4 (-4) then -4 else b4 in
    moog_filter_loop f fb (<[i := b4]> output) (b0, b1, b2, b3, b4) (S i) n'
  end.

(** The filter coefficient: normalised cutoff [fc], clamped to
    [0.001, 0.49], times 1.16 (the same lines open [moog_filter_process] and
    the inline filter of the render loop). *)
Definition filter_coeff (cutoff_hz sample_rate : R) : R :=
  let fc := cutoff_hz / sample_rate in
  let fc := if Rltb 0.49 fc then 0.49 else fc in
  let fc := if Rltb fc 0.001 then 0.001 else fc in
  fc * 1.16.

Definition moog_filter_process (output prev : list R) (frames : Z)
    (cutoff_hz resonance sample_rate : R) : list R * list R :=
  (* Compute filter coefficients for 4-pole Moog ladder filter *)
  let f := filter_coeff cutoff_hz sample_rate in
  let fb := resonance * (1 - 0.15 * f * f) in
  let b := (nth 0 prev 0, nth 1 prev 0, nth 2 prev 0, nth 3 prev 0,
            nth 4 prev 0) in
  let '(output, (b0, b1, b2, b3, b4)) :=
    moog_filter_loop f fb output b 0 (Z.to_nat frames) in
  (output,
   <[4%nat := b4]> (<[3%nat := b3]> (<[2%nat := b2]> (<[1%nat := b1]>
     (<[0%nat := b0]> prev))))).

(** ** Envelope generator *)

(** One call of [envelope_process] on the five fields of an envelope; the
    returned real is the function's return value, [*level]. *)
Definition envelope_process (env : moog_env_t)
    (attack decay sustain release sample_rate : R) : moog_env_t * R :=
  let atk_time := param_to_time attack sample_rate in
  let dec_time := param_to_time decay sample_rate in
  let rel_time := param_to_time release sample_rate in
  let env :=
    match env_state env with
    | ENV_ATTACK =>
      let progress := env_counter env / atk_time in
      let env :=
        if Rleb 1 progress then
          set_env_counter 0 (set_env_state ENV_DECAY (set_env_level 1 env))
        else
          (* Quadratic attack curve from current level to 1.0 *)
          let start := env_attack_level env in
          let p := progress * progress in
          set_env_level (start + (1 - start) * p) env in
      set_env_counter (env_counter env + 1) env
    | ENV_DECAY =>
      let progress := env_counter env / dec_time in
      let env :=
        if Rleb 1 progress then
          set_env_counter 0
            (set_env_state ENV_SUSTAIN (set_env_level sustain env))
        else
          (* Quadratic decay curve *)
          let p := 1 - progress in
          set_env_level (sustain + (1 - sustain) * p * p) env in
      set_env_counter (env_counter env + 1) env
    | ENV_SUSTAIN => set_env_level sustain env
    | ENV_RELEASE =>
      let progress := env_counter env / rel_time in
      let env :=
        if Rleb 1 progress then
          set_env_counter 0 (set_env_state ENV_OFF (set_env_level 0 env))
        else
          (* Quadratic release curve from captured start level *)
          let p := 1 - progress in
          set_env_level (env_release_level env * p * p) env in
      set_env_counter (env_counter env + 1) env
    | ENV_OFF => set_env_level 0 env
    end in
  (env, env_level env).

(** ** Engine lifecycle *)

(** The engine after [memset(engine, 0, sizeof(moog_engine_t))]. *)
Definition engine_zero : moog_engine_t :=
  let env0 := {| env_state := ENV_OFF; env_level := 0; env_attack_level := 0;
                 env_release_level := 0; env_counter := 0 |} in
  {| params :=
       {| sample_rate := 0;
          osc_wave := repeat WAVE_TRIANGLE 4; osc_volume := repeat 0 4;
          osc_range := repeat 0%Z 4;
          osc2_detune := 0; osc3_detune := 0; osc4_detune := 0;
          filter_cutoff := 0; filter_resonance := 0; filter_contour := 0;
          filter_key_follow := 0;
          amp_attack := 0; amp_decay := 0; amp_sustain := 0; amp_release := 0;
          filt_attack := 0; filt_decay := 0; filt_sustain := 0;
          filt_release := 0;
          glide := 0; master_volume := 0; noise_volume := 0;
          mod_to_filter := 0; mod_to_pitch := 0; bend_range := 0;
          octave_transpose := 0;
          lfo_rate := 0; lfo_depth_pitch := 0; lfo_depth_filter := 0;
          velocity_sensitivity := 0 |};
     mod_wheel := 0; pitch_bend := 0; counter := 0; period := 0;
     glide_period := 0; last_val := repeat 0 5;
     amp_env := env0; filt_env := env0;
     filter_prev := repeat 0 6; noise_seed := 0;
     current_note := 0; gate_on := 0;
     key_stack := repeat 0%Z 16; key_stack_count := 0;
     lfo_phase := 0; velocity := 0 |}.

(** [moog_engine_init]: the previous contents of [*engine] are overwritten,
    so the result does not depend on the argument. *)
Definition moog_engine_init (_ : moog_engine_t) : moog_engine_t :=
  let e := engine_zero in
  let p :=
    {| sample_rate := MOOG_SAMPLE_RATE;
       (* Default oscillator settings *)
       osc_wave := [WAVE_SAWTOOTH; WAVE_SAWTOOTH; WAVE_SAWTOOTH; WAVE_TRIANGLE];
       osc_volume := [0.8; 0; 0; 0];
       osc_range := [0; 0; -1; 0]%Z;
       osc2_detune := 0; osc3_detune := 0; osc4_detune := 0.5;
       (* Filter - open with moderate resonance *)
       filter_cutoff := 0.7; filter_resonance := 0.2; filter_contour := 0.3;
       filter_key_follow := 0;
       (* Amp envelope *)
       amp_attack := 0.01; amp_decay := 0.3; amp_sustain := 0.7;
       amp_release := 0.2;
       (* Filter envelope *)
       filt_attack := 0.01; filt_decay := 0.3; filt_sustain := 0.3;
       filt_release := 0.2;
       (* Other defaults *)
       glide := 0; master_volume := 0.7; noise_volume := 0;
       mod_to_filter := 0.5; mod_to_pitch := 0.5; bend_range := 0.167;
       octave_transpose := octave_transpose e;
       (* LFO defaults *)
       lfo_rate := 0.3; lfo_depth_pitch := 0; lfo_depth_filter := 0;
       velocity_sensitivity := 0.5 |} in
  let e := set_params p e in
  let e := set_velocity 1 e in
  (* Noise seed *)
  let e := set_noise_seed 12345 e in
  (* Initialize period to middle C *)
  let e := set_period (hz_to_period (note_to_hz 60) (sample_rate e)) e in
  let e := set_glide_period (period e) e in
  e.

Definition moog_engine_reset (e : moog_engine_t) : moog_engine_t :=
  let e := set_amp_env
    (set_env_counter 0 (set_env_level 0 (set_env_state ENV_OFF (amp_env e))))
    e in
  let e := set_filt_env
    (set_env_counter 0 (set_env_level 0 (set_env_state ENV_OFF (filt_env e))))
    e in
  let e := set_gate_on 0 e in
  let e := set_current_note (-1) e in
  let e := set_key_stack_count 0 e in
  let e := set_counter 0 e in
  let e := set_filter_prev (repeat 0 6) e in
  let e := set_last_val (repeat 0 5) e in
  e.

(** ** MIDI handlers *)

Definition moog_engine_note_on (e : moog_engine_t) (note : Z) (vel : R)
    : moog_engine_t :=
  (* Add note to key stack *)
  let e :=
    if (key_stack_count e <? MOOG_MAX_KEYS)%Z then
      let e := set_key_stack
        (<[Z.to_nat (key_stack_count e) := note]> (key_stack e)) e in
      set_key_stack_count (key_stack_count e + 1)%Z e
    else e in
  (* Calculate target period for this note *)
  let effective_note := (note + octave_transpose e * 12)%Z in
  let effective_note := if (effective_note <? 0)%Z then 0%Z else effective_note in
  let effective_note :=
    if (effective_note >? 127)%Z then 127%Z else effective_note in
  let target_period :=
    hz_to_period (note_to_hz effective_note) (sample_rate e) in
  let e :=
    if negb (gate_on e =? 0)%Z && Rltb 0.001 (glide e) then
      (* Glide to new note *)
      set_glide_period target_period e
    else
      (* Immediate pitch change *)
      let e := set_period target_period e in
      set_glide_period target_period e in
  let e := set_current_note note e in
  let e := set_velocity vel e in
  if negb (gate_on e =? 0)%Z then
    (* Legato: gate already on, just change pitch - don't retrigger envelopes *)
    e
  else
    (* New note: trigger envelopes from current level (smooth retrigger) *)
    let e := set_gate_on 1 e in
    let e := set_amp_env
      (set_env_counter 0 (set_env_state ENV_ATTACK
         (set_env_attack_level (amp_env_level e) (amp_env e)))) e in
    let e := set_filt_env
      (set_env_counter 0 (set_env_state ENV_ATTACK
         (set_env_attack_level (filt_env_level e) (filt_env e)))) e in
    e.

(** The outer search loop of [moog_engine_note_off]: the first index
    [i, i+1, ...] (at most [n] of them) whose entry equals [note]. *)
Fixpoint find_key (key_stack : list Z) (note : Z) (i n : nat) : option nat :=
  match n with
  | O => None
  | S n' =>
    if (nth i key_stack 0 =? note)%Z then Some i
    else find_key key_stack note (S i) n'
  end.

(** The inner loop: [n] times [key_stack[j] = key_stack[j + 1]], [j++]. *)
Fixpoint shift_down (key_stack : list Z) (j n : nat) : list Z :=
  match n with
  | O => key_stack
  | S n' => shift_down (<[j := nth (S j) key_stack 0%Z]> key_stack) (S j) n'
  end.

Definition moog_engine_note_off (e : moog_engine_t) (note : Z)
    : moog_engine_t :=
  (* Remove note from key stack *)
  let e :=
    match find_key (key_stack e) note 0 (Z.to_nat (key_stack_count e)) with
    | Some i =>
      (* Shift remaining notes down *)
      let e := set_key_stack
        (shift_down (key_stack e) i (Z.to_nat (key_stack_count e - 1) - i)%nat)
        e in
      set_key_stack_count (key_stack_count e - 1)%Z e
    | None => e
    end in
  if (key_stack_count e >? 0)%Z then
    (* Play the most recent remaining note (last note priority) *)
    let new_note := nth (Z.to_nat (key_stack_count e - 1)) (key_stack e) 0%Z in
    let effective_note := (new_note + octave_transpose e * 12)%Z in
    let effective_note :=
      if (effective_note <? 0)%Z then 0%Z else effective_note in
    let effective_note :=
      if (effective_note >? 127)%Z then 127%Z else effective_note in
    let target_period :=
      hz_to_period (note_to_hz effective_note) (sample_rate e) in
    let e := set_current_note new_note e in
    if Rltb 0.001 (glide e) then
      set_glide_period target_period e
    else
      let e := set_period target_period e in
      set_glide_period target_period e
  else
    (* No notes held - release *)
    let e := set_gate_on 0 e in
    let e :=
      match amp_env_state e with
      | ENV_OFF => e
      | _ =>
        set_amp_env
          (set_env_counter 0 (set_env_state ENV_RELEASE
             (set_env_release_level (amp_env_level e) (amp_env e)))) e
      end in
    let e :=
      match filt_env_state e with
      | ENV_OFF => e
      | _ =>
        set_filt_env
          (set_env_counter 0 (set_env_state ENV_RELEASE
             (set_env_release_level (filt_env_level e) (filt_env e)))) e
      end in
    e.

Definition moog_engine_pitch_bend (e : moog_engine_t) (bend : R)
    : moog_engine_t :=
  set_pitch_bend bend e.

Definition moog_engine_mod_wheel (e : moog_engine_t) (amount : R)
    : moog_engine_t :=
  set_mod_wheel amount e.

Definition moog_engine_all_notes_off (e : moog_engine_t) : moog_engine_t :=
  let e := set_key_stack_count 0 e in
  let e := set_gate_on 0 e in
  let e := set_amp_env
    (set_env_level 0 (set_env_state ENV_OFF (amp_env e))) e in
  let e := set_filt_env
    (set_env_level 0 (set_env_state ENV_OFF (filt_env e))) e in
  let e := set_current_note (-1) e in
  e.

(** The sequence of held notes: the first [key_stack_count] entries of the
    [key_stack] array, oldest press first. *)
Definition held_keys (e : moog_engine_t) : list Z :=
  take (Z.to_nat (key_stack_count e)) (key_stack e).

(** ** Audio rendering *)

(** Period of oscillator slot [osc] (0-based) for the instantaneous period
    [current_period]: the range offset, the detune of oscillators 2, 3
    and 4, and the floor of 2 samples (body of the oscillator loop of
    [moog_engine_render] up to the call of [generate_osc]). *)
Definition osc_period (e : moog_engine_t) (current_period : R) (osc : nat)
    : R :=
  (* Calculate oscillator period with range offset *)
  let osc_period := current_period in
  let range := nth osc (osc_range e) 0%Z in
  let osc_period :=
    if negb (range =? 0)%Z then osc_period * Rpower 2 (- IZR range)
    else osc_period in
  (* Apply detune for osc 2, 3, and 4 *)
  let osc_period :=
    if (osc =? 1)%nat && Rltb 0.001 (Rabs (osc2_detune e)) then
      let detune_cents := (osc2_detune e - 0.5) * 100 in
      osc_period * Rpower 2 (- detune_cents / 1200)
    else osc_period in
  let osc_period :=
    if (osc =? 2)%nat && Rltb 0.001 (Rabs (osc3_detune e)) then
      let detune_cents := (osc3_detune e - 0.5) * 100 in
      osc_period * Rpower 2 (- detune_cents / 1200)
    else osc_period in
  let osc_period :=
    if (osc =? 3)%nat && Rltb 0.001 (Rabs (osc4_detune e - 0.5)) then
      let detune_cents := (osc4_detune e - 0.5) * 100 in
      osc_period * Rpower 2 (- detune_cents / 1200)
    else osc_period in
  if Rltb osc_period 2 then 2 else osc_period.

(** The oscillator loop, for the [n] slots [osc, osc + 1, ...]. *)
Fixpoint osc_loop (e : moog_engine_t) (current_period : R) (osc n : nat)
    (sample : R) : R :=
  match n with
  | O => sample
  | S n' =>
    if Rltb (nth osc (osc_volume e) 0) 0.001 then
      osc_loop e current_period (S osc) n' sample
    else
      let osc_sample :=
        generate_osc (nth osc (osc_wave e) WAVE_COUNT) (counter e)
          (osc_period e current_period osc) in
      osc_loop e current_period (S osc) n'
        (sample + osc_sample * nth osc (osc_volume e) 0)
  end.

(** The sample loop of [moog_engine_render] is split along its commented
    blocks; [render_sample] below chains them in the order of the source. *)

(** Update glide *)
Definition update_glide (glide_rate : R) (e : moog_engine_t)
    : moog_engine_t :=
  if Rltb 0.01 (Rabs (period e - glide_period e)) then
    set_period (period e + (glide_period e - period e) * glide_rate) e
  else e.

(** LFO: phase advance and wrap; the LFO value is read off the phase. *)
Definition update_lfo (lfo_inc : R) (e : moog_engine_t) : moog_engine_t :=
  let e := set_lfo_phase (lfo_phase e + lfo_inc) e in
  if Rleb 1 (lfo_phase e) then set_lfo_phase (lfo_phase e - 1) e else e.

Definition lfo_value (e : moog_engine_t) : R := sin (lfo_phase e * 2 * PI).

(** Pitch modulation of the bent period by the LFO (through the mod
    wheel). *)
Definition modulate_period (e : moog_engine_t) (current_period lfo_val : R)
    : R :=
  (* Apply mod wheel modulation to LFO depths *)
  let pitch_mod :=
    lfo_val * lfo_depth_pitch e * mod_to_pitch e * mod_wheel e in
  (* Pitch modulation *)
  if Rltb 0.0001 (Rabs pitch_mod) then
    let mod_ratio := Rpower 2 (pitch_mod * 2 / 12) in
    current_period / mod_ratio
  else current_period.

(** Process envelopes: the engine with both envelopes advanced, and the two
    returned levels [amp_env] and [filt_env]. *)
Definition process_envelopes (sr : R) (e : moog_engine_t)
    : moog_engine_t * R * R :=
  let '(env, amp_env_v) :=
    envelope_process (amp_env e) (amp_attack e) (amp_decay e)
      (amp_sustain e) (amp_release e) sr in
  let e := set_amp_env env e in
  let '(env, filt_env_v) :=
    envelope_process (filt_env e) (filt_attack e) (filt_decay e)
      (filt_sustain e) (filt_release e) sr in
  let e := set_filt_env env e in
  (e, amp_env_v, filt_env_v).

(** Add noise *)
Definition add_noise (e : moog_engine_t) (sample : R) : moog_engine_t * R :=
  if Rltb 0.001 (noise_volume e) then
    let '(seed, noise) := noise_sample (noise_seed e) in
    (set_noise_seed seed e, sample + noise * noise_volume e)
  else (e, sample).

(** Filter cutoff with per-sample envelope modulation, normalised. *)
Definition modulated_cutoff (e : moog_engine_t) (filt_env_v lfo_val : R)
    : R :=
  let base_cutoff := filter_cutoff e in
  let filt_env_mod := filt_env_v * filter_contour e in
  (* Key tracking *)
  let key_track :=
    if (current_note e >=? 0)%Z then
      IZR (current_note e - 60) / 127 * filter_key_follow e
    else 0 in
  (* LFO filter modulation *)
  let lfo_filt := lfo_val * lfo_depth_filter e * mod_to_filter e * 0.3 in
  clampf (base_cutoff + filt_env_mod + key_track + lfo_filt) 0 1.

(** The tap updates of the inline single-sample Moog ladder filter, on the
    array [filter_prev]. *)
Definition ladder_taps (f fb sample : R) (fp : list R) : list R :=
  let input := sample - nth 4 fp 0 * fb in
  let input := input * (0.35013 * f * f * f * f) in
  let fp := <[1%nat := input + 0.3 * nth 0 fp 0 + (1 - f) * nth 1 fp 0]> fp in
  let fp := <[0%nat := input]> fp in
  let fp :=
    <[2%nat := nth 1 fp 0 + 0.3 * nth 1 fp 0 + (1 - f) * nth 2 fp 0]> fp in
  let fp :=
    <[3%nat := nth 2 fp 0 + 0.3 * nth 2 fp 0 + (1 - f) * nth 3 fp 0]> fp in
  let fp :=
    <[4%nat := nth 3 fp 0 + 0.3 * nth 3 fp 0 + (1 - f) * nth 4 fp 0]> fp in
  (* Clamp to prevent blowup *)
  let fp := if Rltb 4 (nth 4 fp 0) then <[4%nat := 4]> fp else fp in
  let fp := if Rltb (nth 4 fp 0) (-4) then <[4%nat := -4]> fp else fp in
  fp.

(** Inline single-sample Moog ladder filter. *)
Definition ladder_filter (sr cutoff_normalized sample : R)
    (e : moog_engine_t) : moog_engine_t :=
  (* Map normalized cutoff to Hz (exponential: 20Hz to 20kHz) *)
  let cutoff_hz := 20 * Rpower 1000 cutoff_normalized in
  let f := filter_coeff cutoff_hz sr in
  let fb := filter_resonance e * (1 - 0.15 * f * f) in
  set_filter_prev (ladder_taps f fb sample (filter_prev e)) e.

(** One iteration of the sample loop; the locals [sr], [bend_ratio],
    [glide_rate] and [lfo_inc] are computed before the loop.  Returns the
    engine and the value stored in [output[i]]. *)
Definition render_sample (sr bend_ratio glide_rate lfo_inc : R)
    (e : moog_engine_t) : moog_engine_t * R :=
  let e := update_glide glide_rate e in
  (* Current period with pitch bend and mod *)
  let current_period := period e / bend_ratio in
  let e := update_lfo lfo_inc e in
  let lfo_val := lfo_value e in
  let current_period := modulate_period e current_period lfo_val in
  let '(e, amp_env_v, filt_env_v) := process_envelopes sr e in
  (* Apply velocity sensitivity *)
  let vel_scale :=
    1 - velocity_sensitivity e + velocity_sensitivity e * velocity e in
  (* Generate oscillator samples *)
  let sample := osc_loop e current_period 0 4 0 in
  let '(e, sample) := add_noise e sample in
  (* Apply amplitude envelope and velocity *)
  let sample := sample * (amp_env_v * vel_scale) in
  (* Per-sample filter processing for smooth envelope tracking *)
  let e :=
    ladder_filter sr (modulated_cutoff e filt_env_v lfo_val) sample e in
  let sample := nth 4 (filter_prev e) 0 in
  let e := set_counter (counter e + 1) e in
  (e, sample * master_volume e).

(** The sample loop: [n] iterations starting at index [i]. *)
Fixpoint render_loop (sr bend_ratio glide_rate lfo_inc : R)
    (e : moog_engine_t) (output : list R) (i n : nat)
    : moog_engine_t * list R :=
  match n with
  | O => (e, output)
  | S n' =>
    let '(e, v) := render_sample sr bend_ratio glide_rate lfo_inc e in
    render_loop sr bend_ratio glide_rate lfo_inc e (<[i := v]> output)
      (S i) n'
  end.

(** Compute pitch bend multiplier *)
Definition render_bend_ratio (e : moog_engine_t) : R :=
  let bend_semitones := pitch_bend e * bend_range e * 12 in
  Rpower 2 (bend_semitones / 12).

(** Compute glide rate *)
Definition render_glide_rate (e : moog_engine_t) (frames : Z) : R :=
  if Rltb 0.001 (glide e) then
    let glide_time := glide e * glide e * 2 * sample_rate e in
    1 / (1 + glide_time / IZR frames)
  else 1.

(** LFO increment per sample (0.1 - 20 Hz) *)
Definition render_lfo_inc (e : moog_engine_t) : R :=
  let lfo_freq := 0.1 + lfo_rate e * lfo_rate e * 20 in
  lfo_freq / sample_rate e.

Definition moog_engine_render (e : moog_engine_t) (output : list R)
    (frames : Z) : moog_engine_t * list R :=
  render_loop (sample_rate e) (render_bend_ratio e)
    (render_glide_rate e frames) (render_lfo_inc e) e output 0
    (Z.to_nat frames).

(** ** Plugin layer (moog_plugin.cpp) *)

(** Parameter indices *)
Definition P_OSC1_WAVE : nat := 0.
Definition P_OSC1_VOLUME : nat := 1.
Definition P_OSC1_RANGE : nat := 2.
Definition P_OSC2_WAVE : nat := 3.
Definition P_OSC2_VOLUME : nat := 4.
Definition P_OSC2_RANGE : nat := 5.
Definition P_OSC2_DETUNE : nat := 6.
Definition P_OSC3_WAVE : nat := 7.
Definition P_OSC3_VOLUME : nat := 8.
Definition P_OSC3_RANGE : nat := 9.
Definition P_OSC3_DETUNE : nat := 10.
Definition P_OSC4_WAVE : nat := 11.
Definition P_OSC4_VOLUME : nat := 12.
Definition P_OSC4_RANGE : nat := 13.
Definition P_OSC4_DETUNE : nat := 14.
Definition P_NOISE : nat := 15.
Definition P_FILTER_CUTOFF : nat := 16.
Definition P_FILTER_RESONANCE : nat := 17.
Definition P_FILTER_CONTOUR : nat := 18.
Definition P_FILTER_KEY_FOLLOW : nat := 19.
Definition P_AMP_ATTACK : nat := 20.
Definition P_AMP_DECAY : nat := 21.
Definition P_AMP_SUSTAIN : nat := 22.
Definition P_AMP_RELEASE : nat := 23.
Definition P_FILT_ATTACK : nat := 24.
Definition P_FILT_DECAY : nat := 25.
Definition P_FILT_SUSTAIN : nat := 26.
Definition P_FILT_RELEASE : nat := 27.
Definition P_GLIDE : nat := 28.
Definition P_MASTER_VOLUME : nat := 29.
Definition P_LFO_RATE : nat := 30.
Definition P_LFO_PITCH : nat := 31.
Definition P_LFO_FILTER : nat := 32.
Definition P_MOD_FILTER : nat := 33.
Definition P_MOD_PITCH : nat := 34.
Definition P_BEND_RANGE : nat := 35.
Definition P_VEL_SENS : nat := 36.
Definition P_COUNT : nat := 37.

(** [(moog_wave_t)(int)x]: integers that name no waveform all take the
    [default] branch of [generate_osc], like [WAVE_COUNT]. *)
Definition wave_of_int (z : Z) : moog_wave_t :=
  match z with
  | 0%Z => WAVE_TRIANGLE
  | 1%Z => WAVE_SAWTOOTH
  | 2%Z => WAVE_SQUARE
  | 3%Z => WAVE_PULSE
  | _ => WAVE_COUNT
  end.

(** One row of [g_shadow_params] (display name and type left out). *)
Record param_def_t := {
  key : string;
  index : nat;
  min_val : R;
  max_val : R
}.

Definition g_shadow_params : list param_def_t :=
  [
    {| key := "osc1_wave"; index := P_OSC1_WAVE; min_val := 0; max_val := 3 |};
    {| key := "osc1_volume"; index := P_OSC1_VOLUME; min_val := 0; max_val := 1 |};
    {| key := "osc1_range"; index := P_OSC1_RANGE; min_val := (-2); max_val := 2 |};
    {| key := "osc2_wave"; index := P_OSC2_WAVE; min_val := 0; max_val := 3 |};
    {| key := "osc2_volume"; index := P_OSC2_VOLUME; min_val := 0; max_val := 1 |};
    {| key := "osc2_range"; index := P_OSC2_RANGE; min_val := (-2); max_val := 2 |};
    {| key := "osc2_detune"; index := P_OSC2_DETUNE; min_val := 0; max_val := 1 |};
    {| key := "osc3_wave"; index := P_OSC3_WAVE; min_val := 0; max_val := 3 |};
    {| key := "osc3_volume"; index := P_OSC3_VOLUME; min_val := 0; max_val := 1 |};
    {| key := "osc3_range"; index := P_OSC3_RANGE; min_val := (-2); max_val := 2 |};
    {| key := "osc3_detune"; index := P_OSC3_DETUNE; min_val := 0; max_val := 1 |};
    {| key := "osc4_wave"; index := P_OSC4_WAVE; min_val := 0; max_val := 3 |};
    {| key := "osc4_volume"; index := P_OSC4_VOLUME; min_val := 0; max_val := 1 |};
    {| key := "osc4_range"; index := P_OSC4_RANGE; min_val := (-2); max_val := 2 |};
    {| key := "osc4_detune"; index := P_OSC4_DETUNE; min_val := 0; max_val := 1 |};
    {| key := "noise"; index := P_NOISE; min_val := 0; max_val := 1 |};
    {| key := "cutoff"; index := P_FILTER_CUTOFF; min_val := 0; max_val := 1 |};
    {| key := "resonance"; index := P_FILTER_RESONANCE; min_val := 0; max_val := 1 |};
    {| key := "contour"; index := P_FILTER_CONTOUR; min_val := 0; max_val := 1 |};
    {| key := "key_follow"; index := P_FILTER_KEY_FOLLOW; min_val := 0; max_val := 1 |};
    {| key := "attack"; index := P_AMP_ATTACK; min_val := 0; max_val := 1 |};
    {| key := "decay"; index := P_AMP_DECAY; min_val := 0; max_val := 1 |};
    {| key := "sustain"; index := P_AMP_SUSTAIN; min_val := 0; max_val := 1 |};
    {| key := "release"; index := P_AMP_RELEASE; min_val := 0; max_val := 1 |};
    {| key := "f_attack"; index := P_FILT_ATTACK; min_val := 0; max_val := 1 |};
    {| key := "f_decay"; index := P_FILT_DECAY; min_val := 0; max_val := 1 |};
    {| key := "f_sustain"; index := P_FILT_SUSTAIN; min_val := 0; max_val := 1 |};
    {| key := "f_release"; index := P_FILT_RELEASE; min_val := 0; max_val := 1 |};
    {| key := "glide"; index := P_GLIDE; min_val := 0; max_val := 1 |};
    {| key := "volume"; index := P_MASTER_VOLUME; min_val := 0; max_val := 1 |};
    {| key := "lfo_rate"; index := P_LFO_RATE; min_val := 0; max_val := 1 |};
    {| key := "lfo_pitch"; index := P_LFO_PITCH; min_val := 0; max_val := 1 |};
    {| key := "lfo_filter"; index := P_LFO_FILTER; min_val := 0; max_val := 1 |};
    {| key := "mod_filter"; index := P_MOD_FILTER; min_val := 0; max_val := 1 |};
    {| key := "mod_pitch"; index := P_MOD_PITCH; min_val := 0; max_val := 1 |};
    {| key := "bend_range"; index := P_BEND_RANGE; min_val := 0; max_val := 1 |};
    {| key := "vel_sens"; index := P_VEL_SENS; min_val := 0; max_val := 1 |}
  ].

Definition MAX_PRESETS : nat := 32.

(** Factory presets, in the parameter order of the enum. *)
Definition g_factory_presets : list (list R) :=
  [
    (* Init *)
    [1; 0.7; (-1); 1; 0.5; (-1); 0.48; 1; 0.4; (-2); 0.52; 0; 0; 0;
     0.5; 0; 0.7; 0.2; 0.3; 0; 0.01; 0.3; 0.7; 0.2; 0.01; 0.3; 0.3;
     0.2; 0; 0.7; 0.3; 0; 0; 0.5; 0.5; 0.167; 0.5];
    (* Soloist *)
    [1; 0.7; (-1); 0; 0; 0; 0.64; 1; 0; (-1); 0.5; 0; 0; (-2); 0.66;
     0; 0.886; 1; 0.5; 0; 0.027; 0.301; 0.723; 0.282; 0.178; 0.573;
     0.16; 0.316; 0.051; 0.402; 0.3; 0; 0; 0.5; 0.5; 0.167; 0.5];
    (* Duet *)
    [1; 0.7; (-1); 0; 0.863; 0; 0.64; 1; 0; (-1); 0.5; 0; 0; (-2);
     0.66; 0; 0.886; 1; 0.5; 0; 0.027; 0.301; 0.723; 0.282; 0.178;
     0.573; 0.16; 0.316; 0.051; 0.402; 0.3; 0; 0; 0.5; 0.5; 0.167; 0.5];
    (* Trio *)
    [1; 0.7; 0; 0; 0.863; 1; 0.64; 2; 0.151; (-1); 0.5; 0; 0; (-2);
     0.66; 0; 0.886; 0.014; 0.5; 0; 0.027; 0.301; 0.723; 0.282; 0.178;
     0.573; 0.16; 0.316; 0.051; 0.402; 0.3; 0; 0; 0.5; 0.5; 0.167; 0.5];
    (* Quartet *)
    [1; 0.7; 0; 0; 0.863; 1; 0.64; 2; 0.151; (-1); 0.5; 3; 0.466; 1;
     0.66; 0; 0.886; 0.014; 0.5; 0; 0.027; 0.301; 0.723; 0.282; 0.178;
     0.573; 0.16; 0.316; 0.051; 0.402; 0.3; 0; 0; 0.5; 0.5; 0.167; 0.5];
    (* SonataFlair *)
    [1; 0.904; (-1); 1; 0.644; (-1); 0.32; 1; 0.795; (-1); 0.5; 0; 0;
     (-2); 0.34; 0; 0.527; 0.521; 0.5; 0; 0.027; 0.301; 0.723; 0.282;
     0.195; 0.445; 0.16; 0.316; 0; 0.466; 0.3; 0; 0; 0.5; 0.5; 0.167;
     0.5];
    (* SonataFlairSub *)
    [1; 0.904; (-1); 1; 0.644; (-1); 0.32; 1; 0.795; (-1); 0.5; 1;
     0.767; (-2); 0.34; 0; 0.527; 0.521; 0.5; 0; 0.027; 0.301; 0.723;
     0.282; 0.195; 0.445; 0.16; 0.316; 0; 0.466; 0.3; 0; 0; 0.5; 0.5;
     0.167; 0.5];
    (* AngrySweep *)
    [1; 0.7; (-1); 2; 0.644; (-1); 0.32; 1; 0.795; (-1); 0.18; 0; 0;
     (-2); 0.34; 0; 0.629; 1; 0.5; 0; 0.027; 0.301; 0.723; 0.282;
     0.178; 0.573; 0.16; 0.316; 0.051; 0.402; 0.3; 0; 0; 0.5; 0.5;
     0.167; 0.5];
    (* SquarePulse *)
    [3; 0.7; (-1); 2; 0.644; (-1); 0.64; 1; 0; (-1); 0.5; 0; 0; (-2);
     0.66; 0; 0.704; 0.973; 0.5; 0; 0.027; 0.301; 0.723; 0.282; 0.178;
     0.573; 0.16; 0.316; 0.051; 0.402; 0.3; 0; 0; 0.5; 0.5; 0.167; 0.5];
    (* Whisper *)
    [1; 0.7; (-1); 2; 0.644; (-1); 0.32; 1; 0.795; (-1); 0.18; 0; 0;
     (-2); 0.34; 0; 0.718; 1; 0.5; 0; 0.027; 0.301; 0.723; 0.282;
     0.178; 0.546; 0.16; 0.316; 0.051; 0.293; 0.3; 0; 0; 0.5; 0.5;
     0.167; 0.5];
    (* CookedPasta *)
    [3; 0.7; (-1); 3; 0.644; (-1); 1; 0; 0.795; 1; 1; 0; 0; (-2); 1;
     0; 0.73; 0.849; 0.5; 0; 0.027; 0.528; 0; 0.374; 0.084; 0.315;
     0.27; 0.319; 0.035; 0.293; 0.3; 0; 0; 0.5; 0.5; 0.167; 0.5];
    (* CookedPasta2 *)
    [3; 0.699; (-1); 3; 0.644; (-1); 1; 0; 0.795; 1; 1; 0; 0; (-2); 1;
     0; 0.73; 0.849; 0.5; 0; 0.027; 0.528; 0.41; 0.374; 0.084; 0.315;
     0.27; 0.319; 0.035; 0.247; 0.3; 0; 0; 0.5; 0.5; 0.167; 0.5];
    (* Classic Bass *)
    [1; 0.9; (-1); 1; 0.7; (-1); 0.53; 0; 0; 0; 0.5; 0; 0; 0; 0.5; 0;
     0.35; 0.5; 0.6; 0; 0; 0.2; 0.7; 0.1; 0; 0.15; 0; 0.1; 0; 0.7;
     0.3; 0; 0; 0.5; 0.5; 0.167; 0.5];
    (* Sub Bass *)
    [0; 0.9; (-2); 1; 0.25; (-1); 0.5; 0; 0; 0; 0.5; 0; 0; 0; 0.5; 0;
     0.25; 0; 0.3; 0; 0; 0.4; 0.9; 0.2; 0; 0.2; 0; 0.2; 0; 0.8; 0.3;
     0; 0; 0.5; 0.5; 0.167; 0.2]
  ].

Definition FACTORY_PRESET_COUNT : Z := 14.

(** [moog_instance_t], without its strings ([module_dir], [preset_name] and
    the preset names). *)
Record moog_instance_t := {
  inst_engine : moog_engine_t;
  current_preset : Z;
  preset_count : Z;
  inst_params : list R;              (* [P_COUNT] *)
  presets : list (list R);           (* [MAX_PRESETS] *)
  output_gain : R;
  inst_octave_transpose : Z
}.

Definition set_inst_engine (v : moog_engine_t) (inst : moog_instance_t)
    : moog_instance_t :=
  {| inst_engine := v; current_preset := current_preset inst;
     preset_count := preset_count inst; inst_params := inst_params inst;
     presets := presets inst; output_gain := output_gain inst;
     inst_octave_transpose := inst_octave_transpose inst |}.

Definition set_current_preset (v : Z) (inst : moog_instance_t)
    : moog_instance_t :=
  {| inst_engine := inst_engine inst; current_preset := v;
     preset_count := preset_count inst; inst_params := inst_params inst;
     presets := presets inst; output_gain := output_gain inst;
     inst_octave_transpose := inst_octave_transpose inst |}.

Definition set_inst_params (v : list R) (inst : moog_instance_t)
    : moog_instance_t :=
  {| inst_engine := inst_engine inst; current_preset := current_preset inst;
     preset_count := preset_count inst; inst_params := v;
     presets := presets inst; output_gain := output_gain inst;
     inst_octave_transpose := inst_octave_transpose inst |}.

Definition set_inst_octave_transpose (v : Z) (inst : moog_instance_t)
    : moog_instance_t :=
  {| inst_engine := inst_engine inst; current_preset := current_preset inst;
     preset_count := preset_count inst; inst_params := inst_params inst;
     presets := presets inst; output_gain := output_gain inst;
     inst_octave_transpose := v |}.

(** [engine->octave_transpose = v] *)
Definition set_octave_transpose (v : Z) (e : moog_engine_t) : moog_engine_t :=
  set_params
    {| sample_rate := sample_rate e;
       osc_wave := osc_wave e; osc_volume := osc_volume e;
       osc_range := osc_range e;
       osc2_detune := osc2_detune e; osc3_detune := osc3_detune e;
       osc4_detune := osc4_detune e;
       filter_cutoff := filter_cutoff e;
       filter_resonance := filter_resonance e;
       filter_contour := filter_contour e;
       filter_key_follow := filter_key_follow e;
       amp_attack := amp_attack e; amp_decay := amp_decay e;
       amp_sustain := amp_sustain e; amp_release := amp_release e;
       filt_attack := filt_attack e; filt_decay := filt_decay e;
       filt_sustain := filt_sustain e; filt_release := filt_release e;
       glide := glide e; master_volume := master_volume e;
       noise_volume := noise_volume e;
       mod_to_filter := mod_to_filter e; mod_to_pitch := mod_to_pitch e;
       bend_range := bend_range e;
       octave_transpose := v;
       lfo_rate := lfo_rate e; lfo_depth_pitch := lfo_depth_pitch e;
       lfo_depth_filter := lfo_depth_filter e;
       velocity_sensitivity := velocity_sensitivity e |} e.

Definition apply_params_to_engine (inst : moog_instance_t)
    : moog_instance_t :=
  let e := inst_engine inst in
  let prm i := nth i (inst_params inst) 0 in
  let p :=
    {| sample_rate := sample_rate e;
       osc_wave := [wave_of_int (Rtrunc (prm P_OSC1_WAVE));
                    wave_of_int (Rtrunc (prm P_OSC2_WAVE));
                    wave_of_int (Rtrunc (prm P_OSC3_WAVE));
                    wave_of_int (Rtrunc (prm P_OSC4_WAVE))];
       osc_volume := [prm P_OSC1_VOLUME; prm P_OSC2_VOLUME;
                      prm P_OSC3_VOLUME; prm P_OSC4_VOLUME];
       osc_range := [Rtrunc (prm P_OSC1_RANGE); Rtrunc (prm P_OSC2_RANGE);
                     Rtrunc (prm P_OSC3_RANGE); Rtrunc (prm P_OSC4_RANGE)];
       osc2_detune := prm P_OSC2_DETUNE;
       osc3_detune := prm P_OSC3_DETUNE;
       osc4_detune := prm P_OSC4_DETUNE;
       filter_cutoff := prm P_FILTER_CUTOFF;
       filter_resonance := prm P_FILTER_RESONANCE;
       filter_contour := prm P_FILTER_CONTOUR;
       filter_key_follow := prm P_FILTER_KEY_FOLLOW;
       amp_attack := prm P_AMP_ATTACK; amp_decay := prm P_AMP_DECAY;
       amp_sustain := prm P_AMP_SUSTAIN; amp_release := prm P_AMP_RELEASE;
       filt_attack := prm P_FILT_ATTACK; filt_decay := prm P_FILT_DECAY;
       filt_sustain := prm P_FILT_SUSTAIN;
       filt_release := prm P_FILT_RELEASE;
       glide := prm P_GLIDE; master_volume := prm P_MASTER_VOLUME;
       noise_volume := prm P_NOISE;
       mod_to_filter := prm P_MOD_FILTER; mod_to_pitch := prm P_MOD_PITCH;
       bend_range := prm P_BEND_RANGE;
       octave_transpose := octave_transpose e;
       lfo_rate := prm P_LFO_RATE; lfo_depth_pitch := prm P_LFO_PITCH;
       lfo_depth_filter := prm P_LFO_FILTER;
       velocity_sensitivity := prm P_VEL_SENS |} in
  set_inst_engine (set_params p e) inst.

Definition apply_preset (inst : moog_instance_t) (preset_idx : Z)
    : moog_instance_t :=
  if (preset_idx <? 0)%Z || (preset_idx >=? preset_count inst)%Z then inst
  else
    let p := nth (Z.to_nat preset_idx) (presets inst) (repeat 0 P_COUNT) in
    let inst := set_inst_params p inst in
    let inst := set_current_preset preset_idx inst in
    apply_params_to_engine inst.

(** [v2_create_instance], for a successful [calloc]. *)
Definition v2_create_instance : moog_instance_t :=
  let inst :=
    {| inst_engine := engine_zero; current_preset := 0; preset_count := 0;
       inst_params := repeat 0 P_COUNT;
       presets := repeat (repeat 0 P_COUNT) MAX_PRESETS;
       output_gain := 0.35; inst_octave_transpose := 0 |} in
  (* Initialize engine *)
  let inst := set_inst_engine (moog_engine_init (inst_engine inst)) inst in
  (* Load factory presets *)
  let inst :=
    {| inst_engine := inst_engine inst;
       current_preset := current_preset inst;
       preset_count := FACTORY_PRESET_COUNT;
       inst_params := inst_params inst;
       presets :=
         g_factory_presets ++
         drop (length g_factory_presets) (presets inst);
       output_gain := output_gain inst;
       inst_octave_transpose := inst_octave_transpose inst |} in
  (* Apply first preset *)
  apply_preset inst 0.

(** The named-parameter loop of [v2_set_param] over the rows [defs]. *)
Fixpoint set_named_param (defs : list param_def_t) (inst : moog_instance_t)
    (k : string) (fval : R) : moog_instance_t :=
  match defs with
  | [] => inst
  | d :: defs' =>
    if String.eqb k (key d) then
      let fval := if Rltb fval (min_val d) then min_val d else fval in
      let fval := if Rltb (max_val d) fval then max_val d else fval in
      let inst := set_inst_params (<[index d := fval]> (inst_params inst))
                    inst in
      apply_params_to_engine inst
    else set_named_param defs' inst k fval
  end.

(** [v2_set_param] for every key but ["state"] (the JSON patch restore is
    not modelled); [val] is the number that [atoi] / [atof] read from the
    value string, [atoi] keeping its integer part. *)
Definition v2_set_param (inst : moog_instance_t) (k : string) (val : R)
    : moog_instance_t :=
  if String.eqb k "preset" then
    let idx := Rtrunc val in
    if (idx >=? 0)%Z && (idx <? preset_count inst)%Z then
      apply_preset inst idx
    else inst
  else if String.eqb k "octave_transpose" then
    let v := Rtrunc val in
    let v := if (v <? -3)%Z then (-3)%Z else v in
    let v := if (v >? 3)%Z then 3%Z else v in
    let inst := set_inst_octave_transpose v inst in
    set_inst_engine
      (set_octave_transpose (inst_octave_transpose inst) (inst_engine inst))
      inst
  else if String.eqb k "all_notes_off" then
    set_inst_engine (moog_engine_all_notes_off (inst_engine inst)) inst
  else
    (* Named parameter access *)
    set_named_param g_shadow_params inst k val.

(** [v2_on_midi], on the message bytes (each in 0..255). *)
Definition v2_on_midi (inst : option moog_instance_t) (msg : list Z)
    : option moog_instance_t :=
  match inst with
  | None => None
  | Some i =>
    if (length msg <? 2)%nat then Some i
    else
      let status := Z.land (nth 0 msg 0%Z) 240 (* 0xF0 *) in
      let data1 := nth 1 msg 0%Z in
      let data2 := if (2 <? length msg)%nat then nth 2 msg 0%Z else 0%Z in
      let e := inst_engine i in
      let e :=
        if (status =? 144 (* 0x90 *))%Z then
          if (data2 >? 0)%Z then
            moog_engine_note_on e data1 (IZR data2 / 127)
          else moog_engine_note_off e data1
        else if (status =? 128 (* 0x80 *))%Z then
          moog_engine_note_off e data1
        else if (status =? 176 (* 0xB0 *))%Z then
          if (data1 =? 1)%Z then (* Mod wheel *)
            moog_engine_mod_wheel e (IZR data2 / 127)
          else if (data1 =? 123)%Z then (* All notes off *)
            moog_engine_all_notes_off e
          else e
        else if (status =? 224 (* 0xE0 *))%Z then (* Pitch bend *)
          let bend := (Z.lor (Z.shiftl data2 7) data1 - 8192)%Z in
          moog_engine_pitch_bend e (IZR bend / 8192)
        else e in
      Some (set_inst_engine e i)
  end.

(** Conversion loop of [v2_render_block]: mono float to interleaved stereo
    int16 with soft clipping, [n] frames from index [i]. *)
Fixpoint convert_loop (mono_buf : list R) (gain : R)
    (out_interleaved_lr : list Z) (i n : nat) : list Z :=
  match n with
  | O => out_interleaved_lr
  | S n' =>
    let sample := nth i mono_buf 0 * gain in
    (* Soft clip via tanh to avoid harsh digital clipping *)
    let sample :=
      if Rltb 0.9 sample || Rltb sample (-0.9) then tanh sample
      else sample in
    let s := Rtrunc (sample * 32767) in
    let s := if (s >? 32767)%Z then 32767%Z else s in
    let s := if (s <? -32768)%Z then (-32768)%Z else s in
    let out := <[(i * 2)%nat := s]> out_interleaved_lr in
    let out := <[(i * 2 + 1)%nat := s]> out in
    convert_loop mono_buf gain out (S i) n'
  end.

(** [memset(out, 0, frames * 4)]: the first [2 * frames] int16 cells. *)
Definition zero_frames (out : list Z) (frames : Z) : list Z :=
  repeat 0%Z (Nat.min (Z.to_nat (frames * 2)) (length out))
    ++ drop (Z.to_nat (frames * 2)) out.

(** [v2_render_block].  The local [mono_buf[256]] is not initialised in C
    and is only read below [frames]; it starts as zeros here.  The result
    carries the instance, the output buffer and the final [mono_buf]. *)
Definition v2_render_block (inst : option moog_instance_t)
    (out_interleaved_lr : list Z) (frames : Z)
    : option moog_instance_t * list Z * list R :=
  match inst with
  | None => (None, zero_frames out_interleaved_lr frames, repeat 0 256)
  | Some i =>
    (* Render mono audio *)
    let mono_buf := repeat 0 256 in
    let frames := if (frames >? 256)%Z then 256%Z else frames in
    let '(e, mono_buf) :=
      moog_engine_render (inst_engine i) mono_buf frames in
    (* Convert to stereo int16 with soft clipping *)
    let gain := output_gain i in
    let out :=
      convert_loop mono_buf gain out_interleaved_lr 0 (Z.to_nat frames) in
    (Some (set_inst_engine e i), out, mono_buf)
  end.

(** * Definitions used by the statements *)

(** ** The key stack *)

(** The earliest entry equal to [note] removed, all others kept in order. *)
Fixpoint remove_first (note : Z) (l : list Z) : list Z :=
  match l with
  | [] => []
  | x :: l' => if (x =? note)%Z then l' else x :: remove_first note l'
  end.

(** Well-formedness of the key stack: the array has its 16 cells and the
    count stays within them. *)
Definition key_stack_ok (e : moog_engine_t) : Prop :=
  length (key_stack e) = 16%nat /\ (0 <= key_stack_count e <= 16)%Z.

(** The calls that touch the key stack. *)
Inductive key_event :=
  | NoteOn (note : Z) (vel : R)
  | NoteOff (note : Z)
  | Reset
  | AllNotesOff.

Definition apply_event (e : moog_engine_t) (ev : key_event) : moog_engine_t :=
  match ev with
  | NoteOn note vel => moog_engine_note_on e note vel
  | NoteOff note => moog_engine_note_off e note
  | Reset => moog_engine_reset e
  | AllNotesOff => moog_engine_all_notes_off e
  end.

Definition run_events (evs : list key_event) (e : moog_engine_t)
    : moog_engine_t :=
  fold_left apply_event evs e.


(** No [NoteOn] of the sequence presses a note that is held at that
    moment. *)
Fixpoint presses_fresh (evs : list key_event) (e : moog_engine_t) : Prop :=
  match evs with
  | [] => True
  | ev :: evs' =>
    match ev with
    | NoteOn note _ => note ∉ held_keys e
    | _ => True
    end /\ presses_fresh evs' (apply_event e ev)
  end.

(** ** Pitch of a note *)

(** The period both note handlers compute for a note: octave transpose,
    clamp of the effective note to 0..127, frequency, period. *)
Definition note_period (e : moog_engine_t) (note : Z) : R :=
  let effective_note := (note + octave_transpose e * 12)%Z in
  let effective_note := if (effective_note <? 0)%Z then 0%Z else effective_note in
  let effective_note :=
    if (effective_note >? 127)%Z then 127%Z else effective_note in
  hz_to_period (note_to_hz effective_note) (sample_rate e).

(** The envelope as a gate-off noteOn leaves it: attack entered from the
    current level, counter at zero. *)
Definition env_triggered (env : moog_env_t) : moog_env_t :=
  {| env_state := ENV_ATTACK; env_level := env_level env;
     env_attack_level := env_level env;
     env_release_level := env_release_level env; env_counter := 0 |}.

(** A fresh plugin instance whose glide parameter has been set to 0.5. *)
Definition glide_instance : moog_instance_t :=
  v2_set_param v2_create_instance "glide" 0.5.

(** ** Oscillator periods *)

(** Detune in cents of a normalised detune value: 0..1 maps to -50..+50. *)
Definition detune_cents (detune : R) : R := (detune - 0.5) * 100.

(** The detune value of a slot (oscillators 2, 3 and 4 have one). *)
Definition slot_detune (e : moog_engine_t) (osc : nat) : R :=
  match osc with
  | 1%nat => osc2_detune e
  | 2%nat => osc3_detune e
  | _ => osc4_detune e
  end.

(** The effective period as the specification words it: base period times
    2^(-rangeOffset) times 2^(-detuneCents/1200), detune on oscillators
    2 to 4 only, floor of 2 samples. *)
Definition spec_osc_period (e : moog_engine_t) (base : R) (osc : nat) : R :=
  let range := nth osc (osc_range e) 0%Z in
  let detune :=
    if (osc =? 0)%nat then 1
    else Rpower 2 (- detune_cents (slot_detune e osc) / 1200) in
  Rmax 2 (base * Rpower 2 (- IZR range) * detune).

(** The detune factor the code applies: none on oscillator 1, and none on
    oscillator 4 while its detune is within 0.001 of the centre 0.5. *)
Definition detune_factor (e : moog_engine_t) (osc : nat) : R :=
  match osc with
  | 0%nat => 1
  | 3%nat =>
    if Rltb 0.001 (Rabs (osc4_detune e - 0.5)) then
      Rpower 2 (- detune_cents (osc4_detune e) / 1200)
    else 1
  | _ => Rpower 2 (- detune_cents (slot_detune e osc) / 1200)
  end.

(** Contribution of one slot to the oscillator sum of a sample. *)
Definition slot_sample (e : moog_engine_t) (period : R) (osc : nat) : R :=
  if Rltb (nth osc (osc_volume e) 0) 0.001 then 0
  else generate_osc (nth osc (osc_wave e) WAVE_COUNT) (counter e) period
       * nth osc (osc_volume e) 0.

(** A fresh plugin instance whose oscillator-2 detune has been set to 0,
    the low end of the parameter's range. *)
Definition detune_instance : moog_instance_t :=
  v2_set_param v2_create_instance "osc2_detune" 0.

(** A fresh plugin instance whose oscillator 4 has been made audible
    (volume 1) and detuned by 0.0005 from the centre, inside the dead zone
    of its guard. *)
Definition dead_zone_instance : moog_instance_t :=
  v2_set_param (v2_set_param v2_create_instance "osc4_volume" 1)
    "osc4_detune" 0.5005.

(** ** Envelopes *)

(** The four parameters of both envelopes lie in [0,1]. *)
Definition adsr_in_range (p : moog_params_t) : Prop :=
  (0 <= amp_attack p <= 1 /\ 0 <= amp_decay p <= 1 /\
   0 <= amp_sustain p <= 1 /\ 0 <= amp_release p <= 1) /\
  (0 <= filt_attack p <= 1 /\ 0 <= filt_decay p <= 1 /\
   0 <= filt_sustain p <= 1 /\ 0 <= filt_release p <= 1).

(** Engine states that calls of the engine's functions produce from an
    initialized engine, while the plugin keeps the envelope parameters in
    [0,1] and the sample rate as set by [moog_engine_init].  A render call
    is split into its per-sample steps: the state after [k] of the [frames]
    iterations of the sample loop is reachable. *)
Inductive reachable : moog_engine_t -> Prop :=
  | reach_init e0 : reachable (moog_engine_init e0)
  | reach_reset e : reachable e -> reachable (moog_engine_reset e)
  | reach_note_on e note vel :
      reachable e -> reachable (moog_engine_note_on e note vel)
  | reach_note_off e note :
      reachable e -> reachable (moog_engine_note_off e note)
  | reach_pitch_bend e bend :
      reachable e -> reachable (moog_engine_pitch_bend e bend)
  | reach_mod_wheel e amount :
      reachable e -> reachable (moog_engine_mod_wheel e amount)
  | reach_all_notes_off e :
      reachable e -> reachable (moog_engine_all_notes_off e)
  | reach_set_params e p :
      reachable e -> sample_rate p = sample_rate e -> adsr_in_range p ->
      reachable (set_params p e)
  | reach_render e output frames k :
      reachable e -> (k <= Z.to_nat frames)%nat ->
      reachable
        (fst (render_loop (sample_rate e) (render_bend_ratio e)
                (render_glide_rate e frames) (render_lfo_inc e)
                e output 0 k)).

(** What holds of one envelope between calls. *)
Definition env_ok (env : moog_env_t) : Prop :=
  0 <= env_level env <= 1 /\
  0 <= env_attack_level env <= 1 /\
  0 <= env_release_level env <= 1 /\
  0 <= env_counter env /\
  (env_state env = ENV_OFF -> env_level env = 0).

Definition envelopes_ok (e : moog_engine_t) : Prop :=
  env_ok (amp_env e) /\ env_ok (filt_env e) /\
  adsr_in_range e /\ sample_rate e = MOOG_SAMPLE_RATE.

(** ** Ladder filter *)

(** Bounds on the five filter taps that one filter step preserves when the
    coefficient [f] is fixed, the input sample is within [-1,1] and the
    feedback gain is within [0,1]: |input| is then at most 5 * 0.35013 *
    f^4, and each stage gains at most 1.3 / f. *)
Definition tap_bound (f : R) (k : nat) : R :=
  match k with
  | 0%nat => 1.75065 * (f * f * f * f)
  | 1%nat => 1.3 * 1.75065 * (f * f * f)
  | 2%nat => 1.3 * 1.3 * 1.75065 * (f * f)
  | 3%nat => 1.3 * 1.3 * 1.3 * 1.75065 * f
  | _ => 4
  end.

Definition within (bound x : R) : Prop := - bound <= x <= bound.

Definition taps_bounded (f : R) (b : taps) : Prop :=
  let '(b0, b1, b2, b3, b4) := b in
  within (tap_bound f 0) b0 /\ within (tap_bound f 1) b1 /\
  within (tap_bound f 2) b2 /\ within (tap_bound f 3) b3 /\
  within (tap_bound f 4) b4.

(** The output buffer while the filter loop is at index [i]: filtered
    samples below [i], input samples from [i] on. *)
Definition buffer_bounded (i : nat) (output : list R) : Prop :=
  (forall j, (j < i)%nat -> within 4 (nth j output 0)) /\
  (forall j, (i <= j)%nat -> within 1 (nth j output 0)).

(** The inline filter of the render loop run on its own: one
    [ladder_filter] step per entry of [steps], each entry giving the
    normalised cutoff and the input sample of that step. *)
Fixpoint filter_run (sr : R) (steps : list (R * R)) (e : moog_engine_t)
    : moog_engine_t :=
  match steps with
  | [] => e
  | (cutoff_normalized, sample) :: steps' =>
    filter_run sr steps' (ladder_filter sr cutoff_normalized sample e)
  end.

(** A fresh plugin instance whose resonance has been set to 1.0. *)
Definition resonant_instance : moog_instance_t :=
  v2_set_param v2_create_instance "resonance" 1.

(** A unit step of eleven samples through the filter while the cutoff
    drops from 1.0 (three samples) to 0.0 (eight samples). *)
Definition cutoff_drop : list (R * R) :=
  [(1, 1); (1, 1); (1, 1); (0, 1); (0, 1); (0, 1); (0, 1); (0, 1); (0, 1);
   (0, 1); (0, 1)].

(** ** Block rendering *)

(** The values that [n] iterations of the sample loop produce, in the order
    in which they are produced. *)
Fixpoint render_values (sr bend_ratio glide_rate lfo_inc : R)
    (e : moog_engine_t) (n : nat) : list R :=
  match n with
  | O => []
  | S n' =>
    let '(e', v) := render_sample sr bend_ratio glide_rate lfo_inc e in
    v :: render_values sr bend_ratio glide_rate lfo_inc e' n'
  end.

(** The engine after [n] iterations of the sample loop. *)
Fixpoint render_state (sr bend_ratio glide_rate lfo_inc : R)
    (e : moog_engine_t) (n : nat) : moog_engine_t :=
  match n with
  | O => e
  | S n' =>
    render_state sr bend_ratio glide_rate lfo_inc
      (fst (render_sample sr bend_ratio glide_rate lfo_inc e)) n'
  end.

(** The samples of a block of [frames] frames rendered from [e], with the
    per-block constants of [moog_engine_render], and the engine after [k]
    of them. *)
Definition rendered_samples (e : moog_engine_t) (frames : Z) : list R :=
  render_values (sample_rate e) (render_bend_ratio e)
    (render_glide_rate e frames) (render_lfo_inc e) e (Z.to_nat frames).

Definition rendered_engine (e : moog_engine_t) (frames : Z) (k : nat)
    : moog_engine_t :=
  render_state (sample_rate e) (render_bend_ratio e)
    (render_glide_rate e frames) (render_lfo_inc e) e k.

(** An engine whose key stack is full: sixteen different notes pressed on
    a freshly initialized engine. *)
Definition full_stack_engine : moog_engine_t :=
  run_events
    [NoteOn 0 1; NoteOn 1 1; NoteOn 2 1; NoteOn 3 1; NoteOn 4 1; NoteOn 5 1;
     NoteOn 6 1; NoteOn 7 1; NoteOn 8 1; NoteOn 9 1; NoteOn 10 1;
     NoteOn 11 1; NoteOn 12 1; NoteOn 13 1; NoteOn 14 1; NoteOn 15 1]
    (moog_engine_init engine_zero).

(** ** Further definitions for the properties of the remaining code *)

(** Fields that the sample loop of [moog_engine_render] never writes. *)
Definition same_voice (e e' : moog_engine_t) : Prop :=
  params e' = params e /\ gate_on e' = gate_on e /\
  key_stack e' = key_stack e /\ key_stack_count e' = key_stack_count e /\
  current_note e' = current_note e /\ glide_period e' = glide_period e /\
  velocity e' = velocity e /\ mod_wheel e' = mod_wheel e /\
  pitch_bend e' = pitch_bend e /\ last_val e' = last_val e.

(** The envelope as a note-off that empties the key stack leaves it when
    it was not off: release entered from the current level. *)
Definition env_released (env : moog_env_t) : moog_env_t :=
  {| env_state := ENV_RELEASE; env_level := env_level env;
     env_attack_level := env_attack_level env;
     env_release_level := env_level env; env_counter := 0 |}.

(** Stage changes that one call of [envelope_process] can make. *)
Definition env_next (s s' : moog_env_state_t) : Prop :=
  match s with
  | ENV_OFF => s' = ENV_OFF
  | ENV_ATTACK => s' = ENV_ATTACK \/ s' = ENV_DECAY
  | ENV_DECAY => s' = ENV_DECAY \/ s' = ENV_SUSTAIN
  | ENV_SUSTAIN => s' = ENV_SUSTAIN
  | ENV_RELEASE => s' = ENV_RELEASE \/ s' = ENV_OFF
  end.

(** [n] successive calls of [envelope_process] with fixed parameters. *)
Fixpoint env_run (n : nat) (attack decay sustain release sr : R)
    (env : moog_env_t) : moog_env_t :=
  match n with
  | O => env
  | S n' =>
    env_run n' attack decay sustain release sr
      (fst (envelope_process env attack decay sustain release sr))
  end.

(** The gate is 0 or 1, and it is on exactly while keys are held. *)
Definition gate_tracks_keys (e : moog_engine_t) : Prop :=
  key_stack_ok e /\ (gate_on e = 0%Z \/ gate_on e = 1%Z) /\
  (gate_on e = 0%Z <-> held_keys e = []).

(** Successive calls of [moog_engine_render], one per entry of [blocks]
    (its frame count), each into a buffer that starts as [output]. *)
Fixpoint render_blocks (blocks : list Z) (output : list R)
    (e : moog_engine_t) : moog_engine_t :=
  match blocks with
  | [] => e
  | frames :: blocks' =>
    render_blocks blocks' output (fst (moog_engine_render e output frames))
  end.

(** Number of samples that [render_blocks] renders. *)
Fixpoint total_frames (blocks : list Z) : nat :=
  match blocks with
  | [] => 0%nat
  | frames :: blocks' => (Z.to_nat frames + total_frames blocks')%nat
  end.

(** An engine that renders silence: amplitude envelope off and filter
    memory cleared (as after [moog_engine_init] or [moog_engine_reset]). *)
Definition silent (e : moog_engine_t) : Prop :=
  amp_env_state e = ENV_OFF /\ filter_prev e = repeat 0 6.

(** The single-sample ladder of the render loop, run over a list of input
    samples: the final filter memory and the filtered samples (tap 4 after
    each step). *)
Fixpoint ladder_run (f fb : R) (samples : list R) (fp : list R)
    : list R * list R :=
  match samples with
  | [] => ([], fp)
  | x :: samples' =>
    let fp' := ladder_taps f fb x fp in
    let '(ys, fp'') := ladder_run f fb samples' fp' in
    (nth 4 fp' 0 :: ys, fp'')
  end.

(** ** Plugin layer *)

(** A parameter array holds [P_COUNT] values, each within the range that
    [g_shadow_params] declares for it. *)
Definition params_in_range (ps : list R) : Prop :=
  length ps = P_COUNT /\
  Forall (fun d => min_val d <= nth (index d) ps 0 <= max_val d)
    g_shadow_params.

(** The engine already holds the values of the parameter array. *)
Definition synced (inst : moog_instance_t) : Prop :=
  inst_engine (apply_params_to_engine inst) = inst_engine inst.

(** A MIDI message whose data bytes are 7-bit. *)
Definition midi_data_ok (msg : list Z) : Prop :=
  Forall (fun b => (0 <= b < 128)%Z) (drop 1 msg).

(** Instances that the host can produce through the plugin API: creation,
    [set_param] (for all keys but ["state"]), MIDI input and audio
    rendering. *)
Inductive plugin_reachable : moog_instance_t -> Prop :=
  | pr_create : plugin_reachable v2_create_instance
  | pr_set_param inst k val :
      plugin_reachable inst -> plugin_reachable (v2_set_param inst k val)
  | pr_on_midi inst msg inst' :
      plugin_reachable inst -> midi_data_ok msg ->
      v2_on_midi (Some inst) msg = Some inst' -> plugin_reachable inst'
  | pr_render_block inst out frames inst' :
      plugin_reachable inst ->
      fst (fst (v2_render_block (Some inst) out frames)) = Some inst' ->
      plugin_reachable inst'.

(** What the API keeps true of an instance, apart from its parameter
    array: the state of its engine, the octave, the preset table and the
    output gain. *)
Definition host_state_ok (inst : moog_instance_t) : Prop :=
  reachable (inst_engine inst) /\
  (-3 <= inst_octave_transpose inst <= 3)%Z /\
  octave_transpose (inst_engine inst) = inst_octave_transpose inst /\
  (0 <= current_preset inst < FACTORY_PRESET_COUNT)%Z /\
  preset_count inst = FACTORY_PRESET_COUNT /\
  presets inst = presets v2_create_instance /\
  output_gain inst = 0.35 /\
  -1 <= pitch_bend (inst_engine inst) < 1 /\
  0 <= mod_wheel (inst_engine inst) <= 1 /\
  0 <= velocity (inst_engine inst) <= 1.

Definition instance_ok (inst : moog_instance_t) : Prop :=
  params_in_range (inst_params inst) /\ synced inst /\ host_state_ok inst.

(** The soft clipper of [v2_render_block]. *)
Definition soft_clip (sample : R) : R :=
  if Rltb 0.9 sample || Rltb sample (-0.9) then tanh sample else sample.

(** * Properties *)

(** ** Comparisons *)

Lemma Rltb_true x y : Rltb x y = true <-> x < y.
Proof. unfold Rltb. destruct (Rlt_dec x y); split; intros; try easy. Qed.

Lemma Rltb_false x y : Rltb x y = false <-> y <= x.
Proof.
  unfold Rltb. destruct (Rlt_dec x y); split; intros; try easy; lra.
Qed.

Lemma Rleb_true x y : Rleb x y = true <-> x <= y.
Proof. unfold Rleb. destruct (Rle_dec x y); split; intros; try easy. Qed.

Lemma Rleb_false x y : Rleb x y = false <-> y < x.
Proof.
  unfold Rleb. destruct (Rle_dec x y); split; intros; try easy; lra.
Qed.

(** ** The key stack *)


Lemma find_key_None (ks : list Z) note n i :
  find_key ks note i n = None ->
  forall j, (i <= j < i + n)%nat -> nth j ks 0%Z <> note.
Proof.
  revert i. induction n as [|n IH]; intros i Hf j Hj; [lia|].
  simpl in Hf. destruct (Z.eqb_spec (nth i ks 0%Z) note) as [|Hne]; [easy|].
  destruct (Nat.eq_dec j i) as [->|]; [exact Hne|].
  apply (IH (S i)); [exact Hf | lia].
Qed.

Lemma find_key_Some (ks : list Z) note n i k :
  find_key ks note i n = Some k ->
  (i <= k < i + n)%nat /\ nth k ks 0%Z = note /\
  forall j, (i <= j < k)%nat -> nth j ks 0%Z <> note.
Proof.
  revert i. induction n as [|n IH]; intros i Hf; [easy|].
  simpl in Hf. destruct (Z.eqb_spec (nth i ks 0%Z) note) as [Heq|Hne].
  - inversion Hf; subst k. repeat split; [lia | lia | exact Heq | intros; lia].
  - destruct (IH _ Hf) as (Hk & Hn & Hlt). repeat split; [lia | lia | exact Hn |].
    intros j Hj. destruct (Nat.eq_dec j i) as [->|]; [exact Hne|].
    apply Hlt. lia.
Qed.

Lemma shift_down_spec (ks : list Z) j n :
  (j + n < length ks)%nat ->
  shift_down ks j n = take j ks ++ take n (drop (S j) ks) ++ drop (j + n) ks.
Proof.
  revert ks j. induction n as [|n IH]; intros ks j Hlen.
  - simpl. rewrite Nat.add_0_r. now rewrite take_drop.
  - simpl shift_down. rewrite IH by (rewrite length_insert; lia).
    rewrite drop_insert_lt by lia. rewrite drop_insert_lt by lia.
    rewrite take_insert_lt by lia.
    destruct (lookup_lt_is_Some_2 ks (S j)) as [x Hx]; [lia|].
    rewrite (nth_lookup_Some _ _ _ _ Hx).
    rewrite (drop_S _ _ _ Hx). simpl take.
    destruct (lookup_lt_is_Some_2 ks j) as [y Hy]; [lia|].
    rewrite (take_S_r _ _ _ Hy).
    rewrite insert_app_r_alt by (rewrite length_take; lia).
    rewrite length_take, Nat.min_l by lia. rewrite Nat.sub_diag. simpl.
    rewrite <- app_assoc. simpl.
    now rewrite Nat.add_succ_r.
Qed.

Lemma remove_first_not_in note l : note ∉ l -> remove_first note l = l.
Proof.
  induction l as [|x l IH]; intros Hn; [reflexivity|].
  simpl. apply not_elem_of_cons in Hn as [Hx Hl].
  destruct (Z.eqb_spec x note); [congruence|]. now rewrite IH.
Qed.

Lemma remove_first_app note l1 l2 :
  note ∉ l1 -> remove_first note (l1 ++ note :: l2) = l1 ++ l2.
Proof.
  induction l1 as [|x l1 IH]; intros Hn; simpl.
  - now rewrite Z.eqb_refl.
  - apply not_elem_of_cons in Hn as [Hx Hl].
    destruct (Z.eqb_spec x note); [congruence|]. now rewrite IH.
Qed.

Lemma remove_first_split note l :
  note ∈ l ->
  exists l1 l2, l = l1 ++ note :: l2 /\ (note ∉ l1) /\
                remove_first note l = l1 ++ l2.
Proof.
  induction l as [|x l IH]; intros Hin; [now apply elem_of_nil in Hin|].
  simpl. destruct (Z.eqb_spec x note) as [->|Hne].
  - exists [], l. repeat split. apply not_elem_of_nil.
  - apply elem_of_cons in Hin as [->|Hin]; [congruence|].
    destruct (IH Hin) as (l1 & l2 & -> & Hn1 & Hr).
    exists (x :: l1), l2. repeat split.
    + apply not_elem_of_cons. split; [congruence | exact Hn1].
    + simpl. now rewrite Hr.
Qed.

(** Unfolds a handler and splits on every test it makes. *)
Ltac split_tests :=
  repeat (cbn;
    match goal with
    | |- context [if ?b then _ else _] => destruct b
    | |- context [match env_state ?x with ENV_OFF => _ | _ => _ end] =>
      destruct (env_state x)
    | |- context [match ?x with Some _ => _ | None => _ end] => destruct x
    end); cbn.

Lemma note_on_key_stack e note vel :
  key_stack (moog_engine_note_on e note vel) =
  if (key_stack_count e <? MOOG_MAX_KEYS)%Z
  then <[Z.to_nat (key_stack_count e) := note]> (key_stack e)
  else key_stack e.
Proof. unfold moog_engine_note_on. split_tests; reflexivity. Qed.

Lemma note_on_key_stack_count e note vel :
  key_stack_count (moog_engine_note_on e note vel) =
  if (key_stack_count e <? MOOG_MAX_KEYS)%Z
  then (key_stack_count e + 1)%Z else key_stack_count e.
Proof. unfold moog_engine_note_on. split_tests; reflexivity. Qed.

Lemma note_off_key_stack e note :
  key_stack (moog_engine_note_off e note) =
  match find_key (key_stack e) note 0 (Z.to_nat (key_stack_count e)) with
  | Some i =>
    shift_down (key_stack e) i (Z.to_nat (key_stack_count e - 1) - i)
  | None => key_stack e
  end.
Proof. unfold moog_engine_note_off. split_tests; reflexivity. Qed.

Lemma note_off_key_stack_count e note :
  key_stack_count (moog_engine_note_off e note) =
  match find_key (key_stack e) note 0 (Z.to_nat (key_stack_count e)) with
  | Some i => (key_stack_count e - 1)%Z
  | None => key_stack_count e
  end.
Proof. unfold moog_engine_note_off. split_tests; reflexivity. Qed.

Lemma held_keys_note_on e note vel :
  key_stack_ok e ->
  held_keys (moog_engine_note_on e note vel) =
  if (key_stack_count e <? 16)%Z then held_keys e ++ [note] else held_keys e.
Proof.
  intros [Hlen Hc]. unfold held_keys.
  rewrite note_on_key_stack, note_on_key_stack_count. unfold MOOG_MAX_KEYS.
  destruct (Z.ltb_spec (key_stack_count e) 16); [|reflexivity].
  replace (Z.to_nat (key_stack_count e + 1)) with
    (S (Z.to_nat (key_stack_count e))) by lia.
  erewrite take_S_r
    by (apply list_lookup_insert_eq; lia).
  now rewrite take_insert_ge by lia.
Qed.

Lemma held_keys_note_off e note :
  key_stack_ok e ->
  held_keys (moog_engine_note_off e note) = remove_first note (held_keys e).
Proof.
  intros [Hlen Hc]. unfold held_keys.
  rewrite note_off_key_stack, note_off_key_stack_count.
  destruct (find_key _ _ _ _) as [k|] eqn:Hf.
  - apply find_key_Some in Hf as (Hk & Hn & Hlt).
    set (c := Z.to_nat (key_stack_count e)) in *.
    replace (Z.to_nat (key_stack_count e - 1)) with (c - 1)%nat by lia.
    assert (Hc' : (c <= 16)%nat) by lia.
    rewrite shift_down_spec by lia.
    assert (Hsplit : take c (key_stack e) =
                     take k (key_stack e) ++ note ::
                     take (c - 1 - k) (drop (S k) (key_stack e))).
    { destruct (lookup_lt_is_Some_2 (key_stack e) k) as [x Hx]; [lia|].
      rewrite (nth_lookup_Some _ _ _ _ Hx) in Hn. subst x.
      replace c with (k + S (c - 1 - k))%nat at 1 by lia.
      rewrite <- take_take_drop. f_equal.
      rewrite (drop_S _ _ _ Hx). reflexivity. }
    rewrite Hsplit. rewrite remove_first_app.
    + rewrite app_assoc. rewrite take_app_length'; [reflexivity|].
      rewrite length_app, !length_take, length_drop. lia.
    + intros Hin. apply list_elem_of_lookup in Hin as [j Hj].
      pose proof (lookup_lt_Some _ _ _ Hj) as Hjl.
      rewrite length_take in Hjl.
      rewrite lookup_take_lt in Hj by lia.
      apply (Hlt j); [lia|]. now apply nth_lookup_Some.
  - rewrite remove_first_not_in; [reflexivity|].
    intros Hin. apply list_elem_of_lookup in Hin as [j Hj].
    pose proof (lookup_lt_Some _ _ _ Hj) as Hjl. rewrite length_take in Hjl.
    rewrite lookup_take_lt in Hj by lia.
    apply (find_key_None _ _ _ _ Hf j); [lia|]. now apply nth_lookup_Some.
Qed.

Lemma key_stack_ok_note_on e note vel :
  key_stack_ok e -> key_stack_ok (moog_engine_note_on e note vel).
Proof.
  intros [Hlen Hc]. unfold key_stack_ok.
  rewrite note_on_key_stack, note_on_key_stack_count. unfold MOOG_MAX_KEYS.
  destruct (Z.ltb_spec (key_stack_count e) 16);
    rewrite ?length_insert; split; (exact Hlen || lia).
Qed.

Lemma key_stack_ok_note_off e note :
  key_stack_ok e -> key_stack_ok (moog_engine_note_off e note).
Proof.
  intros [Hlen Hc]. unfold key_stack_ok.
  rewrite note_off_key_stack, note_off_key_stack_count.
  destruct (find_key _ _ _ _) as [k|] eqn:Hf; [|split; (exact Hlen || lia)].
  apply find_key_Some in Hf as (Hk & _).
  rewrite shift_down_spec by lia.
  rewrite !length_app, !length_take, !length_drop. lia.
Qed.

Lemma key_stack_ok_init e0 : key_stack_ok (moog_engine_init e0).
Proof. split; cbn; [reflexivity | lia]. Qed.

Lemma key_stack_ok_reset e :
  key_stack_ok e -> key_stack_ok (moog_engine_reset e).
Proof. intros [Hlen _]. split; cbn; [exact Hlen | lia]. Qed.

Lemma key_stack_ok_all_notes_off e :
  key_stack_ok e -> key_stack_ok (moog_engine_all_notes_off e).
Proof. intros [Hlen _]. split; cbn; [exact Hlen | lia]. Qed.

Lemma key_stack_ok_run evs e :
  key_stack_ok e -> key_stack_ok (run_events evs e).
Proof.
  revert e. induction evs as [|ev evs IH]; intros e He; [exact He|].
  apply IH. destruct ev; cbn;
    auto using key_stack_ok_note_on, key_stack_ok_note_off,
      key_stack_ok_reset, key_stack_ok_all_notes_off.
Qed.


Lemma note_on_current_note e note vel :
  current_note (moog_engine_note_on e note vel) = note.
Proof. unfold moog_engine_note_on. split_tests; reflexivity. Qed.

Lemma note_off_current_note e note :
  current_note (moog_engine_note_off e note) =
  let e' := moog_engine_note_off e note in
  if (key_stack_count e' >? 0)%Z
  then nth (Z.to_nat (key_stack_count e' - 1)) (key_stack e') 0%Z
  else current_note e.
Proof.
  cbv zeta. rewrite note_off_key_stack, note_off_key_stack_count.
  unfold moog_engine_note_off.
  destruct (find_key _ _ _ _); cbn;
    match goal with
    | |- context [(?c >? 0)%Z] => destruct (c >? 0)%Z
    end; split_tests; reflexivity.
Qed.

(** The sounding note after a release that leaves keys held is the last
    (most recently pressed) held key. *)
Lemma note_off_current_note_last e note :
  key_stack_ok e ->
  current_note (moog_engine_note_off e note) =
  default (current_note e) (last (held_keys (moog_engine_note_off e note))).
Proof.
  intros Hok. pose proof (key_stack_ok_note_off e note Hok) as [Hlen Hc].
  rewrite note_off_current_note. cbv zeta. unfold held_keys.
  set (e' := moog_engine_note_off e note) in *.
  destruct (Z.gtb_spec (key_stack_count e') 0) as [Hpos|Hz].
  - destruct (lookup_lt_is_Some_2 (key_stack e')
                (Z.to_nat (key_stack_count e' - 1))) as [x Hx]; [lia|].
    rewrite (nth_lookup_Some _ _ _ _ Hx).
    replace (Z.to_nat (key_stack_count e')) with
      (S (Z.to_nat (key_stack_count e' - 1))) by lia.
    rewrite (take_S_r _ _ _ Hx), last_snoc. reflexivity.
  - replace (key_stack_count e') with 0%Z by lia. reflexivity.
Qed.

Lemma NoDup_remove_first note l :
  NoDup l -> NoDup (remove_first note l) /\ (note ∉ remove_first note l).
Proof.
  induction l as [|x l IH]; intros Hnd; simpl.
  - split; [constructor | apply not_elem_of_nil].
  - apply NoDup_cons in Hnd as [Hx Hl].
    destruct (Z.eqb_spec x note) as [->|Hne]; [now split|].
    destruct (IH Hl) as [IH1 IH2]. split.
    + apply NoDup_cons. split; [|exact IH1].
      intros Hin. apply Hx.
      destruct (decide (note ∈ l)) as [Hm|Hm].
      * destruct (remove_first_split _ _ Hm) as (l1 & l2 & -> & _ & Hr).
        rewrite Hr in Hin. apply elem_of_app in Hin.
        apply elem_of_app. destruct Hin; [now left | right; now right].
      * now rewrite remove_first_not_in in Hin.
    + apply not_elem_of_cons. split; [congruence | exact IH2].
Qed.

Lemma held_keys_reset e : held_keys (moog_engine_reset e) = [].
Proof. reflexivity. Qed.

Lemma held_keys_all_notes_off e :
  held_keys (moog_engine_all_notes_off e) = [].
Proof. reflexivity. Qed.

Lemma held_keys_init e0 : held_keys (moog_engine_init e0) = [].
Proof. reflexivity. Qed.

Lemma key_stack_ok_apply e ev :
  key_stack_ok e -> key_stack_ok (apply_event e ev).
Proof.
  destruct ev; cbn;
    auto using key_stack_ok_note_on, key_stack_ok_note_off,
      key_stack_ok_reset, key_stack_ok_all_notes_off.
Qed.

Lemma NoDup_run_fresh evs e :
  key_stack_ok e -> NoDup (held_keys e) -> presses_fresh evs e ->
  NoDup (held_keys (run_events evs e)).
Proof.
  revert e. induction evs as [|ev evs IH]; intros e Hok Hnd Hfr; [exact Hnd|].
  destruct Hfr as [Hev Hfr]. cbn. apply IH; [now apply key_stack_ok_apply| |exact Hfr].
  destruct ev as [note vel|note| |]; cbn.
  - rewrite held_keys_note_on by exact Hok.
    destruct (key_stack_count e <? 16)%Z; [|exact Hnd].
    apply NoDup_app. repeat split; [exact Hnd | | apply NoDup_singleton].
    intros x Hx Hx'. apply list_elem_of_singleton in Hx'. now subst x.
  - rewrite held_keys_note_off by exact Hok. now apply NoDup_remove_first.
  - rewrite held_keys_reset. constructor.
  - rewrite held_keys_all_notes_off. constructor.
Qed.

(** C1, as stated, fails: two presses of note 60 without a release in
    between leave the held keys [60; 60]. *)
Lemma C1_counterexample :
  ~ NoDup (held_keys
             (run_events [NoteOn 60 1; NoteOn 60 1]
                (moog_engine_init engine_zero))).
Proof.
  cbn [run_events fold_left apply_event].
  rewrite !held_keys_note_on
    by auto using key_stack_ok_note_on, key_stack_ok_init.
  rewrite note_on_key_stack_count. cbn.
  intros Hnd. apply NoDup_cons in Hnd as [Hin _]. apply Hin. now left.
Qed.

(** C1 (amended): after any sequence of noteOn / noteOff / reset /
    allNotesOff calls on an initialized engine the key stack is well formed
    and holds at most 16 entries; noteOff removes the earliest entry of the
    released note, if there is one, and keeps the remaining entries in their
    order; and the stack holds every note at most once as long as no noteOn
    presses a note that is already held. *)
Theorem C1_key_stack (evs : list key_event) (note : Z) :
  let e := run_events evs (moog_engine_init engine_zero) in
  key_stack_ok e /\
  (length (held_keys e) <= 16)%nat /\
  (((note ∉ held_keys e) /\
    held_keys (moog_engine_note_off e note) = held_keys e) \/
   (exists l1 l2,
      held_keys e = l1 ++ note :: l2 /\ (note ∉ l1) /\
      held_keys (moog_engine_note_off e note) = l1 ++ l2)) /\
  (presses_fresh evs (moog_engine_init engine_zero) ->
   NoDup (held_keys e) /\ (note ∉ held_keys (moog_engine_note_off e note))).
Proof.
  intros e.
  assert (Hok : key_stack_ok e)
    by (apply key_stack_ok_run, key_stack_ok_init).
  split; [exact Hok|]. split.
  { unfold held_keys. rewrite length_take. destruct Hok. lia. }
  split.
  - rewrite held_keys_note_off by exact Hok.
    destruct (decide (note ∈ held_keys e)) as [Hin|Hout].
    + right. destruct (remove_first_split _ _ Hin) as (l1 & l2 & H1 & H2 & H3).
      exists l1, l2. now rewrite H3.
    + left. split; [exact Hout | now apply remove_first_not_in].
  - intros Hfr.
    assert (Hnd : NoDup (held_keys e)).
    { apply NoDup_run_fresh; [apply key_stack_ok_init | | exact Hfr].
      rewrite held_keys_init. constructor. }
    split; [exact Hnd|].
    rewrite held_keys_note_off by exact Hok. now apply NoDup_remove_first.
Qed.

(** The theorem at the presses 60, 64, 67 and the release of 64. *)
Lemma C1_key_stack_witness :
  NoDup (held_keys
           (run_events [NoteOn 60 1; NoteOn 64 1; NoteOn 67 1]
              (moog_engine_init engine_zero))) /\
  (64%Z ∉ held_keys
     (moog_engine_note_off
        (run_events [NoteOn 60 1; NoteOn 64 1; NoteOn 67 1]
           (moog_engine_init engine_zero)) 64)).
Proof.
  apply (C1_key_stack [NoteOn 60 1; NoteOn 64 1; NoteOn 67 1] 64).
  cbn [presses_fresh apply_event].
  rewrite !held_keys_note_on
    by auto using key_stack_ok_note_on, key_stack_ok_init.
  rewrite !note_on_key_stack_count. cbn.
  repeat split; intros Hin;
    repeat (apply elem_of_cons in Hin as [Hin|Hin]; [discriminate|]);
    now apply elem_of_nil in Hin.
Defined.

(** C5: on an engine with an empty key stack (as after init or reset),
    pressing 60, 64, 67 and releasing 64 leaves the held keys [60; 67] and
    makes 67 the current note. *)
Theorem C5_release_middle_key (e : moog_engine_t) (v1 v2 v3 : R) :
  key_stack_ok e -> key_stack_count e = 0%Z ->
  let e' :=
    moog_engine_note_off
      (moog_engine_note_on
         (moog_engine_note_on (moog_engine_note_on e 60 v1) 64 v2) 67 v3)
      64 in
  held_keys e' = [60; 67]%Z /\ current_note e' = 67%Z.
Proof.
  intros Hok Hc e'.
  assert (Hok3 : key_stack_ok
            (moog_engine_note_on
               (moog_engine_note_on (moog_engine_note_on e 60 v1) 64 v2)
               67 v3)) by auto using key_stack_ok_note_on.
  assert (Hheld : held_keys e' = [60; 67]%Z).
  { unfold e'. rewrite held_keys_note_off by exact Hok3.
    rewrite !held_keys_note_on by auto using key_stack_ok_note_on.
    rewrite !note_on_key_stack_count, Hc. cbn.
    unfold held_keys. rewrite Hc. reflexivity. }
  split; [exact Hheld|].
  unfold e' in *. rewrite note_off_current_note_last by exact Hok3.
  rewrite Hheld. reflexivity.
Qed.

(** The scenario on a freshly initialized engine. *)
Lemma C5_release_middle_key_witness :
  held_keys
    (moog_engine_note_off
       (moog_engine_note_on
          (moog_engine_note_on
             (moog_engine_note_on (moog_engine_init engine_zero) 60 1)
             64 1) 67 1) 64) = [60; 67]%Z /\
  current_note
    (moog_engine_note_off
       (moog_engine_note_on
          (moog_engine_note_on
             (moog_engine_note_on (moog_engine_init engine_zero) 60 1)
             64 1) 67 1) 64) = 67%Z.
Proof.
  apply (C5_release_middle_key (moog_engine_init engine_zero) 1 1 1).
  - apply key_stack_ok_init.
  - reflexivity.
Defined.

(** ** Effect of a note-on *)

Ltac note_on_cases e :=
  unfold moog_engine_note_on, note_period;
  destruct (key_stack_count e <? MOOG_MAX_KEYS)%Z eqn:?; cbn;
  destruct (gate_on e =? 0)%Z eqn:Hgate; cbn; rewrite ?Hgate; cbn;
  destruct (Rltb 0.001 (glide e)) eqn:?; cbn; rewrite ?Hgate; cbn;
  try (apply Z.eqb_neq in Hgate); try (apply Z.eqb_eq in Hgate).

Lemma note_on_glide_period e note vel :
  glide_period (moog_engine_note_on e note vel) = note_period e note.
Proof. note_on_cases e; reflexivity. Qed.

Lemma note_on_period e note vel :
  period (moog_engine_note_on e note vel) =
  if negb (gate_on e =? 0)%Z && Rltb 0.001 (glide e) then period e
  else note_period e note.
Proof. note_on_cases e; reflexivity. Qed.

Lemma note_on_velocity e note vel :
  velocity (moog_engine_note_on e note vel) = vel.
Proof. note_on_cases e; reflexivity. Qed.

Lemma note_on_gate_off e note vel :
  gate_on e = 0%Z ->
  gate_on (moog_engine_note_on e note vel) = 1%Z /\
  amp_env (moog_engine_note_on e note vel) = env_triggered (amp_env e) /\
  filt_env (moog_engine_note_on e note vel) = env_triggered (filt_env e).
Proof. intros Hg. note_on_cases e; try contradiction; now repeat split. Qed.

Lemma note_on_gate_on e note vel :
  gate_on e <> 0%Z ->
  gate_on (moog_engine_note_on e note vel) = gate_on e /\
  amp_env (moog_engine_note_on e note vel) = amp_env e /\
  filt_env (moog_engine_note_on e note vel) = filt_env e.
Proof. intros Hg. note_on_cases e; try contradiction; now repeat split. Qed.

Lemma note_on_frame e note vel :
  let e' := moog_engine_note_on e note vel in
  params e' = params e /\ mod_wheel e' = mod_wheel e /\
  pitch_bend e' = pitch_bend e /\ counter e' = counter e /\
  last_val e' = last_val e /\ filter_prev e' = filter_prev e /\
  noise_seed e' = noise_seed e /\ lfo_phase e' = lfo_phase e.
Proof. note_on_cases e; now repeat split. Qed.

(** C4, as stated, fails: a legato note-on also pushes the note on the key
    stack.  With 60 held (gate on), pressing 64 changes the key-stack count
    from 1 to 2 and the held keys from [60] to [60; 64]. *)
Lemma C4_counterexample :
  gate_on (moog_engine_note_on (moog_engine_init engine_zero) 60 1) <> 0%Z /\
  key_stack_count
    (moog_engine_note_on
       (moog_engine_note_on (moog_engine_init engine_zero) 60 1) 64 1) <>
  key_stack_count (moog_engine_note_on (moog_engine_init engine_zero) 60 1) /\
  held_keys
    (moog_engine_note_on
       (moog_engine_note_on (moog_engine_init engine_zero) 60 1) 64 1) <>
  held_keys (moog_engine_note_on (moog_engine_init engine_zero) 60 1).
Proof.
  split; [|split].
  - destruct (note_on_gate_off (moog_engine_init engine_zero) 60 1 eq_refl)
      as [-> _]. discriminate.
  - rewrite !note_on_key_stack_count. cbn. discriminate.
  - rewrite !held_keys_note_on
      by auto using key_stack_ok_note_on, key_stack_ok_init.
    rewrite !note_on_key_stack_count. cbn. discriminate.
Qed.

(** C4 (amended): when the gate is already on, a note-on leaves both
    envelopes (state, level, anchor levels and counter), the gate, the
    parameters and the oscillator, filter, noise and LFO state unchanged.
    It sets the current note and the velocity, sets the glide target to the
    note's period, sets the sounding period to it as well unless glide
    exceeds 0.001, and pushes the note on the key stack when the stack is
    not full. *)
Theorem C4_legato_note_on (e : moog_engine_t) (note : Z) (vel : R) :
  gate_on e <> 0%Z ->
  let e' := moog_engine_note_on e note vel in
  amp_env e' = amp_env e /\ filt_env e' = filt_env e /\
  gate_on e' = gate_on e /\
  params e' = params e /\ mod_wheel e' = mod_wheel e /\
  pitch_bend e' = pitch_bend e /\ counter e' = counter e /\
  last_val e' = last_val e /\ filter_prev e' = filter_prev e /\
  noise_seed e' = noise_seed e /\ lfo_phase e' = lfo_phase e /\
  current_note e' = note /\ velocity e' = vel /\
  glide_period e' = note_period e note /\
  period e' =
    (if Rltb 0.001 (glide e) then period e else note_period e note) /\
  key_stack e' =
    (if (key_stack_count e <? 16)%Z
     then <[Z.to_nat (key_stack_count e) := note]> (key_stack e)
     else key_stack e) /\
  key_stack_count e' =
    (if (key_stack_count e <? 16)%Z then (key_stack_count e + 1)%Z
     else key_stack_count e).
Proof.
  intros Hg e'. unfold e'.
  destruct (note_on_gate_on e note vel Hg) as (Hgate & Hamp & Hfilt).
  pose proof (note_on_frame e note vel) as Hfr. cbv zeta in Hfr.
  rewrite note_on_current_note, note_on_velocity, note_on_glide_period,
    note_on_period, note_on_key_stack, note_on_key_stack_count.
  destruct (Z.eqb_spec (gate_on e) 0) as [|_]; [contradiction|].
  cbn [negb andb]. unfold MOOG_MAX_KEYS. tauto.
Qed.

(** The theorem at a second press while note 60 is held. *)
Lemma C4_legato_note_on_witness :
  amp_env
    (moog_engine_note_on
       (moog_engine_note_on (moog_engine_init engine_zero) 60 1) 64 1) =
  amp_env (moog_engine_note_on (moog_engine_init engine_zero) 60 1).
Proof.
  apply (C4_legato_note_on
           (moog_engine_note_on (moog_engine_init engine_zero) 60 1) 64 1).
  destruct (note_on_gate_off (moog_engine_init engine_zero) 60 1 eq_refl)
    as [-> _]. discriminate.
Defined.

(** C10: a note-on with a full key stack (count = 16) leaves the key stack
    and its count unchanged, and still sets the current note, the velocity
    and the glide target (and the sounding period, unless the gate is on and
    glide exceeds 0.001); both envelopes are triggered if the gate was off.
    The press leaves no entry behind: a later note-off of any note finds
    the key stack exactly as it would have without the press, and if the
    note was not held before, its note-off removes nothing. *)
Theorem C10_note_on_full_stack (e : moog_engine_t) (note : Z) (vel : R) :
  key_stack_ok e -> key_stack_count e = 16%Z ->
  let e' := moog_engine_note_on e note vel in
  key_stack e' = key_stack e /\ key_stack_count e' = 16%Z /\
  current_note e' = note /\ velocity e' = vel /\
  glide_period e' = note_period e note /\
  period e' =
    (if negb (gate_on e =? 0)%Z && Rltb 0.001 (glide e) then period e
     else note_period e note) /\
  (gate_on e = 0%Z ->
   gate_on e' = 1%Z /\ amp_env e' = env_triggered (amp_env e) /\
   filt_env e' = env_triggered (filt_env e)) /\
  (forall m, held_keys (moog_engine_note_off e' m) =
             held_keys (moog_engine_note_off e m)) /\
  ((note ∉ held_keys e) ->
   held_keys (moog_engine_note_off e' note) = held_keys e').
Proof.
  intros Hok Hc e'. unfold e'.
  assert (Hks : key_stack (moog_engine_note_on e note vel) = key_stack e)
    by (rewrite note_on_key_stack, Hc; reflexivity).
  assert (Hkc : key_stack_count (moog_engine_note_on e note vel) = 16%Z)
    by (rewrite note_on_key_stack_count, Hc; reflexivity).
  assert (Hheld : held_keys (moog_engine_note_on e note vel) = held_keys e)
    by (unfold held_keys; now rewrite Hks, Hkc, Hc).
  assert (Hok' : key_stack_ok (moog_engine_note_on e note vel))
    by now apply key_stack_ok_note_on.
  repeat split.
  - exact Hks.
  - exact Hkc.
  - apply note_on_current_note.
  - apply note_on_velocity.
  - apply note_on_glide_period.
  - apply note_on_period.
  - now apply note_on_gate_off.
  - now apply note_on_gate_off.
  - now apply note_on_gate_off.
  - intros m. now rewrite !held_keys_note_off, Hheld.
  - intros Hout. rewrite held_keys_note_off, Hheld by exact Hok'.
    now apply remove_first_not_in.
Qed.

Lemma note_on_count_below e note vel c :
  key_stack_count e = c -> (c <? 16)%Z = true ->
  key_stack_count (moog_engine_note_on e note vel) = (c + 1)%Z.
Proof.
  intros Hc Hlt. rewrite note_on_key_stack_count, Hc. unfold MOOG_MAX_KEYS.
  now rewrite Hlt.
Qed.

Lemma full_stack_engine_count : key_stack_count full_stack_engine = 16%Z.
Proof.
  unfold full_stack_engine. cbn [run_events fold_left apply_event].
  repeat match goal with
  | |- key_stack_count (moog_engine_note_on ?e ?n ?v) = ?c =>
    let c' := eval compute in (c - 1)%Z in
    apply (note_on_count_below e n v c'); [|reflexivity]
  end.
  reflexivity.
Qed.

(** The theorem at a seventeenth press, of note 99. *)
Lemma C10_note_on_full_stack_witness :
  key_stack (moog_engine_note_on full_stack_engine 99 1) =
  key_stack full_stack_engine /\
  key_stack_count (moog_engine_note_on full_stack_engine 99 1) = 16%Z /\
  current_note (moog_engine_note_on full_stack_engine 99 1) = 99%Z.
Proof.
  pose proof (C10_note_on_full_stack full_stack_engine 99 1
                (key_stack_ok_run _ _ (key_stack_ok_init engine_zero))
                full_stack_engine_count) as H.
  cbv zeta in H. destruct H as (H1 & H2 & H3 & _). now repeat split.
Defined.

(** ** Pitch: frequencies and periods *)

Lemma note_to_hz_pos n : 0 < note_to_hz n.
Proof.
  unfold note_to_hz, Rpower. pose proof (exp_pos (IZR n * ln 1.0594630943593)).
  nra.
Qed.

Lemma note_to_hz_lt n m : (n < m)%Z -> note_to_hz n < note_to_hz m.
Proof.
  intros Hlt. unfold note_to_hz.
  apply Rmult_lt_compat_l; [lra|].
  apply Rpower_lt; [lra | now apply IZR_lt].
Qed.

Lemma note_to_hz_0 : note_to_hz 0 = 8.1758.
Proof. unfold note_to_hz. rewrite Rpower_O by lra. lra. Qed.

Lemma note_to_hz_ge n : (0 <= n)%Z -> 8.1758 <= note_to_hz n.
Proof.
  intros Hn. destruct (Z.eq_dec n 0%Z) as [->|Hne].
  - rewrite note_to_hz_0. lra.
  - rewrite <- note_to_hz_0. left. apply note_to_hz_lt. lia.
Qed.

Lemma hz_to_period_note n sr :
  (0 <= n)%Z -> hz_to_period (note_to_hz n) sr = sr / note_to_hz n.
Proof.
  intros Hn. unfold hz_to_period.
  pose proof (note_to_hz_ge n Hn).
  destruct (Rltb (note_to_hz n) 1) eqn:Hb; [|reflexivity].
  apply Rltb_true in Hb. lra.
Qed.

Lemma hz_to_period_note_lt n m sr :
  (0 <= n < m)%Z -> 0 < sr ->
  hz_to_period (note_to_hz m) sr < hz_to_period (note_to_hz n) sr.
Proof.
  intros Hnm Hsr. rewrite !hz_to_period_note by lia.
  pose proof (note_to_hz_pos n). pose proof (note_to_hz_lt n m ltac:(lia)).
  apply Rmult_lt_compat_l; [exact Hsr|].
  apply Rinv_lt_contravar; [nra | lra].
Qed.

(** ** Effect of a note-off on the pitch *)

Lemma note_off_params e note :
  params (moog_engine_note_off e note) = params e.
Proof. unfold moog_engine_note_off. split_tests; reflexivity. Qed.

Ltac note_off_cases e note :=
  cbv zeta;
  rewrite ?note_off_current_note, ?note_off_key_stack,
    ?note_off_key_stack_count;
  cbv zeta;
  rewrite ?note_off_key_stack, ?note_off_key_stack_count;
  unfold moog_engine_note_off, note_period;
  destruct (find_key (key_stack e) note 0 (Z.to_nat (key_stack_count e)));
  cbn;
  match goal with
  | |- context [(?c >? 0)%Z] => destruct (c >? 0)%Z
  end; split_tests.

Lemma note_off_glide_period e note :
  let e' := moog_engine_note_off e note in
  glide_period e' =
  if (key_stack_count e' >? 0)%Z then note_period e (current_note e')
  else glide_period e.
Proof. note_off_cases e note; reflexivity. Qed.

Lemma note_off_period e note :
  let e' := moog_engine_note_off e note in
  period e' =
  if (key_stack_count e' >? 0)%Z then
    if Rltb 0.001 (glide e) then period e
    else note_period e (current_note e')
  else period e.
Proof. note_off_cases e note; reflexivity. Qed.

Lemma glide_instance_facts :
  let e := inst_engine glide_instance in
  glide e = 0.5 /\ gate_on e = 0%Z /\ sample_rate e = 44100 /\
  octave_transpose e = 0%Z /\
  period e = hz_to_period (note_to_hz 60) 44100.
Proof.
  unfold glide_instance, v2_set_param. cbn -[Rltb hz_to_period note_to_hz].
  destruct (Rltb 0.5 0) eqn:H0; [apply Rltb_true in H0; lra|].
  destruct (Rltb 1 0.5) eqn:H1; [apply Rltb_true in H1; lra|].
  cbn -[hz_to_period note_to_hz]. unfold MOOG_SAMPLE_RATE. now repeat split.
Qed.

(** C7, as stated, fails for a note-on while the gate is off: on a fresh
    instance with glide set to 0.5 (above the 0.001 threshold), pressing
    note 72 moves the sounding period at once, from that of note 60 to that
    of note 72. *)
Lemma C7_counterexample :
  0.001 < glide (inst_engine glide_instance) /\
  period (moog_engine_note_on (inst_engine glide_instance) 72 1) <>
  period (inst_engine glide_instance).
Proof.
  destruct glide_instance_facts as (Hg & Hgate & Hsr & Hot & Hp).
  split; [rewrite Hg; lra|].
  rewrite note_on_period, Hgate. cbn [Z.eqb negb andb].
  unfold note_period. rewrite Hot, Hsr, Hp.
  change (if (72 + 0 * 12 <? 0)%Z then 0%Z else (72 + 0 * 12)%Z) with 72%Z.
  change (if (72 >? 127)%Z then 127%Z else 72%Z) with 72%Z.
  pose proof (hz_to_period_note_lt 60 72 44100 ltac:(lia) ltac:(lra)). lra.
Qed.

(** C7 (amended): a note event always sets the glide target to the period
    of the new note.  When glide exceeds 0.001 the sounding period is left
    unchanged by a note-off that re-targets to the new top of the stack,
    and by a note-on if the gate is already on; a note-on with the gate off
    sets the sounding period at once, whatever the glide.  When glide is at
    or below 0.001 the sounding period is set to the new target at once.  A
    note-off that empties the stack changes neither period. *)
Theorem C7_glide_retarget (e : moog_engine_t) (note : Z) (vel : R) :
  let on := moog_engine_note_on e note vel in
  let off := moog_engine_note_off e note in
  glide_period on = note_period e note /\
  (gate_on e <> 0%Z -> 0.001 < glide e -> period on = period e) /\
  (gate_on e = 0%Z \/ glide e <= 0.001 -> period on = note_period e note) /\
  ((key_stack_count off > 0)%Z ->
   glide_period off = note_period e (current_note off) /\
   (0.001 < glide e -> period off = period e) /\
   (glide e <= 0.001 -> period off = note_period e (current_note off))) /\
  ((key_stack_count off <= 0)%Z ->
   glide_period off = glide_period e /\ period off = period e).
Proof.
  intros on off. unfold on, off.
  pose proof (note_off_glide_period e note) as Hgp.
  pose proof (note_off_period e note) as Hp. cbv zeta in Hgp, Hp.
  rewrite note_on_glide_period, note_on_period.
  split; [reflexivity|]. split; [|split; [|split]].
  - intros Hgate Hgl. apply Z.eqb_neq in Hgate. rewrite Hgate.
    apply Rltb_true in Hgl. now rewrite Hgl.
  - intros [Hgate | Hgl].
    + now rewrite Hgate.
    + apply Rltb_false in Hgl. rewrite Hgl. now rewrite andb_false_r.
  - intros Hc. apply Z.gtb_gt in Hc. rewrite Hc in Hgp, Hp.
    split; [exact Hgp|]. split; intros Hgl.
    + apply Rltb_true in Hgl. now rewrite Hgl in Hp.
    + apply Rltb_false in Hgl. now rewrite Hgl in Hp.
  - intros Hc. assert (Hc' : (key_stack_count
                                (moog_engine_note_off e note) >? 0)%Z = false)
      by (rewrite Z.gtb_ltb; apply Z.ltb_ge; lia).
    rewrite Hc' in Hgp, Hp. now split.
Qed.

(** The theorem at a second press (72 while 60 is held) with glide 0.5:
    the sounding period stays. *)
Lemma C7_glide_retarget_witness :
  period
    (moog_engine_note_on
       (moog_engine_note_on (inst_engine glide_instance) 60 1) 72 1) =
  period (moog_engine_note_on (inst_engine glide_instance) 60 1).
Proof.
  destruct glide_instance_facts as (Hg & Hgate & _).
  generalize dependent (inst_engine glide_instance). intros e0 Hg Hgate.
  refine (proj1 (proj2 (C7_glide_retarget
                          (moog_engine_note_on e0 60 1) 72 1)) _ _).
  - destruct (note_on_gate_off e0 60 1 Hgate) as [-> _]. discriminate.
  - destruct (note_on_frame e0 60 1) as [-> _]. rewrite Hg. lra.
Defined.

(** ** Equal temperament *)

Lemma semitone_pow_12 :
  2 < 1.0594630943593 ^ 12 < 2 + 2 / 10 ^ 13.
Proof. simpl pow. lra. Qed.

Lemma note_to_hz_octave n :
  note_to_hz (n + 12) = note_to_hz n * 1.0594630943593 ^ 12.
Proof.
  unfold note_to_hz. rewrite plus_IZR, Rpower_plus.
  replace (IZR 12) with (INR 12) by (simpl; lra).
  rewrite Rpower_pow by lra. ring.
Qed.

(** C9: one octave up doubles the frequency, up to a relative deviation of
    1e-13 (in exact arithmetic, from the rounding of the semitone ratio
    1.0594630943593): for every note [n],
    |note_to_hz (n + 12) - 2 * note_to_hz n| <= 1e-13 * (2 * note_to_hz n). *)
Theorem C9_octave_doubling (n : Z) :
  Rabs (note_to_hz (n + 12) - 2 * note_to_hz n) <=
  1 / 10 ^ 13 * (2 * note_to_hz n).
Proof.
  rewrite note_to_hz_octave.
  pose proof (note_to_hz_pos n) as Hpos.
  pose proof semitone_pow_12 as [Hlo Hhi].
  set (q := 1.0594630943593 ^ 12) in *.
  assert (H13 : (10 ^ 13 = 10000000000000)%R) by (simpl; lra).
  rewrite H13 in *.
  apply Rabs_le. split; nra.
Qed.

(** ** Oscillator periods *)

Lemma Rtrunc_IZR z : Rtrunc (IZR z) = z.
Proof.
  unfold Rtrunc. destruct (Rltb (IZR z) 0) eqn:Hb.
  - apply Rltb_true in Hb. rewrite <- opp_IZR.
    rewrite <- (Int_part_spec (IZR (- z)) (- z)); [lia | lra].
  - symmetry. apply Int_part_spec. lra.
Qed.

Lemma clamp2_Rmax x : (if Rltb x 2 then 2 else x) = Rmax 2 x.
Proof.
  destruct (Rltb x 2) eqn:Hb.
  - apply Rltb_true in Hb. rewrite Rmax_left; lra.
  - apply Rltb_false in Hb. rewrite Rmax_right; lra.
Qed.

Lemma Rpower_2_gt_1 x : 0 < x -> 1 < Rpower 2 x.
Proof.
  intros Hx. rewrite <- (Rpower_O 2) by lra. apply Rpower_lt; lra.
Qed.

Lemma detune_cents_range d :
  0 <= d <= 1 -> -50 <= detune_cents d <= 50.
Proof. unfold detune_cents. lra. Qed.

Lemma detune_instance_facts :
  let e := inst_engine detune_instance in
  osc2_detune e = 0 /\ nth 1 (osc_volume e) 0 = 0.5 /\
  nth 1 (osc_range e) 0%Z = (-1)%Z.
Proof.
  unfold detune_instance, v2_set_param. cbn -[Rltb Rtrunc].
  destruct (Rltb 0 0) eqn:H0; [apply Rltb_true in H0; lra|].
  destruct (Rltb 1 0) eqn:H1; [apply Rltb_true in H1; lra|].
  split; [reflexivity|]. split; [reflexivity|].
  change (Rtrunc (IZR (-1)) = (-1)%Z). apply Rtrunc_IZR.
Qed.

(** The guard of oscillators 2 and 3 tests |detune| and not
    |detune - 0.5| as the guard of oscillator 4 does: with oscillator 2
    audible (volume 0.5, range -1) and its detune parameter at 0, no detune
    is applied and the period for a base period of 100 samples is 200,
    while -50 cents would give 200 * 2^(50/1200). *)
Lemma osc2_detune_low_end :
  0.001 <= nth 1 (osc_volume (inst_engine detune_instance)) 0 /\
  osc_period (inst_engine detune_instance) 100 1 = 200 /\
  200 < spec_osc_period (inst_engine detune_instance) 100 1.
Proof.
  destruct detune_instance_facts as (Hd & Hv & Hr).
  split; [rewrite Hv; lra|].
  assert (Habs : Rltb 0.001 (Rabs 0) = false)
    by (apply Rltb_false; rewrite Rabs_R0; lra).
  split.
  - unfold osc_period. rewrite Hr, Hd, Habs. cbn [Z.eqb negb Nat.eqb andb].
    replace (- IZR (-1)) with 1 by lra.
    rewrite Rpower_1 by lra.
    destruct (Rltb (100 * 2) 2) eqn:Hb; [apply Rltb_true in Hb; lra | lra].
  - unfold spec_osc_period, slot_detune, detune_cents. rewrite Hr, Hd.
    cbn [Nat.eqb].
    replace (- IZR (-1)) with 1 by lra.
    rewrite Rpower_1 by lra.
    pose proof (Rpower_2_gt_1 (- ((0 - 0.5) * 100) / 1200) ltac:(lra)).
    eapply Rlt_le_trans; [|apply Rmax_r]. nra.
Qed.

Lemma dead_zone_instance_facts :
  let e := inst_engine dead_zone_instance in
  osc4_detune e = 0.5005 /\ nth 3 (osc_volume e) 0 = 1 /\
  nth 3 (osc_range e) 0%Z = 0%Z.
Proof.
  unfold dead_zone_instance, v2_set_param. cbn -[Rltb Rtrunc].
  destruct (Rltb 1 0) eqn:H0; [apply Rltb_true in H0; lra|].
  destruct (Rltb 1 1) eqn:H1; [apply Rltb_true in H1; lra|].
  cbn -[Rltb Rtrunc].
  destruct (Rltb 0.5005 0) eqn:H2; [apply Rltb_true in H2; lra|].
  destruct (Rltb 1 0.5005) eqn:H3; [apply Rltb_true in H3; lra|].
  split; [reflexivity|]. split; [reflexivity|].
  change (Rtrunc (IZR 0) = 0%Z). apply Rtrunc_IZR.
Qed.

(** C6, as stated, fails in the dead zone of oscillator 4: with
    oscillator 4 audible (volume 1, range 0) and its detune parameter at
    0.5005, within 0.001 of the centre, the code skips the detune and the
    period for a base period of 100 samples is 100, while the formula of
    the claim asks for 100 * 2^(-0.05/1200), which is less. *)
Lemma C6_counterexample :
  0.001 <= nth 3 (osc_volume (inst_engine dead_zone_instance)) 0 /\
  0 <= osc4_detune (inst_engine dead_zone_instance) <= 1 /\
  osc_period (inst_engine dead_zone_instance) 100 3 = 100 /\
  spec_osc_period (inst_engine dead_zone_instance) 100 3 < 100.
Proof.
  destruct dead_zone_instance_facts as (Hd & Hv & Hr).
  split; [rewrite Hv; lra|]. split; [rewrite Hd; lra|].
  assert (Habs : Rltb 0.001 (Rabs (0.5005 - 0.5)) = false).
  { apply Rltb_false. rewrite Rabs_right; lra. }
  split.
  - unfold osc_period. rewrite Hr, Hd, Habs.
    cbn [Z.eqb negb Nat.eqb andb].
    destruct (Rltb 100 2) eqn:Hb; [apply Rltb_true in Hb; lra | lra].
  - unfold spec_osc_period, slot_detune, detune_cents. rewrite Hr, Hd.
    cbn [Nat.eqb]. rewrite Ropp_0, Rpower_O by lra.
    assert (Hlt : Rpower 2 (- ((0.5005 - 0.5) * 100) / 1200) < 1).
    { rewrite <- (Rpower_O 2) by lra. apply Rpower_lt; lra. }
    apply Rmax_lub_lt; lra.
Qed.

(** C6 (amended): the period of an oscillator slot is the base period times
    2^(-rangeOffset) times the detune factor, with a floor of 2 samples.
    The detune factor is 1 on oscillator 1, and 2^(-detuneCents/1200) with
    detuneCents = (detune - 0.5) * 100 (between -50 and +50 for detune in
    [0,1]) on oscillators 2 and 3 when |detune| exceeds 0.001 and on
    oscillator 4 when |detune - 0.5| exceeds 0.001; oscillator 4 within
    0.001 of the centre gets factor 1.  (Oscillators 2 and 3 with
    |detune| <= 0.001 are left out.)  The oscillator sum of a sample adds,
    for each slot whose volume is at least 0.001, the waveform at that
    period times the volume. *)
Theorem C6_osc_period (e : moog_engine_t) (base : R) (osc : nat) :
  (osc < 4)%nat ->
  (osc = 1%nat -> 0.001 < Rabs (osc2_detune e)) ->
  (osc = 2%nat -> 0.001 < Rabs (osc3_detune e)) ->
  osc_period e base osc =
    Rmax 2 (base * Rpower 2 (- IZR (nth osc (osc_range e) 0%Z))
            * detune_factor e osc) /\
  (0 <= slot_detune e osc <= 1 ->
   -50 <= detune_cents (slot_detune e osc) <= 50) /\
  osc_loop e base 0 4 0 =
    0 + slot_sample e (osc_period e base 0) 0
      + slot_sample e (osc_period e base 1) 1
      + slot_sample e (osc_period e base 2) 2
      + slot_sample e (osc_period e base 3) 3.
Proof.
  intros Hosc H2 H3. split; [|split].
  - unfold osc_period. rewrite clamp2_Rmax. f_equal.
    assert (Hrange :
      (if negb (nth osc (osc_range e) 0 =? 0)%Z
       then base * Rpower 2 (- IZR (nth osc (osc_range e) 0%Z)) else base) =
      base * Rpower 2 (- IZR (nth osc (osc_range e) 0%Z))).
    { destruct (Z.eqb_spec (nth osc (osc_range e) 0%Z) 0) as [->|]; cbn.
      - rewrite Ropp_0, Rpower_O by lra. lra.
      - reflexivity. }
    rewrite Hrange.
    destruct osc as [|[|[|[|]]]]; try lia; cbn [Nat.eqb andb].
    + unfold detune_factor. lra.
    + apply Rltb_true in H2; [|reflexivity]. rewrite H2.
      reflexivity.
    + apply Rltb_true in H3; [|reflexivity]. rewrite H3.
      reflexivity.
    + unfold detune_factor, detune_cents.
      destruct (Rltb 0.001 (Rabs (osc4_detune e - 0.5))); [reflexivity | lra].
  - apply detune_cents_range.
  - unfold slot_sample. cbn [osc_loop].
    destruct (Rltb (nth 0%nat (osc_volume e) 0) 0.001),
      (Rltb (nth 1%nat (osc_volume e) 0) 0.001),
      (Rltb (nth 2%nat (osc_volume e) 0) 0.001),
      (Rltb (nth 3%nat (osc_volume e) 0) 0.001); ring.
Qed.

(** The theorem on oscillator 2 of a fresh instance (Init preset: range
    -1, detune 0.48). *)
Lemma C6_osc_period_witness :
  osc_period (inst_engine v2_create_instance) 100 1 =
  Rmax 2
    (100 *
     Rpower 2
       (- IZR (nth 1 (osc_range (inst_engine v2_create_instance)) 0%Z)) *
     detune_factor (inst_engine v2_create_instance) 1).
Proof.
  assert (Hd : osc2_detune (inst_engine v2_create_instance) = 0.48)
    by reflexivity.
  generalize dependent (inst_engine v2_create_instance). intros e Hd.
  refine (proj1 (C6_osc_period e 100 1 _ _ _)).
  - lia.
  - intros _. rewrite Hd, Rabs_right; lra.
  - discriminate.
Defined.

(** ** Envelopes *)

Lemma param_to_time_pos param sr : 0 < sr -> 0 < param_to_time param sr.
Proof. intros Hsr. unfold param_to_time. nra. Qed.

Lemma progress_nonneg c t : 0 <= c -> 0 < t -> 0 <= c / t.
Proof.
  intros Hc Ht. unfold Rdiv.
  apply Rmult_le_pos; [exact Hc|]. left. now apply Rinv_0_lt_compat.
Qed.

Lemma envelope_process_ok env attack decay sustain release sr :
  env_ok env -> 0 <= sustain <= 1 -> 0 < sr ->
  env_ok (fst (envelope_process env attack decay sustain release sr)).
Proof.
  intros (Hl & Ha & Hr & Hc & Hoff) Hs Hsr.
  unfold envelope_process, env_ok.
  destruct (env_state env) eqn:Hst; cbn.
  - (* Off *) rewrite Hst. repeat split; try lra. 
  - (* Attack *)
    pose proof (progress_nonneg _ _ Hc (param_to_time_pos attack sr Hsr)) as Hp.
    set (progress := env_counter env / param_to_time attack sr) in *.
    destruct (Rleb 1 progress) eqn:Hb; cbn.
    + repeat split; try lra. discriminate.
    + apply Rleb_false in Hb. rewrite Hst.
      assert (0 <= progress * progress <= 1) by nra.
      repeat split; try lra; try nra. discriminate.
  - (* Decay *)
    pose proof (progress_nonneg _ _ Hc (param_to_time_pos decay sr Hsr)) as Hp.
    set (progress := env_counter env / param_to_time decay sr) in *.
    destruct (Rleb 1 progress) eqn:Hb; cbn.
    + repeat split; try lra. discriminate.
    + apply Rleb_false in Hb. rewrite Hst.
      assert (0 <= (1 - progress) * (1 - progress) <= 1) by nra.
      repeat split; try lra; try nra. discriminate.
  - (* Sustain *) rewrite Hst. repeat split; try lra. discriminate.
  - (* Release *)
    pose proof (progress_nonneg _ _ Hc (param_to_time_pos release sr Hsr)) as Hp.
    set (progress := env_counter env / param_to_time release sr) in *.
    destruct (Rleb 1 progress) eqn:Hb; cbn.
    + repeat split; lra.
    + apply Rleb_false in Hb. rewrite Hst.
      assert (0 <= (1 - progress) * (1 - progress) <= 1) by nra.
      repeat split; try lra; try nra. discriminate.
Qed.

(** Which fields the blocks of the sample loop touch. *)

Lemma update_glide_frame gr e :
  params (update_glide gr e) = params e /\
  amp_env (update_glide gr e) = amp_env e /\
  filt_env (update_glide gr e) = filt_env e /\
  filter_prev (update_glide gr e) = filter_prev e.
Proof.
  unfold update_glide.
  destruct (Rltb 0.01 (Rabs (period e - glide_period e))); now repeat split.
Qed.

Lemma update_lfo_frame li e :
  params (update_lfo li e) = params e /\
  amp_env (update_lfo li e) = amp_env e /\
  filt_env (update_lfo li e) = filt_env e /\
  filter_prev (update_lfo li e) = filter_prev e.
Proof.
  unfold update_lfo. cbn.
  destruct (Rleb 1 (lfo_phase e + li)); now repeat split.
Qed.

Lemma process_envelopes_spec sr e :
  let e' := fst (fst (process_envelopes sr e)) in
  amp_env e' =
    fst (envelope_process (amp_env e) (amp_attack e) (amp_decay e)
           (amp_sustain e) (amp_release e) sr) /\
  filt_env e' =
    fst (envelope_process (filt_env e) (filt_attack e) (filt_decay e)
           (filt_sustain e) (filt_release e) sr) /\
  params e' = params e /\ filter_prev e' = filter_prev e.
Proof.
  unfold process_envelopes.
  destruct (envelope_process (amp_env e) (amp_attack e) (amp_decay e)
              (amp_sustain e) (amp_release e) sr) as [env1 a].
  cbn -[envelope_process].
  destruct (envelope_process (filt_env e) (filt_attack e) (filt_decay e)
              (filt_sustain e) (filt_release e) sr) as [env2 f].
  now repeat split.
Qed.

Lemma add_noise_frame e sample :
  let e' := fst (add_noise e sample) in
  params e' = params e /\ amp_env e' = amp_env e /\
  filt_env e' = filt_env e /\ filter_prev e' = filter_prev e.
Proof.
  unfold add_noise. destruct (Rltb 0.001 (noise_volume e)); [|now repeat split].
  destruct (noise_sample (noise_seed e)). now repeat split.
Qed.

Lemma ladder_filter_frame sr cn sample e :
  params (ladder_filter sr cn sample e) = params e /\
  amp_env (ladder_filter sr cn sample e) = amp_env e /\
  filt_env (ladder_filter sr cn sample e) = filt_env e.
Proof. now repeat split. Qed.

Lemma render_sample_envs sr br gr li e :
  let e' := fst (render_sample sr br gr li e) in
  amp_env e' =
    fst (envelope_process (amp_env e) (amp_attack e) (amp_decay e)
           (amp_sustain e) (amp_release e) sr) /\
  filt_env e' =
    fst (envelope_process (filt_env e) (filt_attack e) (filt_decay e)
           (filt_sustain e) (filt_release e) sr) /\
  params e' = params e.
Proof.
  unfold render_sample.
  destruct (update_glide_frame gr e) as (Hp1 & Ha1 & Hf1 & _).
  set (e1 := update_glide gr e) in *.
  destruct (update_lfo_frame li e1) as (Hp2 & Ha2 & Hf2 & _).
  set (e2 := update_lfo li e1) in *.
  pose proof (process_envelopes_spec sr e2) as Hpe. cbv zeta in Hpe.
  destruct (process_envelopes sr e2) as [[e3 a] f]. cbn [fst] in Hpe.
  destruct Hpe as (Ha3 & Hf3 & Hp3 & _).
  set (s := osc_loop e3 _ _ _ _).
  pose proof (add_noise_frame e3 s) as Hn. cbv zeta in Hn.
  destruct (add_noise e3 s) as [e4 s']. cbn [fst] in Hn.
  destruct Hn as (Hp4 & Ha4 & Hf4 & _).
  cbn. rewrite Ha4, Hf4, Hp4, Ha3, Hf3, Hp3, Ha2, Hf2, Hp2, Ha1, Hf1, Hp1.
  now repeat split.
Qed.

Lemma envelopes_ok_render_sample br gr li e :
  envelopes_ok e ->
  envelopes_ok (fst (render_sample (sample_rate e) br gr li e)).
Proof.
  intros (Hamp & Hfilt & Hrange & Hsr).
  destruct (render_sample_envs (sample_rate e) br gr li e) as (Ha & Hf & Hp).
  unfold envelopes_ok. rewrite Ha, Hf, Hp.
  assert (0 < sample_rate e) by (rewrite Hsr; unfold MOOG_SAMPLE_RATE; lra).
  pose proof Hrange as [(_ & _ & Has & _) (_ & _ & Hfs & _)].
  split; [now apply envelope_process_ok|].
  split; [now apply envelope_process_ok|]. now split.
Qed.

Lemma envelopes_ok_render_loop sr br gr li k :
  forall e output i,
  envelopes_ok e -> sr = sample_rate e ->
  envelopes_ok (fst (render_loop sr br gr li e output i k)).
Proof.
  induction k as [|k IH]; intros e output i Hok Hsr; [exact Hok|].
  cbn [render_loop].
  destruct (render_sample sr br gr li e) as [e' v] eqn:Hrs.
  assert (He' : e' = fst (render_sample sr br gr li e)) by now rewrite Hrs.
  apply IH.
  - rewrite He', Hsr. now apply envelopes_ok_render_sample.
  - destruct (render_sample_envs sr br gr li e) as (_ & _ & Hp).
    rewrite He', Hp. exact Hsr.
Qed.

Lemma envelopes_ok_init e0 : envelopes_ok (moog_engine_init e0).
Proof.
  unfold envelopes_ok, env_ok, adsr_in_range. cbn.
  repeat split; try lra.
Qed.

Lemma envelopes_ok_note_on e note vel :
  envelopes_ok e -> envelopes_ok (moog_engine_note_on e note vel).
Proof.
  intros (Hamp & Hfilt & Hrange & Hsr).
  destruct (note_on_frame e note vel) as (Hp & _).
  unfold envelopes_ok. rewrite Hp.
  destruct (Z.eq_dec (gate_on e) 0%Z) as [Hg|Hg].
  - destruct (note_on_gate_off e note vel Hg) as (_ & -> & ->).
    destruct Hamp as (? & ? & ? & ? & ?), Hfilt as (? & ? & ? & ? & ?).
    unfold env_ok, env_triggered. cbn.
    repeat split; try lra; try assumption; try discriminate; apply Hrange.
  - destruct (note_on_gate_on e note vel Hg) as (_ & -> & ->).
    exact (conj Hamp (conj Hfilt (conj Hrange Hsr))).
Qed.

Lemma env_ok_release env :
  env_ok env ->
  env_ok (set_env_counter 0 (set_env_state ENV_RELEASE
            (set_env_release_level (env_level env) env))).
Proof.
  intros (? & ? & ? & ? & ?). unfold env_ok. cbn.
  repeat split; try lra. discriminate.
Qed.

Lemma envelopes_ok_note_off e note :
  envelopes_ok e -> envelopes_ok (moog_engine_note_off e note).
Proof.
  intros (Hamp & Hfilt & Hrange & Hsr).
  pose proof (env_ok_release _ Hamp) as Hamp'.
  pose proof (env_ok_release _ Hfilt) as Hfilt'.
  unfold envelopes_ok. rewrite note_off_params.
  unfold moog_engine_note_off.
  destruct (find_key _ _ _ _); cbn;
    match goal with
    | |- context [(?c >? 0)%Z] => destruct (c >? 0)%Z
    end; cbn;
    try destruct (Rltb 0.001 (glide e)); cbn;
    try (destruct (env_state (amp_env e)) eqn:?; cbn;
         destruct (env_state (filt_env e)) eqn:?; cbn);
    (split; [|split; [|split]]); assumption.
Qed.

Lemma envelopes_ok_reset e :
  envelopes_ok e -> envelopes_ok (moog_engine_reset e).
Proof.
  intros ((? & ? & ? & ? & ?) & (? & ? & ? & ? & ?) & Hrange & Hsr).
  unfold envelopes_ok, env_ok. cbn.
  repeat split; try lra; try assumption; apply Hrange.
Qed.

Lemma envelopes_ok_all_notes_off e :
  envelopes_ok e -> envelopes_ok (moog_engine_all_notes_off e).
Proof.
  intros ((? & ? & ? & ? & ?) & (? & ? & ? & ? & ?) & Hrange & Hsr).
  unfold envelopes_ok, env_ok. cbn.
  repeat split; try lra; try assumption; apply Hrange.
Qed.

Lemma reachable_envelopes_ok e : reachable e -> envelopes_ok e.
Proof.
  induction 1 as [e0|e _ IH|e note vel _ IH|e note _ IH|e bend _ IH
                 |e amount _ IH|e _ IH|e p _ IH Hsr Hrange
                 |e output frames k _ IH Hk].
  - apply envelopes_ok_init.
  - now apply envelopes_ok_reset.
  - now apply envelopes_ok_note_on.
  - now apply envelopes_ok_note_off.
  - exact IH.
  - exact IH.
  - now apply envelopes_ok_all_notes_off.
  - destruct IH as (Hamp & Hfilt & _ & Hsr').
    unfold envelopes_ok. cbn.
    split; [exact Hamp|]. split; [exact Hfilt|]. split; [exact Hrange|].
    now rewrite Hsr.
  - now apply envelopes_ok_render_loop.
Qed.

(** C3: in every reachable engine state (envelope parameters kept in
    [0,1]), after any event and after any number of per-sample steps of a
    render call, the level of each envelope lies in [0,1], and an envelope
    whose state is Off has level 0. *)
Theorem C3_envelope_levels (e : moog_engine_t) :
  reachable e ->
  0 <= amp_env_level e <= 1 /\ 0 <= filt_env_level e <= 1 /\
  (amp_env_state e = ENV_OFF -> amp_env_level e = 0) /\
  (filt_env_state e = ENV_OFF -> filt_env_level e = 0).
Proof.
  intros Hr. apply reachable_envelopes_ok in Hr.
  destruct Hr as ((? & _ & _ & _ & ?) & (? & _ & _ & _ & ?) & _).
  now repeat split.
Qed.

(** The theorem after a press of note 60 and 100 rendered samples of a
    128-frame block. *)
Lemma C3_envelope_levels_witness :
  0 <= amp_env_level
         (fst (render_loop
                 (sample_rate (moog_engine_note_on (moog_engine_init engine_zero) 60 1))
                 (render_bend_ratio (moog_engine_note_on (moog_engine_init engine_zero) 60 1))
                 (render_glide_rate (moog_engine_note_on (moog_engine_init engine_zero) 60 1) 128)
                 (render_lfo_inc (moog_engine_note_on (moog_engine_init engine_zero) 60 1))
                 (moog_engine_note_on (moog_engine_init engine_zero) 60 1)
                 (repeat 0 256) 0 100)) <= 1.
Proof.
  apply C3_envelope_levels.
  apply reach_render; [|cbn; lia].
  apply reach_note_on, reach_init.
Defined.

(** ** Ladder filter *)

Lemma nth_insert_same {A} (l : list A) i x d :
  nth i (<[i := x]> l) d = if (i <? length l)%nat then x else nth i l d.
Proof.
  destruct (Nat.ltb_spec i (length l)) as [Hlt|Hge].
  - apply nth_lookup_Some. now apply list_lookup_insert_eq.
  - now rewrite list_insert_ge.
Qed.

Lemma clamp4_bounds x :
  let y := if Rltb 4 x then 4 else x in
  -4 <= (if Rltb y (-4) then -4 else y) <= 4.
Proof.
  cbv zeta. destruct (Rltb 4 x) eqn:H1.
  - destruct (Rltb 4 (-4)) eqn:H2; lra.
  - apply Rltb_false in H1. destruct (Rltb x (-4)) eqn:H2; [lra|].
    apply Rltb_false in H2. lra.
Qed.

(** After the two clamping assignments the fifth cell reads within
    [-4,4], whatever the array held before. *)
Lemma clamp_tap4 (fp : list R) :
  let fp1 := if Rltb 4 (nth 4 fp 0) then <[4%nat := 4]> fp else fp in
  let fp2 := if Rltb (nth 4 fp1 0) (-4) then <[4%nat := -4]> fp1 else fp1 in
  -4 <= nth 4 fp2 0 <= 4.
Proof.
  cbv zeta.
  destruct (Nat.ltb_spec 4 (length fp)) as [Hlen|Hlen].
  - apply Nat.ltb_lt in Hlen.
    destruct (Rltb 4 (nth 4 fp 0)) eqn:H1.
    + rewrite nth_insert_same, Hlen.
      destruct (Rltb 4 (-4)) eqn:H2; [apply Rltb_true in H2; lra | ].
      rewrite nth_insert_same, Hlen. lra.
    + apply Rltb_false in H1. destruct (Rltb (nth 4 fp 0) (-4)) eqn:H2.
      * rewrite nth_insert_same, Hlen. lra.
      * apply Rltb_false in H2. lra.
  - assert (H0 : forall l : list R, length l = length fp -> nth 4 l 0 = 0)
      by (intros l Hl; apply nth_overflow; lia).
    rewrite H0; [lra|].
    repeat match goal with
    | |- context [if ?b then _ else _] => destruct b
    end; rewrite ?length_insert; reflexivity.
Qed.

Lemma ladder_taps_tap4 f fb sample fp :
  -4 <= nth 4 (ladder_taps f fb sample fp) 0 <= 4.
Proof. unfold ladder_taps. cbv zeta. apply clamp_tap4. Qed.

Lemma ladder_filter_tap4 sr cn sample e :
  -4 <= nth 4 (filter_prev (ladder_filter sr cn sample e)) 0 <= 4.
Proof. unfold ladder_filter. cbn. apply ladder_taps_tap4. Qed.

Lemma render_sample_tap4 sr br gr li e :
  -4 <= nth 4 (filter_prev (fst (render_sample sr br gr li e))) 0 <= 4.
Proof.
  unfold render_sample.
  destruct (process_envelopes sr _) as [[e3 a] f].
  destruct (add_noise e3 _) as [e4 s]. cbn [fst set_counter filter_prev].
  apply ladder_filter_tap4.
Qed.

Lemma render_loop_tap4 sr br gr li k :
  forall e output i,
  -4 <= nth 4 (filter_prev e) 0 <= 4 ->
  -4 <= nth 4 (filter_prev (fst (render_loop sr br gr li e output i k))) 0
     <= 4.
Proof.
  induction k as [|k IH]; intros e output i He; [exact He|].
  cbn [render_loop].
  pose proof (render_sample_tap4 sr br gr li e) as Hs.
  destruct (render_sample sr br gr li e) as [e' v]. now apply IH.
Qed.

Lemma note_off_filter_prev e note :
  filter_prev (moog_engine_note_off e note) = filter_prev e.
Proof. unfold moog_engine_note_off. split_tests; reflexivity. Qed.

Lemma reachable_tap4 e :
  reachable e -> -4 <= nth 4 (filter_prev e) 0 <= 4.
Proof.
  induction 1 as [e0|e _ IH|e note vel _ IH|e note _ IH|e bend _ IH
                 |e amount _ IH|e _ IH|e p _ IH Hsr Hrange
                 |e output frames k _ IH Hk]; try exact IH.
  - cbn. lra.
  - cbn. lra.
  - destruct (note_on_frame e note vel) as (_ & _ & _ & _ & _ & -> & _).
    exact IH.
  - now rewrite note_off_filter_prev.
  - now apply render_loop_tap4.
Qed.

(** Bounds of the filter loop for a fixed coefficient. *)

Lemma ladder_stage_bound f a b A B :
  0 <= f <= 1 -> within A a -> within B b -> A <= f * B ->
  within B (a + (1 - f) * b).
Proof. unfold within. intros Hf Ha Hb HAB. nra. Qed.

Lemma filter_coeff_range cutoff_hz sr :
  0.00116 <= filter_coeff cutoff_hz sr <= 0.5684.
Proof.
  unfold filter_coeff.
  destruct (Rltb 0.49 (cutoff_hz / sr)) eqn:H1.
  - destruct (Rltb 0.49 0.001) eqn:H2; [apply Rltb_true in H2; lra | lra].
  - apply Rltb_false in H1.
    destruct (Rltb (cutoff_hz / sr) 0.001) eqn:H2; [lra|].
    apply Rltb_false in H2. lra.
Qed.

Lemma tap_bound_le_4 f k : 0 <= f <= 0.5684 -> tap_bound f k <= 4.
Proof.
  intros Hf. assert (0 <= f * f <= 0.33) by nra.
  assert (0 <= f * f * f <= 0.19) by nra.
  assert (0 <= f * f * f * f <= 0.11) by nra.
  destruct k as [|[|[|[|k]]]]; cbn; lra.
Qed.

Lemma within_weaken a b x : a <= b -> within a x -> within b x.
Proof. unfold within. lra. Qed.

Lemma filter_step_bounded f fb x b0 b1 b2 b3 b4 :
  0 <= f <= 1 -> 0 <= fb <= 1 -> within 1 x ->
  taps_bounded f (b0, b1, b2, b3, b4) ->
  let input := (x - b4 * fb) * (0.35013 * f * f * f * f) in
  let b1' := input + 0.3 * b0 + (1 - f) * b1 in
  let b2' := b1' + 0.3 * b1' + (1 - f) * b2 in
  let b3' := b2' + 0.3 * b2' + (1 - f) * b3 in
  let b4' := b3' + 0.3 * b3' + (1 - f) * b4 in
  let c := if Rltb 4 b4' then 4 else b4' in
  let c' := if Rltb c (-4) then -4 else c in
  taps_bounded f (input, b1', b2', b3', c') /\ within 4 c'.
Proof.
  intros Hf Hfb Hx (H0 & H1 & H2 & H3 & H4). cbv zeta.
  set (input := (x - b4 * fb) * (0.35013 * f * f * f * f)).
  assert (Hin : within (tap_bound f 0) input).
  { unfold within, tap_bound, input in *.
    assert (Hd : -5 <= x - b4 * fb <= 5) by nra.
    assert (Hf4 : 0 <= f * f * f * f) by nra.
    replace (0.35013 * f * f * f * f) with (0.35013 * (f * f * f * f))
      by lra.
    set (f4 := f * f * f * f) in *. nra. }
  set (b1' := input + 0.3 * b0 + (1 - f) * b1).
  assert (Hb1 : within (tap_bound f 1) b1').
  { unfold b1'. apply (ladder_stage_bound f _ _ (1.3 * tap_bound f 0));
      try assumption.
    - unfold within in *. lra.
    - unfold tap_bound. nra. }
  set (b2' := b1' + 0.3 * b1' + (1 - f) * b2).
  assert (Hb2 : within (tap_bound f 2) b2').
  { unfold b2'. replace (b1' + 0.3 * b1') with (1.3 * b1') by lra.
    apply (ladder_stage_bound f _ _ (1.3 * tap_bound f 1));
      try assumption.
    - unfold within in *. lra.
    - unfold tap_bound. nra. }
  set (b3' := b2' + 0.3 * b2' + (1 - f) * b3).
  assert (Hb3 : within (tap_bound f 3) b3').
  { unfold b3'. replace (b2' + 0.3 * b2') with (1.3 * b2') by lra.
    apply (ladder_stage_bound f _ _ (1.3 * tap_bound f 2));
      try assumption.
    - unfold within in *. lra.
    - unfold tap_bound. nra. }
  pose proof (clamp4_bounds (b3' + 0.3 * b3' + (1 - f) * b4)) as Hc.
  cbv zeta in Hc.
  repeat split; try assumption; try apply Hin; try apply Hb1;
    try apply Hb2; try apply Hb3; cbn [tap_bound]; lra.
Qed.

Lemma nth_insert_other {A} (l : list A) i j x d :
  i <> j -> nth j (<[i := x]> l) d = nth j l d.
Proof.
  intros Hne. rewrite !nth_lookup. now rewrite list_lookup_insert_ne.
Qed.

Lemma moog_filter_loop_bounded f fb n :
  0 <= f <= 1 -> 0 <= fb <= 1 ->
  forall output b i,
  taps_bounded f b -> buffer_bounded i output ->
  taps_bounded f (snd (moog_filter_loop f fb output b i n)) /\
  buffer_bounded (i + n) (fst (moog_filter_loop f fb output b i n)).
Proof.
  intros Hf Hfb. induction n as [|n IH]; intros output b i Hb Hbuf.
  - cbn. rewrite Nat.add_0_r. now split.
  - destruct b as [[[[b0 b1] b2] b3] b4]. cbn [moog_filter_loop].
    destruct Hbuf as [Hlo Hhi].
    pose proof (filter_step_bounded f fb (nth i output 0) b0 b1 b2 b3 b4
                  Hf Hfb (Hhi i (Nat.le_refl i)) Hb) as [Hb' Hc].
    cbv zeta in Hb', Hc.
    replace (i + S n)%nat with (S i + n)%nat by lia.
    apply IH; [exact Hb'|]. split.
    + intros j Hj. destruct (Nat.eq_dec i j) as [<-|Hne].
      * rewrite nth_insert_same.
        destruct (i <? length output)%nat; [exact Hc|].
        apply (within_weaken 1); [lra | now apply Hhi].
      * rewrite nth_insert_other by exact Hne. apply Hlo. lia.
    + intros j Hj. rewrite nth_insert_other by lia. apply Hhi. lia.
Qed.

Lemma within_Rabs bound x : within bound x -> Rabs x <= bound.
Proof. apply Rabs_le. Qed.

Lemma Rabs_within bound x : Rabs x <= bound -> within bound x.
Proof.
  unfold within, Rabs. destruct (Rcase_abs x); lra.
Qed.

Lemma moog_filter_process_bounded (output : list R) frames cutoff_hz
    resonance sr :
  0 <= resonance <= 1 ->
  Forall (fun x => Rabs x <= 1) output ->
  let r :=
    moog_filter_process output (repeat 0 6) frames cutoff_hz resonance sr in
  (forall k, Rabs (nth k (snd r) 0) <= 4) /\
  (forall j, Rabs (nth j (fst r) 0) <= 4).
Proof.
  intros Hres Hin. cbv zeta. unfold moog_filter_process.
  pose proof (filter_coeff_range cutoff_hz sr) as Hf.
  set (f := filter_coeff cutoff_hz sr) in *.
  assert (Hfb : 0 <= resonance * (1 - 0.15 * f * f) <= 1).
  { assert (Hg : 0 <= 1 - 0.15 * f * f <= 1) by nra.
    set (g := 1 - 0.15 * f * f) in *. nra. }
  assert (Hbuf : buffer_bounded 0 output).
  { split; [intros j Hj; lia|]. intros j _.
    destruct (nth_lookup_or_length output j 0) as [Hj|Hj].
    - apply (Forall_lookup_1 _ _ _ _ Hin) in Hj. cbv beta in Hj.
      now apply Rabs_within.
    - rewrite nth_overflow by lia. unfold within. lra. }
  assert (Hb0 : taps_bounded f (0, 0, 0, 0, 0)).
  { assert (0 <= f * f) by nra. assert (0 <= f * f * f) by nra.
    assert (0 <= f * f * f * f) by nra.
    unfold taps_bounded, within, tap_bound. repeat split; lra. }
  destruct (moog_filter_loop_bounded f _ (Z.to_nat frames) ltac:(lra) Hfb
              output (0, 0, 0, 0, 0) 0%nat Hb0 Hbuf) as [Hb Ho].
  cbn [nth repeat].
  destruct (moog_filter_loop f _ output (0, 0, 0, 0, 0) 0 (Z.to_nat frames))
    as [out' [[[[b0 b1] b2] b3] b4]].
  cbn [fst snd] in *. destruct Hb as (H0 & H1 & H2 & H3 & H4).
  assert (Hle : forall k, tap_bound f k <= 4)
    by (intros k; apply tap_bound_le_4; lra).
  split.
  - intros k. apply within_Rabs.
    destruct k as [|[|[|[|[|[|k]]]]]]; cbn.
    + exact (within_weaken _ _ _ (Hle 0%nat) H0).
    + exact (within_weaken _ _ _ (Hle 1%nat) H1).
    + exact (within_weaken _ _ _ (Hle 2%nat) H2).
    + exact (within_weaken _ _ _ (Hle 3%nat) H3).
    + exact H4.
    + unfold within. lra.
    + destruct k; unfold within; lra.
  - intros j. apply within_Rabs. destruct Ho as [Hlo Hhi].
    destruct (Nat.lt_ge_cases j (0 + Z.to_nat frames)) as [Hj|Hj].
    + now apply Hlo.
    + apply (within_weaken 1); [lra | now apply Hhi].
Qed.

(** *** The block filter and the inline ladder *)

Lemma ladder_taps_cons f fb x p0 p1 p2 p3 p4 p5 :
  let input := (x - p4 * fb) * (0.35013 * f * f * f * f) in
  let b1 := input + 0.3 * p0 + (1 - f) * p1 in
  let b2 := b1 + 0.3 * b1 + (1 - f) * p2 in
  let b3 := b2 + 0.3 * b2 + (1 - f) * p3 in
  let b4 := b3 + 0.3 * b3 + (1 - f) * p4 in
  let b4 := if Rltb 4 b4 then 4 else b4 in
  let b4 := if Rltb b4 (-4) then -4 else b4 in
  ladder_taps f fb x [p0; p1; p2; p3; p4; p5] = [input; b1; b2; b3; b4; p5].
Proof.
  cbv zeta. unfold ladder_taps. cbn.
  set (input := (x - p4 * fb) * (0.35013 * f * f * f * f)).
  set (b1 := input + 0.3 * p0 + (1 - f) * p1).
  set (b2 := b1 + 0.3 * b1 + (1 - f) * p2).
  set (b3 := b2 + 0.3 * b2 + (1 - f) * p3).
  set (b4 := b3 + 0.3 * b3 + (1 - f) * p4).
  destruct (Rltb 4 b4); cbn; destruct (Rltb _ (-4)); reflexivity.
Qed.

Lemma moog_filter_loop_ladder f fb n :
  forall (output : list R) b0 b1 b2 b3 b4 p5 i,
  (i + n <= length output)%nat ->
  let r := moog_filter_loop f fb output (b0, b1, b2, b3, b4) i n in
  let l := ladder_run f fb (take n (drop i output)) [b0; b1; b2; b3; b4; p5] in
  fst r = take i output ++ fst l ++ drop (i + n) output /\
  (let '(c0, c1, c2, c3, c4) := snd r in [c0; c1; c2; c3; c4; p5]) = snd l.
Proof.
  induction n as [|n IH]; intros output b0 b1 b2 b3 b4 p5 i Hlen.
  - cbv zeta. rewrite take_0, Nat.add_0_r. cbn. rewrite take_drop.
    now split.
  - cbn [moog_filter_loop].
    destruct (drop i output) as [|x rest] eqn:Hd.
    { apply (f_equal length) in Hd. rewrite length_drop in Hd. cbn in Hd.
      lia. }
    assert (Hx : nth i output 0 = x).
    { rewrite nth_lookup, <- (Nat.add_0_r i), <- lookup_drop, Hd.
      reflexivity. }
    assert (Hrest : drop (S i) output = rest).
    { change (S i) with (1 + i)%nat. rewrite Nat.add_comm, <- drop_drop, Hd.
      reflexivity. }
    change (take (S n) (x :: rest)) with (x :: take n rest).
    cbn [ladder_run]. rewrite Hx.
    pose proof (ladder_taps_cons f fb x b0 b1 b2 b3 b4 p5) as Ht.
    cbv zeta in Ht. rewrite Ht. clear Ht.
    set (input := (x - b4 * fb) * (0.35013 * f * f * f * f)).
    set (c1 := input + 0.3 * b0 + (1 - f) * b1).
    set (c2 := c1 + 0.3 * c1 + (1 - f) * b2).
    set (c3 := c2 + 0.3 * c2 + (1 - f) * b3).
    set (c4 := if Rltb (if Rltb 4 _ then 4 else _) (-4) then -4 else _).
    specialize (IH (<[i := c4]> output) input c1 c2 c3 c4 p5 (S i)).
    rewrite length_insert in IH. specialize (IH ltac:(lia)).
    cbv zeta in IH. rewrite drop_insert_lt in IH by lia.
    rewrite Hrest in IH.
    destruct (ladder_run f fb (take n rest) [input; c1; c2; c3; c4; p5])
      as [ys fp'] eqn:Hl.
    cbn [fst snd nth] in *. destruct IH as [IH1 IH2]. split; [|exact IH2].
    rewrite IH1. rewrite drop_insert_lt by lia.
    erewrite take_S_r by (apply list_lookup_insert_eq; lia).
    rewrite take_insert_ge by lia.
    rewrite <- app_assoc. cbn. now rewrite Nat.add_succ_r.
Qed.

(** The block filter as a run of the single-sample ladder. *)
Lemma moog_filter_process_run (output prev : list R) (frames : Z)
    (cutoff_hz resonance sample_rate : R) :
  length prev = 6%nat ->
  (0 <= frames <= Z.of_nat (length output))%Z ->
  let f := filter_coeff cutoff_hz sample_rate in
  let fb := resonance * (1 - 0.15 * f * f) in
  let l := ladder_run f fb (take (Z.to_nat frames) output) prev in
  moog_filter_process output prev frames cutoff_hz resonance sample_rate =
  (fst l ++ drop (Z.to_nat frames) output, snd l).
Proof.
  intros Hlen Hf f fb l.
  destruct prev as [|p0 [|p1 [|p2 [|p3 [|p4 [|p5 [|]]]]]]]; try discriminate.
  unfold moog_filter_process. fold f. fold fb. cbn [nth].
  pose proof (moog_filter_loop_ladder f fb (Z.to_nat frames) output
                p0 p1 p2 p3 p4 p5 0%nat ltac:(lia)) as H.
  cbv zeta in H. rewrite drop_0 in H. fold l in H.
  destruct (moog_filter_loop f fb output (p0, p1, p2, p3, p4) 0
              (Z.to_nat frames)) as [out' [[[[c0 c1] c2] c3] c4]].
  cbn [fst snd] in H. destruct H as [H1 H2].
  rewrite H1, <- H2. reflexivity.
Qed.

(** *** The inline filter run on its own *)

Lemma filter_run_fixed sr c (xs : list R) :
  forall e : moog_engine_t,
  filter_prev (filter_run sr (map (fun x => (c, x)) xs) e) =
  snd (ladder_run (filter_coeff (20 * Rpower 1000 c) sr)
         (filter_resonance e *
          (1 - 0.15 * filter_coeff (20 * Rpower 1000 c) sr *
           filter_coeff (20 * Rpower 1000 c) sr))
         xs (filter_prev e)).
Proof.
  induction xs as [|x xs IH]; intros e; [reflexivity|].
  cbn [map filter_run ladder_run]. rewrite IH.
  change (filter_resonance (ladder_filter sr c x e))
    with (filter_resonance e).
  change (filter_prev (ladder_filter sr c x e)) with
    (ladder_taps (filter_coeff (20 * Rpower 1000 c) sr)
       (filter_resonance e *
        (1 - 0.15 * filter_coeff (20 * Rpower 1000 c) sr *
         filter_coeff (20 * Rpower 1000 c) sr)) x (filter_prev e)).
  now destruct (ladder_run _ _ xs _).
Qed.

(** With a fixed coefficient, zeroed memory, resonance in [0,1] and input
    within [-1,1], the inline ladder keeps all taps within [-4,4]. *)
Lemma filter_run_bounded cutoff_normalized sr (samples : list R)
    (e : moog_engine_t) :
  0 <= filter_resonance e <= 1 -> filter_prev e = repeat 0 6 ->
  Forall (fun x => Rabs x <= 1) samples ->
  forall k,
  Rabs (nth k (filter_prev
                 (filter_run sr
                    (map (fun x => (cutoff_normalized, x)) samples) e)) 0)
  <= 4.
Proof.
  intros Hres Hfp Hin k. rewrite filter_run_fixed, Hfp.
  pose proof (moog_filter_process_bounded samples
                (Z.of_nat (length samples))
                (20 * Rpower 1000 cutoff_normalized) (filter_resonance e) sr
                Hres Hin) as Hb.
  cbv zeta in Hb.
  rewrite (moog_filter_process_run samples (repeat 0 6)
             (Z.of_nat (length samples))) in Hb
    by (rewrite ?repeat_length; lia).
  cbv zeta in Hb. rewrite Nat2Z.id, firstn_all in Hb. cbn [snd] in Hb.
  apply (proj1 Hb).
Qed.

Lemma filter_coeff_high : filter_coeff (20 * Rpower 1000 1) 44100 = 232 / 441.
Proof.
  unfold filter_coeff. rewrite Rpower_1 by lra. cbv zeta.
  rewrite (proj2 (Rltb_false 0.49 (20 * 1000 / 44100))) by lra.
  rewrite (proj2 (Rltb_false (20 * 1000 / 44100) 0.001)) by lra. lra.
Qed.

Lemma filter_coeff_low : filter_coeff (20 * Rpower 1000 0) 44100 = 0.00116.
Proof.
  unfold filter_coeff. rewrite Rpower_O by lra. cbv zeta.
  rewrite (proj2 (Rltb_false 0.49 (20 * 1 / 44100))) by lra.
  rewrite (proj2 (Rltb_true (20 * 1 / 44100) 0.001)) by lra. lra.
Qed.

(** One step of the inline filter on a six-cell memory, as equations
    between the old and the new taps. *)
Lemma ladder_filter_step sr c x (e : moog_engine_t) res f p0 p1 p2 p3 p4 p5 :
  filter_prev e = [p0; p1; p2; p3; p4; p5] ->
  filter_resonance e = res ->
  filter_coeff (20 * Rpower 1000 c) sr = f ->
  exists q0 q1 q2 q3 q4,
    filter_prev (ladder_filter sr c x e) = [q0; q1; q2; q3; q4; p5] /\
    filter_resonance (ladder_filter sr c x e) = res /\
    q0 = (x - p4 * (res * (1 - 0.15 * f * f))) * (0.35013 * f * f * f * f) /\
    q1 = q0 + 0.3 * p0 + (1 - f) * p1 /\
    q2 = q1 + 0.3 * q1 + (1 - f) * p2 /\
    q3 = q2 + 0.3 * q2 + (1 - f) * p3 /\
    ((q4 = q3 + 0.3 * q3 + (1 - f) * p4 /\
      -4 <= q3 + 0.3 * q3 + (1 - f) * p4 <= 4) \/
     (q4 = 4 /\ 4 < q3 + 0.3 * q3 + (1 - f) * p4) \/
     (q4 = -4 /\ q3 + 0.3 * q3 + (1 - f) * p4 < -4)).
Proof.
  intros Hfp Hres Hf.
  change (filter_resonance (ladder_filter sr c x e))
    with (filter_resonance e).
  change (filter_prev (ladder_filter sr c x e)) with
    (ladder_taps (filter_coeff (20 * Rpower 1000 c) sr)
       (filter_resonance e *
        (1 - 0.15 * filter_coeff (20 * Rpower 1000 c) sr *
         filter_coeff (20 * Rpower 1000 c) sr)) x (filter_prev e)).
  rewrite Hfp, Hres, Hf.
  pose proof (ladder_taps_cons f (res * (1 - 0.15 * f * f)) x
                p0 p1 p2 p3 p4 p5) as Ht.
  cbv zeta in Ht. rewrite Ht. clear Ht.
  set (q0 := (x - p4 * (res * (1 - 0.15 * f * f))) *
             (0.35013 * f * f * f * f)).
  set (q1 := q0 + 0.3 * p0 + (1 - f) * p1).
  set (q2 := q1 + 0.3 * q1 + (1 - f) * p2).
  set (q3 := q2 + 0.3 * q2 + (1 - f) * p3).
  set (r := q3 + 0.3 * q3 + (1 - f) * p4).
  exists q0, q1, q2, q3.
  destruct (Rltb 4 r) eqn:E1; [apply Rltb_true in E1 | apply Rltb_false in E1].
  - rewrite (proj2 (Rltb_false 4 (-4))) by lra.
    exists 4. repeat split; try reflexivity. right. left.
    split; [reflexivity | exact E1].
  - destruct (Rltb r (-4)) eqn:E2;
      [apply Rltb_true in E2 | apply Rltb_false in E2].
    + exists (-4). repeat split; try reflexivity. right. right.
      split; [reflexivity | exact E2].
    + exists r. repeat split; try reflexivity. left.
      split; [reflexivity | exact (conj E2 E1)].
Qed.

Lemma resonant_instance_facts :
  let e := inst_engine resonant_instance in
  filter_resonance e = 1 /\ filter_prev e = [0; 0; 0; 0; 0; 0].
Proof.
  unfold resonant_instance, v2_set_param. cbn -[Rltb Rtrunc].
  destruct (Rltb 1 0) eqn:H0; [apply Rltb_true in H0; lra|].
  destruct (Rltb 1 1) eqn:H1; [apply Rltb_true in H1; lra|].
  split; reflexivity.
Qed.

(** C2, as stated, fails for taps 0 to 3, which the code does not clamp:
    on a fresh instance with resonance 1.0 (filter memory zero), a unit
    step through the inline filter of the render loop with the normalised
    cutoff at 1.0 for three samples and at 0.0 for the next eight leaves
    tap 3 above 4.75.  The first three samples charge the early stages;
    with the coefficient then near zero each stage holds its value and
    keeps feeding the next. *)
Lemma C2_counterexample :
  filter_resonance (inst_engine resonant_instance) = 1 /\
  filter_prev (inst_engine resonant_instance) = repeat 0 6 /\
  Forall (fun s => 0 <= fst s <= 1 /\ snd s = 1) cutoff_drop /\
  4.75 < nth 3 (filter_prev
                  (filter_run 44100 cutoff_drop
                     (inst_engine resonant_instance))) 0.
Proof.
  destruct resonant_instance_facts as (Hres0 & Hfp0).
  generalize dependent (inst_engine resonant_instance). intros e Hres0 Hfp0.
  split; [exact Hres0|]. split; [exact Hfp0|]. split.
  { unfold cutoff_drop. repeat (apply List.Forall_cons; [cbn; lra|]).
    apply List.Forall_nil. }
  unfold cutoff_drop. cbn [filter_run].
  pose proof filter_coeff_high as Hh. pose proof filter_coeff_low as Hl.
  destruct (ladder_filter_step 44100 1 1 _ 1 _ _ _ _ _ _ _ Hfp0 Hres0 Hh)
    as (t1_0 & t1_1 & t1_2 & t1_3 & t1_4 & Hfp1 & Hres1 & E0 & E1 & E2 & E3 & E4).
  assert (B1_0 : 0.02681803205055 <= t1_0 <= 0.02681803205056) by lra.
  assert (B1_1 : 0.026818032 <= t1_1 <= 0.0268180321) by lra.
  assert (B1_2 : 0.0348634416 <= t1_2 <= 0.0348634418) by lra.
  assert (B1_3 : 0.045322474 <= t1_3 <= 0.0453224744) by lra.
  assert (B1_4 : 0.0589192162 <= t1_4 <= 0.0589192168)
    by (destruct E4 as [[-> Hr]|[[-> Hr]|[-> Hr]]]; lra).
  clear E0 E1 E2 E3 E4.
  destruct (ladder_filter_step 44100 1 1 _ 1 _ _ _ _ _ _ _ Hfp1 Hres1 Hh)
    as (t2_0 & t2_1 & t2_2 & t2_3 & t2_4 & Hfp2 & Hres2 & E0 & E1 & E2 & E3 & E4).
  assert (B2_0 : 0.02530353008695 <= t2_0 <= 0.02530353010238) by lra.
  assert (B2_1 : 0.0460586192 <= t2_1 <= 0.0460586194) by lra.
  assert (B2_2 : 0.0763987883 <= t2_2 <= 0.0763987888) by lra.
  assert (B2_3 : 0.1207977832 <= t2_3 <= 0.1207977841) by lra.
  assert (B2_4 : 0.1849602841 <= t2_4 <= 0.1849602856)
    by (destruct E4 as [[-> Hr]|[[-> Hr]|[-> Hr]]]; lra).
  clear E0 E1 E2 E3 E4 B1_0 B1_1 B1_2 B1_3 B1_4 Hfp1 Hres1.
  destruct (ladder_filter_step 44100 1 1 _ 1 _ _ _ _ _ _ _ Hfp2 Hres2 Hh)
    as (t3_0 & t3_1 & t3_2 & t3_3 & t3_4 & Hfp3 & Hres3 & E0 & E1 & E2 & E3 & E4).
  assert (B3_0 : 0.02206367971963 <= t3_0 <= 0.0220636797582) by lra.
  assert (B3_1 : 0.0514829732 <= t3_1 <= 0.0514829734) by lra.
  assert (B3_2 : 0.1031350006 <= t3_2 <= 0.1031350012) by lra.
  assert (B3_3 : 0.1913243368 <= t3_3 <= 0.1913243381) by lra.
  assert (B3_4 : 0.3363785525 <= t3_4 <= 0.336378555)
    by (destruct E4 as [[-> Hr]|[[-> Hr]|[-> Hr]]]; lra).
  clear E0 E1 E2 E3 E4 B2_0 B2_1 B2_2 B2_3 B2_4 Hfp2 Hres2.
  destruct (ladder_filter_step 44100 0 1 _ 1 _ _ _ _ _ _ _ Hfp3 Hres3 Hl)
    as (t4_0 & t4_1 & t4_2 & t4_3 & t4_4 & Hfp4 & Hres4 & E0 & E1 & E2 & E3 & E4).
  assert (B4_0 : 0.00000000000042 <= t4_0 <= 0.00000000000043) by lra.
  assert (B4_1 : 0.0580423568 <= t4_1 <= 0.0580423571) by lra.
  assert (B4_2 : 0.1784704278 <= t4_2 <= 0.1784704289) by lra.
  assert (B4_3 : 0.4231139567 <= t4_3 <= 0.4231139595) by lra.
  assert (B4_4 : 0.886036497 <= t4_4 <= 0.8860365033)
    by (destruct E4 as [[-> Hr]|[[-> Hr]|[-> Hr]]]; lra).
  clear E0 E1 E2 E3 E4 B3_0 B3_1 B3_2 B3_3 B3_4 Hfp3 Hres3.
  destruct (ladder_filter_step 44100 0 1 _ 1 _ _ _ _ _ _ _ Hfp4 Hres4 Hl)
    as (t5_0 & t5_1 & t5_2 & t5_3 & t5_4 & Hfp5 & Hres5 & E0 & E1 & E2 & E3 & E4).
  assert (B5_0 : 0.00000000000007 <= t5_0 <= 0.00000000000008) by lra.
  assert (B5_1 : 0.0579750276 <= t5_1 <= 0.057975028) by lra.
  assert (B5_2 : 0.2536309379 <= t5_2 <= 0.2536309397) by lra.
  assert (B5_3 : 0.7523433637 <= t5_3 <= 0.752343369) by lra.
  assert (B5_4 : 1.8630550674 <= t5_4 <= 1.8630550807)
    by (destruct E4 as [[-> Hr]|[[-> Hr]|[-> Hr]]]; lra).
  clear E0 E1 E2 E3 E4 B4_0 B4_1 B4_2 B4_3 B4_4 Hfp4 Hres4.
  destruct (ladder_filter_step 44100 0 1 _ 1 _ _ _ _ _ _ _ Hfp5 Hres5 Hl)
    as (t6_0 & t6_1 & t6_2 & t6_3 & t6_4 & Hfp6 & Hres6 & E0 & E1 & E2 & E3 & E4).
  assert (B6_0 : (-0.00000000000055) <= t6_0 <= (-0.00000000000054)) by lra.
  assert (B6_1 : 0.0579077765 <= t6_1 <= 0.057907777) by lra.
  assert (B6_2 : 0.3286168354 <= t6_2 <= 0.328616838) by lra.
  assert (B6_3 : 1.1786725314 <= t6_3 <= 1.1786725401) by lra.
  assert (B6_4 : 3.3931682143 <= t6_4 <= 3.393168239)
    by (destruct E4 as [[-> Hr]|[[-> Hr]|[-> Hr]]]; lra).
  clear E0 E1 E2 E3 E4 B5_0 B5_1 B5_2 B5_3 B5_4 Hfp5 Hres5.
  destruct (ladder_filter_step 44100 0 1 _ 1 _ _ _ _ _ _ _ Hfp6 Hres6 Hl)
    as (t7_0 & t7_1 & t7_2 & t7_3 & t7_4 & Hfp7 & Hres7 & E0 & E1 & E2 & E3 & E4).
  assert (B7_0 : (-0.00000000000152) <= t7_0 <= (-0.00000000000151)) by lra.
  assert (B7_1 : 0.0578406034 <= t7_1 <= 0.057840604) by lra.
  assert (B7_2 : 0.4034284242 <= t7_2 <= 0.4034284277) by lra.
  assert (B7_3 : 1.7017622227 <= t7_3 <= 1.701762236) by lra.
  assert (B7_4 : 4 <= t7_4 <= 4)
    by (destruct E4 as [[-> Hr]|[[-> Hr]|[-> Hr]]]; lra).
  clear E0 E1 E2 E3 E4 B6_0 B6_1 B6_2 B6_3 B6_4 Hfp6 Hres6.
  destruct (ladder_filter_step 44100 0 1 _ 1 _ _ _ _ _ _ _ Hfp7 Hres7 Hl)
    as (t8_0 & t8_1 & t8_2 & t8_3 & t8_4 & Hfp8 & Hres8 & E0 & E1 & E2 & E3 & E4).
  assert (B8_0 : (-0.00000000000191) <= t8_0 <= (-0.0000000000019)) by lra.
  assert (B8_1 : 0.0577735082 <= t8_1 <= 0.0577735089) by lra.
  assert (B8_2 : 0.4780660078 <= t8_2 <= 0.4780660123) by lra.
  assert (B8_3 : 2.3212739886 <= t8_3 <= 2.3212740078) by lra.
  assert (B8_4 : 4 <= t8_4 <= 4)
    by (destruct E4 as [[-> Hr]|[[-> Hr]|[-> Hr]]]; lra).
  clear E0 E1 E2 E3 E4 B7_0 B7_1 B7_2 B7_3 B7_4 Hfp7 Hres7.
  destruct (ladder_filter_step 44100 0 1 _ 1 _ _ _ _ _ _ _ Hfp8 Hres8 Hl)
    as (t9_0 & t9_1 & t9_2 & t9_3 & t9_4 & Hfp9 & Hres9 & E0 & E1 & E2 & E3 & E4).
  assert (B9_0 : (-0.00000000000191) <= t9_0 <= (-0.0000000000019)) by lra.
  assert (B9_1 : 0.0577064909 <= t9_1 <= 0.0577064917) by lra.
  assert (B9_2 : 0.5525298894 <= t9_2 <= 0.552529895) by lra.
  assert (B9_3 : 3.0368701669 <= t9_3 <= 3.0368701935) by lra.
  assert (B9_4 : 4 <= t9_4 <= 4)
    by (destruct E4 as [[-> Hr]|[[-> Hr]|[-> Hr]]]; lra).
  clear E0 E1 E2 E3 E4 B8_0 B8_1 B8_2 B8_3 B8_4 Hfp8 Hres8.
  destruct (ladder_filter_step 44100 0 1 _ 1 _ _ _ _ _ _ _ Hfp9 Hres9 Hl)
    as (t10_0 & t10_1 & t10_2 & t10_3 & t10_4 & Hfp10 & Hres10 & E0 & E1 & E2 & E3 & E4).
  assert (B10_0 : (-0.00000000000191) <= t10_0 <= (-0.0000000000019)) by lra.
  assert (B10_1 : 0.0576395513 <= t10_1 <= 0.0576395522) by lra.
  assert (B10_2 : 0.6268203714 <= t10_2 <= 0.6268203782) by lra.
  assert (B10_3 : 3.8482138803 <= t10_3 <= 3.8482139158) by lra.
  assert (B10_4 : 4 <= t10_4 <= 4)
    by (destruct E4 as [[-> Hr]|[[-> Hr]|[-> Hr]]]; lra).
  clear E0 E1 E2 E3 E4 B9_0 B9_1 B9_2 B9_3 B9_4 Hfp9 Hres9.
  destruct (ladder_filter_step 44100 0 1 _ 1 _ _ _ _ _ _ _ Hfp10 Hres10 Hl)
    as (t11_0 & t11_1 & t11_2 & t11_3 & t11_4 & Hfp11 & Hres11 & E0 & E1 & E2 & E3 & E4).
  assert (B11_0 : (-0.00000000000191) <= t11_0 <= (-0.0000000000019)) by lra.
  assert (B11_1 : 0.0575726894 <= t11_1 <= 0.0575726904) by lra.
  assert (B11_2 : 0.7009377559 <= t11_2 <= 0.7009377641) by lra.
  assert (B11_3 : 4.7549690348 <= t11_3 <= 4.754969081) by lra.
  assert (B11_4 : 4 <= t11_4 <= 4)
    by (destruct E4 as [[-> Hr]|[[-> Hr]|[-> Hr]]]; lra).
  clear E0 E1 E2 E3 E4 B10_0 B10_1 B10_2 B10_3 B10_4 Hfp10 Hres10.
  rewrite Hfp11. cbn [nth]. lra.
Qed.

(** C2 (amended): the code clamps the final-stage tap only.  That tap
    (tap 4) is within [-4,4] after every sample that the inline filter of
    the render loop processes, for every resonance, cutoff and input, and
    so in every reachable engine state.  Taps 0 to 3 are not clamped; all
    five taps (and all output samples) stay within [-4,4] after any number
    of samples when the filter starts from zeroed memory and runs with one
    fixed normalised cutoff in [0,1], a resonance in [0,1], in particular
    1.0, and an input within [-1,1], in particular a unit step of 10,000
    samples: this holds for [moog_filter_process] and for the inline
    filter alike.  Real arithmetic stands for the float arithmetic of the
    code. *)
Theorem C2_filter_taps_bounded :
  (forall sr cutoff_normalized sample e,
     Rabs (nth 4 (filter_prev
                    (ladder_filter sr cutoff_normalized sample e)) 0) <= 4) /\
  (forall e, reachable e -> Rabs (nth 4 (filter_prev e) 0) <= 4) /\
  (forall (cutoff_normalized resonance sr : R) (output : list R)
          (frames : Z),
     0 <= cutoff_normalized <= 1 -> 0 <= resonance <= 1 ->
     Forall (fun x => Rabs x <= 1) output ->
     let r :=
       moog_filter_process output (repeat 0 6) frames
         (20 * Rpower 1000 cutoff_normalized) resonance sr in
     (forall k, Rabs (nth k (snd r) 0) <= 4) /\
     (forall j, Rabs (nth j (fst r) 0) <= 4)) /\
  (forall (cutoff_normalized sr : R) (samples : list R)
          (e : moog_engine_t),
     0 <= cutoff_normalized <= 1 -> 0 <= filter_resonance e <= 1 ->
     filter_prev e = repeat 0 6 ->
     Forall (fun x => Rabs x <= 1) samples ->
     forall k,
     Rabs (nth k (filter_prev
                    (filter_run sr
                       (map (fun x => (cutoff_normalized, x)) samples) e))
             0) <= 4).
Proof.
  split; [|split; [|split]].
  - intros. apply within_Rabs, ladder_filter_tap4.
  - intros e He. apply within_Rabs. now apply reachable_tap4.
  - intros cn res sr output frames _ Hres Hin.
    now apply moog_filter_process_bounded.
  - intros cn sr samples e _ Hres Hfp Hin.
    now apply filter_run_bounded.
Qed.

(** The theorem for resonance 1.0, cutoff 0.5 and a unit step of 10,000
    samples at 44.1 kHz, read at the fourth tap of the block filter and of
    the inline filter. *)
Lemma C2_filter_taps_bounded_witness :
  Rabs (nth 3 (snd (moog_filter_process (repeat 1 (Z.to_nat 10000))
                      (repeat 0 6) 10000 (20 * Rpower 1000 0.5) 1
                      44100)) 0) <= 4 /\
  Rabs (nth 3 (filter_prev
                 (filter_run 44100
                    (map (fun x => (0.5, x)) (repeat 1 (Z.to_nat 10000)))
                    (inst_engine resonant_instance))) 0) <= 4.
Proof.
  assert (Hin : Forall (fun x => Rabs x <= 1) (repeat 1 (Z.to_nat 10000))).
  { apply Forall_forall. intros x Hx. apply list_elem_of_In in Hx.
    apply repeat_spec in Hx. subst x. rewrite Rabs_R1. lra. }
  destruct resonant_instance_facts as (Hres & Hfp).
  generalize dependent (inst_engine resonant_instance). intros e Hres Hfp.
  split.
  - pose proof (proj1 (proj2 (proj2 C2_filter_taps_bounded)) 0.5 1 44100
                  (repeat 1 (Z.to_nat 10000)) 10000%Z
                  ltac:(lra) ltac:(lra) Hin) as H.
    cbv zeta in H. exact (proj1 H 3%nat).
  - refine (proj2 (proj2 (proj2 C2_filter_taps_bounded)) 0.5 44100
              (repeat 1 (Z.to_nat 10000)) e _ _ Hfp Hin 3%nat).
    + lra.
    + rewrite Hres. lra.
Defined.

(** ** What the sample loop leaves alone *)

Lemma same_voice_refl e : same_voice e e.
Proof. unfold same_voice. tauto. Qed.

Lemma same_voice_trans e1 e2 e3 :
  same_voice e1 e2 -> same_voice e2 e3 -> same_voice e1 e3.
Proof.
  unfold same_voice.
  intros (A1 & A2 & A3 & A4 & A5 & A6 & A7 & A8 & A9 & A10)
         (B1 & B2 & B3 & B4 & B5 & B6 & B7 & B8 & B9 & B10).
  repeat split; congruence.
Qed.

Lemma update_glide_voice gr e : same_voice e (update_glide gr e).
Proof.
  unfold update_glide, same_voice.
  destruct (Rltb 0.01 (Rabs (period e - glide_period e))); cbn; tauto.
Qed.

Lemma update_lfo_voice li e : same_voice e (update_lfo li e).
Proof.
  unfold update_lfo, same_voice. cbn.
  destruct (Rleb 1 (lfo_phase e + li)); cbn; tauto.
Qed.

Lemma process_envelopes_voice sr e :
  same_voice e (fst (fst (process_envelopes sr e))).
Proof.
  unfold process_envelopes.
  destruct (envelope_process (amp_env e) (amp_attack e) (amp_decay e)
              (amp_sustain e) (amp_release e) sr) as [env1 a].
  cbn -[envelope_process].
  destruct (envelope_process (filt_env e) (filt_attack e) (filt_decay e)
              (filt_sustain e) (filt_release e) sr) as [env2 f].
  unfold same_voice. cbn. tauto.
Qed.

Lemma add_noise_voice e sample : same_voice e (fst (add_noise e sample)).
Proof.
  unfold add_noise. destruct (Rltb 0.001 (noise_volume e));
    [|apply same_voice_refl].
  destruct (noise_sample (noise_seed e)). unfold same_voice. cbn. tauto.
Qed.

Lemma ladder_filter_voice sr cn sample e :
  same_voice e (ladder_filter sr cn sample e).
Proof. unfold same_voice, ladder_filter. cbn. tauto. Qed.

Lemma render_sample_voice sr br gr li e :
  same_voice e (fst (render_sample sr br gr li e)).
Proof.
  unfold render_sample.
  pose proof (update_glide_voice gr e) as H1.
  set (e1 := update_glide gr e) in *.
  pose proof (update_lfo_voice li e1) as H2.
  set (e2 := update_lfo li e1) in *.
  pose proof (process_envelopes_voice sr e2) as H3.
  destruct (process_envelopes sr e2) as [[e3 a] f]. cbn [fst] in H3.
  set (s := osc_loop e3 _ _ _ _).
  pose proof (add_noise_voice e3 s) as H4.
  destruct (add_noise e3 s) as [e4 s']. cbn [fst] in H4.
  set (e5 := ladder_filter _ _ _ e4).
  pose proof (ladder_filter_voice sr
                (modulated_cutoff e4 f (lfo_value e2))
                (s' * (a * (1 - velocity_sensitivity e3 +
                            velocity_sensitivity e3 * velocity e3))) e4)
    as H5.
  cbn [fst].
  assert (H6 : same_voice e5 (set_counter (counter e5 + 1) e5))
    by (unfold same_voice; cbn; tauto).
  eauto using same_voice_trans.
Qed.

Lemma render_loop_voice sr br gr li k :
  forall e output i,
  same_voice e (fst (render_loop sr br gr li e output i k)).
Proof.
  induction k as [|k IH]; intros e output i; [apply same_voice_refl|].
  cbn [render_loop].
  pose proof (render_sample_voice sr br gr li e) as Hs.
  destruct (render_sample sr br gr li e) as [e' v]. cbn [fst] in Hs.
  eapply same_voice_trans; [exact Hs | apply IH].
Qed.

(** The engine after the loop, for an invariant indexed by the number of
    samples rendered. *)
Lemma render_loop_inv (Inv : nat -> moog_engine_t -> Prop) sr br gr li :
  (forall k e, Inv k e -> Inv (S k) (fst (render_sample sr br gr li e))) ->
  forall n e output i k,
  Inv k e -> Inv (k + n)%nat (fst (render_loop sr br gr li e output i n)).
Proof.
  intros Hstep. induction n as [|n IH]; intros e output i k He.
  - now rewrite Nat.add_0_r.
  - cbn [render_loop]. pose proof (Hstep k e He) as He'.
    destruct (render_sample sr br gr li e) as [e' v]. cbn [fst] in He'.
    rewrite Nat.add_succ_r. apply (IH e' _ (S i) (S k) He').
Qed.

(** What one iteration does to the period, the LFO phase and the sample
    counter. *)
Lemma render_sample_motion sr br gr li e :
  let e' := fst (render_sample sr br gr li e) in
  period e' = period (update_glide gr e) /\
  lfo_phase e' = lfo_phase (update_lfo li e) /\
  counter e' = counter e + 1.
Proof.
  unfold render_sample.
  assert (H1 : lfo_phase (update_glide gr e) = lfo_phase e /\
               counter (update_glide gr e) = counter e).
  { unfold update_glide.
    now destruct (Rltb 0.01 (Rabs (period e - glide_period e))). }
  set (e1 := update_glide gr e) in *.
  assert (H2 : period (update_lfo li e1) = period e1 /\
               lfo_phase (update_lfo li e1) = lfo_phase (update_lfo li e) /\
               counter (update_lfo li e1) = counter e1).
  { unfold update_lfo. cbn. destruct H1 as [-> _].
    now destruct (Rleb 1 (lfo_phase e + li)). }
  set (e2 := update_lfo li e1) in *.
  assert (H3 : let e3 := fst (fst (process_envelopes sr e2)) in
               period e3 = period e2 /\ lfo_phase e3 = lfo_phase e2 /\
               counter e3 = counter e2).
  { unfold process_envelopes.
    destruct (envelope_process (amp_env e2) _ _ _ _ _) as [env1 a].
    cbn -[envelope_process].
    now destruct (envelope_process (filt_env e2) _ _ _ _ _). }
  cbv zeta in H3.
  destruct (process_envelopes sr e2) as [[e3 a] f]. cbn [fst] in H3.
  set (s := osc_loop e3 _ _ _ _).
  assert (H4 : let e4 := fst (add_noise e3 s) in
               period e4 = period e3 /\ lfo_phase e4 = lfo_phase e3 /\
               counter e4 = counter e3).
  { unfold add_noise. destruct (Rltb 0.001 (noise_volume e3)); [|easy].
    now destruct (noise_sample (noise_seed e3)). }
  cbv zeta in H4.
  destruct (add_noise e3 s) as [e4 s']. cbn [fst] in H4.
  cbn.
  destruct H1 as [_ H1], H2 as (H2 & H2' & H2''), H3 as (H3 & H3' & H3''),
    H4 as (H4 & H4' & H4'').
  repeat split; congruence.
Qed.

(** The value that one iteration stores in the output. *)
Lemma render_sample_value sr br gr li e :
  snd (render_sample sr br gr li e) =
  nth 4 (filter_prev (fst (render_sample sr br gr li e))) 0 *
  master_volume e.
Proof.
  unfold render_sample.
  pose proof (update_glide_voice gr e) as (H1 & _).
  set (e1 := update_glide gr e) in *.
  pose proof (update_lfo_voice li e1) as (H2 & _).
  set (e2 := update_lfo li e1) in *.
  pose proof (process_envelopes_voice sr e2) as (H3 & _).
  destruct (process_envelopes sr e2) as [[e3 a] f]. cbn [fst] in H3.
  set (s := osc_loop e3 _ _ _ _).
  pose proof (add_noise_voice e3 s) as (H4 & _).
  destruct (add_noise e3 s) as [e4 s']. cbn [fst] in H4.
  cbn. unfold master_volume. now rewrite H4, H3, H2, H1.
Qed.


(** ** Block rendering *)

Lemma drop_repeat {A} (x : A) n m :
  drop n (repeat x m) = repeat x (m - n).
Proof.
  revert n. induction m as [|m IH]; intros [|n]; cbn; try reflexivity.
  apply IH.
Qed.

Lemma render_loop_output sr br gr li n :
  forall (e : moog_engine_t) (output : list R) (i : nat),
  (i + n <= length output)%nat ->
  exists samples,
    length samples = n /\
    snd (render_loop sr br gr li e output i n) =
    take i output ++ samples ++ drop (i + n) output.
Proof.
  induction n as [|n IH]; intros e output i Hlen.
  - exists []. split; [reflexivity|]. cbn. rewrite Nat.add_0_r.
    now rewrite take_drop.
  - cbn [render_loop]. destruct (render_sample sr br gr li e) as [e' v].
    destruct (IH e' (<[i := v]> output) (S i)) as (samples & Hs & Heq).
    { rewrite length_insert. lia. }
    exists (v :: samples). split; [cbn; lia|].
    rewrite Heq. rewrite drop_insert_lt by lia.
    destruct (lookup_lt_is_Some_2 (<[i := v]> output) i) as [x Hx];
      [rewrite length_insert; lia|].
    rewrite list_lookup_insert_eq in Hx by lia. inversion Hx; subst x.
    erewrite take_S_r by (apply list_lookup_insert_eq; lia).
    rewrite take_insert_ge by lia.
    rewrite <- app_assoc. cbn. now rewrite Nat.add_succ_r.
Qed.

Lemma render_output e (output : list R) frames :
  (0 <= frames <= Z.of_nat (length output))%Z ->
  exists samples,
    length samples = Z.to_nat frames /\
    snd (moog_engine_render e output frames) =
    samples ++ drop (Z.to_nat frames) output.
Proof.
  intros Hf. unfold moog_engine_render.
  destruct (render_loop_output (sample_rate e) (render_bend_ratio e)
              (render_glide_rate e frames) (render_lfo_inc e)
              (Z.to_nat frames) e output 0) as (samples & Hs & Heq);
    [lia|].
  exists samples. split; [exact Hs|]. rewrite Heq. reflexivity.
Qed.

Lemma render_values_length sr br gr li n :
  forall e, length (render_values sr br gr li e n) = n.
Proof.
  induction n as [|n IH]; intros e; [reflexivity|].
  cbn [render_values]. destruct (render_sample sr br gr li e) as [e' v].
  cbn. now rewrite IH.
Qed.

(** The loop replaces cells [i .. i + n - 1] by the values it computes, in
    order, and touches no other cell. *)
Lemma render_loop_values sr br gr li n :
  forall (e : moog_engine_t) (output : list R) (i : nat),
  (i + n <= length output)%nat ->
  render_loop sr br gr li e output i n =
  (render_state sr br gr li e n,
   take i output ++ render_values sr br gr li e n ++ drop (i + n) output).
Proof.
  induction n as [|n IH]; intros e output i Hlen.
  - cbn. now rewrite Nat.add_0_r, take_drop.
  - cbn [render_loop render_values render_state].
    destruct (render_sample sr br gr li e) as [e' v]. cbn [fst].
    rewrite IH by (rewrite length_insert; lia). f_equal.
    rewrite drop_insert_lt by lia.
    erewrite take_S_r by (apply list_lookup_insert_eq; lia).
    rewrite take_insert_ge by lia.
    rewrite <- app_assoc. cbn. now rewrite Nat.add_succ_r.
Qed.

(** Without room for [n] samples ([frames] not positive) nothing is
    rendered. *)
Lemma render_nothing e (output : list R) frames :
  (frames <= 0)%Z -> moog_engine_render e output frames = (e, output).
Proof.
  intros H. unfold moog_engine_render.
  replace (Z.to_nat frames) with 0%nat by lia. reflexivity.
Qed.

(** The [k]-th value is the final filter tap after [k + 1] iterations times
    the master volume. *)
Lemma render_values_nth sr br gr li n :
  forall e k, (k < n)%nat ->
  nth k (render_values sr br gr li e n) 0 =
  nth 4 (filter_prev (render_state sr br gr li e (S k))) 0 *
  master_volume e.
Proof.
  induction n as [|n IH]; intros e k Hk; [lia|].
  cbn [render_values render_state].
  pose proof (render_sample_value sr br gr li e) as Hv.
  pose proof (render_sample_voice sr br gr li e) as (Hp & _).
  destruct (render_sample sr br gr li e) as [e' v]. cbn [fst snd] in *.
  destruct k as [|k]; cbn [nth render_state].
  - exact Hv.
  - rewrite IH by lia. unfold master_volume. now rewrite Hp.
Qed.

Lemma render_state_counter sr br gr li n :
  forall e, counter (render_state sr br gr li e n) = counter e + INR n.
Proof.
  induction n as [|n IH]; intros e.
  - cbn. ring.
  - cbn [render_state]. rewrite IH, S_INR.
    destruct (render_sample_motion sr br gr li e) as (_ & _ & ->). ring.
Qed.

Lemma render_engine_values e (output : list R) frames :
  (0 <= frames <= Z.of_nat (length output))%Z ->
  moog_engine_render e output frames =
  (rendered_engine e frames (Z.to_nat frames),
   rendered_samples e frames ++ drop (Z.to_nat frames) output).
Proof.
  intros Hf. unfold moog_engine_render, rendered_engine, rendered_samples.
  now rewrite render_loop_values by lia.
Qed.

(** C8: [v2_render_block] on an instance always returns (there is no error
    result); a request for more than 256 frames is rendered exactly as a
    request for 256; and for 0 <= frames <= 256 the mono buffer receives
    exactly the [frames] samples that the sample loop computes from the
    instance's engine, in order, in cells 0 .. frames - 1, its other cells
    keep the value they had, and the instance gets the engine that these
    [frames] iterations leave.  The same holds for [moog_engine_render] on
    any output buffer that has room for [frames] samples: cell [k] below
    [frames] receives the final filter tap after [k + 1] iterations times
    the master volume, later cells are untouched, and the sample counter of
    the engine has advanced by [frames]. *)
Theorem C8_render_frames (inst : moog_instance_t) (out : list Z)
    (frames : Z) :
  (exists inst' out' mono,
     v2_render_block (Some inst) out frames = (Some inst', out', mono) /\
     length mono = 256%nat) /\
  ((256 < frames)%Z ->
   v2_render_block (Some inst) out frames =
   v2_render_block (Some inst) out 256) /\
  ((0 <= frames <= 256)%Z ->
   snd (v2_render_block (Some inst) out frames) =
     rendered_samples (inst_engine inst) frames ++
     repeat 0 (256 - Z.to_nat frames) /\
   fst (fst (v2_render_block (Some inst) out frames)) =
     Some (set_inst_engine
             (rendered_engine (inst_engine inst) frames (Z.to_nat frames))
             inst)) /\
  (forall (e : moog_engine_t) (output : list R),
   (0 <= frames <= Z.of_nat (length output))%Z ->
   moog_engine_render e output frames =
     (rendered_engine e frames (Z.to_nat frames),
      rendered_samples e frames ++ drop (Z.to_nat frames) output) /\
   length (rendered_samples e frames) = Z.to_nat frames /\
   (forall k, (k < Z.to_nat frames)%nat ->
      nth k (snd (moog_engine_render e output frames)) 0 =
      nth 4 (filter_prev (rendered_engine e frames (S k))) 0 *
      master_volume e) /\
   counter (fst (moog_engine_render e output frames)) =
     counter e + INR (Z.to_nat frames)).
Proof.
  split; [|split; [|split]].
  - unfold v2_render_block.
    set (f := if (frames >? 256)%Z then 256%Z else frames).
    assert (Hf256 : (f <= 256)%Z)
      by (unfold f; destruct (Z.gtb_spec frames 256); lia).
    assert (Hlen : length (snd (moog_engine_render (inst_engine inst)
                                  (repeat 0 256) f)) = 256%nat).
    { destruct (Z.le_gt_cases 0 f) as [Hpos|Hneg].
      - rewrite render_engine_values by (rewrite repeat_length; lia).
        cbn [snd]. unfold rendered_samples.
        rewrite length_app, render_values_length, length_drop,
          repeat_length. lia.
      - rewrite render_nothing by lia. apply repeat_length. }
    destruct (moog_engine_render (inst_engine inst) (repeat 0 256) f)
      as [e mono].
    eexists _, _, mono. split; [reflexivity | exact Hlen].
  - intros Hbig. unfold v2_render_block.
    replace (frames >? 256)%Z with true
      by (symmetry; apply Z.gtb_gt; lia).
    reflexivity.
  - intros Hf. unfold v2_render_block.
    replace (frames >? 256)%Z with false
      by (symmetry; rewrite Z.gtb_ltb; apply Z.ltb_ge; lia).
    rewrite render_engine_values by (rewrite repeat_length; lia).
    cbn [fst snd]. now rewrite drop_repeat.
  - intros e output Hf.
    rewrite render_engine_values by exact Hf. cbn [fst snd].
    split; [reflexivity|]. split; [apply render_values_length|]. split.
    + intros k Hk. unfold rendered_samples, rendered_engine.
      rewrite app_nth1 by (rewrite render_values_length; exact Hk).
      now apply render_values_nth.
    + apply render_state_counter.
Qed.

(** The theorem on a fresh instance asked for 1000 frames, and for 128. *)
Lemma C8_render_frames_witness :
  v2_render_block (Some v2_create_instance) (repeat 0%Z 512) 1000 =
  v2_render_block (Some v2_create_instance) (repeat 0%Z 512) 256 /\
  snd (v2_render_block (Some v2_create_instance) (repeat 0%Z 512) 128) =
  rendered_samples (inst_engine v2_create_instance) 128 ++ repeat 0 128 /\
  length (rendered_samples (inst_engine v2_create_instance) 128) = 128%nat.
Proof.
  split; [|split].
  - apply (C8_render_frames v2_create_instance (repeat 0%Z 512) 1000). lia.
  - apply (C8_render_frames v2_create_instance (repeat 0%Z 512) 128). lia.
  - refine (proj1 (proj2 (proj2 (proj2 (proj2
              (C8_render_frames v2_create_instance (repeat 0%Z 512) 128)))
              (inst_engine v2_create_instance) (repeat 0 256) _))).
    rewrite repeat_length. lia.
Defined.

(** * Further properties of the engine and the plugin layer *)

(** ** Gate, key stack and release *)

Lemma note_off_gate_on e note :
  gate_on (moog_engine_note_off e note) =
  if (key_stack_count (moog_engine_note_off e note) >? 0)%Z
  then gate_on e else 0%Z.
Proof. note_off_cases e note; reflexivity. Qed.

Lemma held_keys_nil_iff e :
  key_stack_ok e -> (held_keys e = [] <-> key_stack_count e = 0%Z).
Proof.
  intros [Hlen Hc]. unfold held_keys. split.
  - intros Hnil. apply (f_equal length) in Hnil.
    rewrite length_take in Hnil. cbn in Hnil. lia.
  - intros ->. reflexivity.
Qed.

Lemma gate_tracks_keys_note_on e note vel :
  gate_tracks_keys e -> gate_tracks_keys (moog_engine_note_on e note vel).
Proof.
  intros (Hok & Hg01 & Hiff).
  pose proof (key_stack_ok_note_on e note vel Hok) as Hok'.
  assert (Hg : gate_on (moog_engine_note_on e note vel) = 1%Z).
  { destruct Hg01 as [Hg|Hg].
    - now destruct (note_on_gate_off e note vel Hg) as [-> _].
    - destruct (note_on_gate_on e note vel) as [-> _]; [lia | exact Hg]. }
  split; [exact Hok'|]. split; [now right|].
  rewrite Hg. split; [discriminate|].
  intros Hnil. apply held_keys_nil_iff in Hnil; [|exact Hok'].
  rewrite note_on_key_stack_count in Hnil. unfold MOOG_MAX_KEYS in Hnil.
  destruct Hok as [_ Hc].
  destruct (Z.ltb_spec (key_stack_count e) 16); lia.
Qed.

Lemma gate_tracks_keys_note_off e note :
  gate_tracks_keys e -> gate_tracks_keys (moog_engine_note_off e note).
Proof.
  intros (Hok & Hg01 & Hiff).
  pose proof (key_stack_ok_note_off e note Hok) as Hok'.
  pose proof (held_keys_nil_iff _ Hok') as Hnil'.
  pose proof (held_keys_nil_iff _ Hok) as Hnil.
  pose proof (note_off_key_stack_count e note) as Hcnt.
  split; [exact Hok'|]. rewrite note_off_gate_on.
  destruct Hok' as [_ Hc'].
  destruct (Z.gtb_spec (key_stack_count (moog_engine_note_off e note)) 0)
    as [Hpos|Hz].
  - assert (Hne : key_stack_count e <> 0%Z).
    { destruct (find_key _ _ _ _); lia. }
    assert (Hg1 : gate_on e = 1%Z).
    { destruct Hg01 as [Hg|Hg]; [|exact Hg].
      exfalso. apply Hne, Hnil, Hiff, Hg. }
    split; [now right|]. rewrite Hg1. split; [discriminate|].
    intros Hh. apply Hnil' in Hh. lia.
  - split; [now left|]. split; [|reflexivity].
    intros _. apply Hnil'. lia.
Qed.

Lemma gate_tracks_keys_same_voice e e' :
  same_voice e e' -> gate_tracks_keys e -> gate_tracks_keys e'.
Proof.
  intros (_ & Hg & Hks & Hkc & _). unfold gate_tracks_keys, key_stack_ok,
    held_keys. now rewrite Hg, Hks, Hkc.
Qed.

Lemma reachable_key_stack_ok e : reachable e -> key_stack_ok e.
Proof.
  induction 1; auto using key_stack_ok_init, key_stack_ok_reset,
    key_stack_ok_note_on, key_stack_ok_note_off, key_stack_ok_all_notes_off.
  destruct (render_loop_voice (sample_rate e) (render_bend_ratio e)
              (render_glide_rate e frames) (render_lfo_inc e) k e output 0)
    as (_ & _ & Hks & Hkc & _).
  unfold key_stack_ok. now rewrite Hks, Hkc.
Qed.

(** X1: in every reachable engine state the gate flag is 0 or 1, and it is
    off exactly when no key is held. *)
Theorem gate_on_iff_keys_held (e : moog_engine_t) :
  reachable e ->
  (gate_on e = 0%Z \/ gate_on e = 1%Z) /\
  (gate_on e = 0%Z <-> held_keys e = []).
Proof.
  intros Hr. enough (H : gate_tracks_keys e) by apply H.
  induction Hr as [e0|e _ IH|e note vel _ IH|e note _ IH|e bend _ IH
                  |e amount _ IH|e _ IH|e p _ IH Hsr Hrange
                  |e output frames k _ IH Hk]; try exact IH.
  - split; [apply key_stack_ok_init|]. split; [now left|]. now split.
  - split; [now apply key_stack_ok_reset; apply IH|].
    split; [now left|]. now split.
  - now apply gate_tracks_keys_note_on.
  - now apply gate_tracks_keys_note_off.
  - split; [now apply key_stack_ok_all_notes_off; apply IH|].
    split; [now left|]. now split.
  - eapply gate_tracks_keys_same_voice; [apply render_loop_voice | exact IH].
Qed.

(** The theorem after pressing 60 and 64 and releasing 60. *)
Lemma gate_on_iff_keys_held_witness :
  gate_on
    (moog_engine_note_off
       (moog_engine_note_on
          (moog_engine_note_on (moog_engine_init engine_zero) 60 1) 64 1)
       60) = 0%Z <->
  held_keys
    (moog_engine_note_off
       (moog_engine_note_on
          (moog_engine_note_on (moog_engine_init engine_zero) 60 1) 64 1)
       60) = [].
Proof.
  apply gate_on_iff_keys_held.
  apply reach_note_off, reach_note_on, reach_note_on, reach_init.
Defined.

Lemma note_off_envs e note :
  let e' := moog_engine_note_off e note in
  (key_stack_count e' >? 0)%Z = false ->
  amp_env e' =
    match amp_env_state e with
    | ENV_OFF => amp_env e
    | _ => env_released (amp_env e)
    end /\
  filt_env e' =
    match filt_env_state e with
    | ENV_OFF => filt_env e
    | _ => env_released (filt_env e)
    end.
Proof.
  cbv zeta. rewrite note_off_key_stack_count. unfold moog_engine_note_off.
  destruct (find_key (key_stack e) note 0 (Z.to_nat (key_stack_count e)));
    cbn; intros ->;
    destruct (env_state (amp_env e)); cbn;
    destruct (env_state (filt_env e)); cbn; now split.
Qed.

Lemma note_off_envs_held e note :
  let e' := moog_engine_note_off e note in
  (key_stack_count e' >? 0)%Z = true ->
  amp_env e' = amp_env e /\ filt_env e' = filt_env e.
Proof.
  cbv zeta. rewrite note_off_key_stack_count. unfold moog_engine_note_off.
  destruct (find_key (key_stack e) note 0 (Z.to_nat (key_stack_count e)));
    cbn; intros ->; destruct (Rltb 0.001 (glide e)); now split.
Qed.

Lemma note_off_last_key (e : moog_engine_t) (note : Z) :
  key_stack_ok e -> remove_first note (held_keys e) = [] ->
  let e' := moog_engine_note_off e note in
  gate_on e' = 0%Z /\ held_keys e' = [] /\
  amp_env e' =
    match amp_env_state e with
    | ENV_OFF => amp_env e
    | _ => env_released (amp_env e)
    end /\
  filt_env e' =
    match filt_env_state e with
    | ENV_OFF => filt_env e
    | _ => env_released (filt_env e)
    end /\
  period e' = period e /\ glide_period e' = glide_period e /\
  current_note e' = current_note e.
Proof.
  intros Hok Hrem e'. unfold e'.
  assert (Hheld : held_keys (moog_engine_note_off e note) = [])
    by now rewrite held_keys_note_off.
  assert (Hc : (key_stack_count (moog_engine_note_off e note) >? 0)%Z
               = false).
  { apply held_keys_nil_iff in Hheld; [|now apply key_stack_ok_note_off].
    now rewrite Hheld. }
  destruct (note_off_envs e note Hc) as [Ha Hf].
  pose proof (note_off_period e note) as Hp.
  pose proof (note_off_glide_period e note) as Hgp.
  pose proof (note_off_current_note e note) as Hcn.
  cbv zeta in Hp, Hgp, Hcn. rewrite Hc in Hp, Hgp, Hcn.
  rewrite note_off_gate_on, Hc. now repeat split.
Qed.

(** X2: releasing the only held key turns the gate off and puts each
    envelope that is not off into Release, with the release anchor set to
    the current level and the counter at 0 (an envelope that is off stays
    as it is); the sounding period, the glide target and the current note
    are left as they were. *)
Theorem note_off_last_key_releases (e : moog_engine_t) (note : Z) :
  key_stack_ok e -> remove_first note (held_keys e) = [] ->
  let e' := moog_engine_note_off e note in
  gate_on e' = 0%Z /\ held_keys e' = [] /\
  amp_env e' =
    match amp_env_state e with
    | ENV_OFF => amp_env e
    | _ => env_released (amp_env e)
    end /\
  filt_env e' =
    match filt_env_state e with
    | ENV_OFF => filt_env e
    | _ => env_released (filt_env e)
    end /\
  period e' = period e /\ glide_period e' = glide_period e /\
  current_note e' = current_note e.
Proof.
  apply note_off_last_key.
Qed.

(** The theorem at the release of note 60, the only key held. *)
Lemma note_off_last_key_releases_witness :
  gate_on
    (moog_engine_note_off
       (moog_engine_note_on (moog_engine_init engine_zero) 60 1) 60) = 0%Z /\
  amp_env_state
    (moog_engine_note_off
       (moog_engine_note_on (moog_engine_init engine_zero) 60 1) 60)
  = ENV_RELEASE.
Proof.
  assert (Hok : key_stack_ok
                  (moog_engine_note_on (moog_engine_init engine_zero) 60 1))
    by apply key_stack_ok_note_on, key_stack_ok_init.
  pose proof (note_off_last_key_releases
                (moog_engine_note_on (moog_engine_init engine_zero) 60 1) 60
                Hok) as H.
  cbv zeta in H. destruct H as (Hg & _ & Ha & _).
  { rewrite held_keys_note_on by apply key_stack_ok_init. reflexivity. }
  split; [exact Hg|]. rewrite Ha.
  destruct (note_on_gate_off (moog_engine_init engine_zero) 60 1 eq_refl)
    as (_ & -> & _). reflexivity.
Defined.

(** ** The envelope as a state machine *)

(** X3: one call of [envelope_process] keeps the stage or moves it one
    step along Attack -> Decay -> Sustain and Release -> Off (never into
    Attack or Release, which only note events enter); it never touches the
    two anchor levels; and right after a stage change the counter reads 1
    (it is reset to 0 and then incremented in the same call). *)
Theorem envelope_process_stages (env : moog_env_t)
    (attack decay sustain release sr : R) :
  let env' := fst (envelope_process env attack decay sustain release sr) in
  env_next (env_state env) (env_state env') /\
  env_attack_level env' = env_attack_level env /\
  env_release_level env' = env_release_level env /\
  (env_state env' <> env_state env -> env_counter env' = 1).
Proof.
  unfold envelope_process, env_next. cbv zeta.
  destruct (env_state env) eqn:Hst; cbn;
    repeat match goal with
    | |- context [Rleb 1 ?x] => destruct (Rleb 1 x)
    end; cbn; rewrite ?Hst; repeat split; auto; try congruence; intros; lra.
Qed.

(** The theorem at the end of an attack: with attack 0 at 44100 Hz the
    attack lasts 44.1 samples, so the call at counter 100 enters the decay
    and leaves the counter at 1. *)
Lemma envelope_process_stages_witness :
  env_counter
    (fst (envelope_process
            {| env_state := ENV_ATTACK; env_level := 0.5;
               env_attack_level := 0; env_release_level := 0;
               env_counter := 100 |} 0 0.3 0.7 0.2 44100)) = 1.
Proof.
  refine (proj2 (proj2 (proj2 (envelope_process_stages _ 0 0.3 0.7 0.2
                                 44100))) _).
  unfold envelope_process. cbn [env_state env_counter].
  rewrite (proj2 (Rleb_true 1 (100 / param_to_time 0 44100))).
  - cbn. discriminate.
  - unfold param_to_time. apply (Rmult_le_reg_r ((0.001 + 0 * 0 * 5) * 44100));
      [lra|]. field_simplify; lra.
Defined.


Lemma envelope_first_attack_sample env attack decay sustain release sr :
  env_level
    (fst (envelope_process (env_triggered env) attack decay sustain release
            sr)) = env_level env.
Proof.
  unfold envelope_process, env_triggered. cbn.
  replace (0 / param_to_time attack sr) with 0 by (unfold Rdiv; lra).
  destruct (Rleb 1 0) eqn:Hb; [apply Rleb_true in Hb; lra|]. cbn. lra.
Qed.

Lemma envelope_first_release_sample env attack decay sustain release sr :
  env_level
    (fst (envelope_process (env_released env) attack decay sustain release
            sr)) = env_level env.
Proof.
  unfold envelope_process, env_released. cbn.
  replace (0 / param_to_time release sr) with 0 by (unfold Rdiv; lra).
  destruct (Rleb 1 0) eqn:Hb; [apply Rleb_true in Hb; lra|]. cbn. lra.
Qed.

(** X4: no click at a trigger.  When a note-on arrives with the gate off,
    the first sample rendered afterwards has both envelopes at exactly the
    level they had before the note-on (the attack starts from the current
    level, not from zero). *)
Theorem note_on_smooth_retrigger (e : moog_engine_t) (note : Z)
    (vel sr br gr li : R) :
  gate_on e = 0%Z ->
  let e' := fst (render_sample sr br gr li (moog_engine_note_on e note vel)) in
  amp_env_level e' = amp_env_level e /\
  filt_env_level e' = filt_env_level e.
Proof.
  intros Hg e'. unfold e'.
  destruct (render_sample_envs sr br gr li (moog_engine_note_on e note vel))
    as (-> & -> & _).
  destruct (note_on_gate_off e note vel Hg) as (_ & -> & ->).
  now rewrite !envelope_first_attack_sample.
Qed.

(** The theorem at a press on a freshly initialized engine. *)
Lemma note_on_smooth_retrigger_witness :
  amp_env_level
    (fst (render_sample 44100 1 1 0
            (moog_engine_note_on (moog_engine_init engine_zero) 60 1))) =
  amp_env_level (moog_engine_init engine_zero).
Proof.
  apply (note_on_smooth_retrigger (moog_engine_init engine_zero) 60 1
           44100 1 1 0).
  reflexivity.
Defined.

(** X5: no click at a release.  In a reachable state, when the note-off
    of the last held key puts the envelopes into Release, the first sample
    rendered afterwards has both envelopes at exactly the level they had
    before the note-off. *)
Theorem note_off_smooth_release (e : moog_engine_t) (note : Z)
    (sr br gr li : R) :
  reachable e -> remove_first note (held_keys e) = [] ->
  let e' := fst (render_sample sr br gr li (moog_engine_note_off e note)) in
  amp_env_level e' = amp_env_level e /\
  filt_env_level e' = filt_env_level e.
Proof.
  intros Hr Hrem e'. unfold e'.
  pose proof (reachable_envelopes_ok e Hr)
    as ((_ & _ & _ & _ & Haoff) & (_ & _ & _ & _ & Hfoff) & _).
  pose proof (reachable_key_stack_ok e Hr) as Hok.
  destruct (note_off_last_key e note Hok Hrem)
    as (_ & _ & Ha & Hf & _).
  destruct (render_sample_envs sr br gr li (moog_engine_note_off e note))
    as (-> & -> & _).
  rewrite Ha, Hf. split.
  - destruct (env_state (amp_env e)) eqn:Hst;
      try apply envelope_first_release_sample.
    unfold envelope_process. rewrite Hst. cbn. now rewrite Haoff.
  - destruct (env_state (filt_env e)) eqn:Hst;
      try apply envelope_first_release_sample.
    unfold envelope_process. rewrite Hst. cbn. now rewrite Hfoff.
Qed.

(** The theorem at the release of the only held key, note 60. *)
Lemma note_off_smooth_release_witness :
  amp_env_level
    (fst (render_sample 44100 1 1 0
            (moog_engine_note_off
               (moog_engine_note_on (moog_engine_init engine_zero) 60 1)
               60))) =
  amp_env_level (moog_engine_note_on (moog_engine_init engine_zero) 60 1).
Proof.
  apply (note_off_smooth_release
           (moog_engine_note_on (moog_engine_init engine_zero) 60 1) 60
           44100 1 1 0).
  - apply reach_note_on, reach_init.
  - rewrite held_keys_note_on by apply key_stack_ok_init. reflexivity.
Defined.

(** *** How long the stages last *)

Lemma env_run_add n m attack decay sustain release sr env :
  env_run (n + m) attack decay sustain release sr env =
  env_run m attack decay sustain release sr
    (env_run n attack decay sustain release sr env).
Proof.
  revert env. induction n as [|n IH]; intros env; [reflexivity|].
  cbn. apply IH.
Qed.

Lemma progress_ge_1 c t : 0 < t -> (1 <= c / t <-> t <= c).
Proof.
  intros Ht. split; intros H.
  - apply (Rmult_le_compat_r t) in H; [|lra].
    unfold Rdiv in H. rewrite Rmult_assoc, Rinv_l in H by lra. lra.
  - apply (Rmult_le_reg_r t); [exact Ht|].
    unfold Rdiv. rewrite Rmult_assoc, Rinv_l by lra. lra.
Qed.

Lemma attack_finishes attack decay sustain release sr :
  0 < sr ->
  forall (N : nat) (env : moog_env_t),
  env_state env = ENV_ATTACK -> 0 <= env_counter env ->
  param_to_time attack sr - env_counter env <= INR N ->
  exists n, (1 <= n <= N + 1)%nat /\
    let env' := env_run n attack decay sustain release sr env in
    env_state env' = ENV_DECAY /\ env_counter env' = 1 /\ env_level env' = 1.
Proof.
  intros Hsr. pose proof (param_to_time_pos attack sr Hsr) as HT.
  induction N as [|N IH]; intros env Hst Hc Hle.
  - exists 1%nat. split; [lia|]. cbn. unfold envelope_process. rewrite Hst.
    cbn in Hle.
    assert (Hb : Rleb 1 (env_counter env / param_to_time attack sr) = true)
      by (apply Rleb_true, progress_ge_1; lra).
    rewrite Hb. cbn. repeat split; lra.
  - destruct (Rle_lt_dec (param_to_time attack sr) (env_counter env))
      as [Hdone|Hnot].
    + exists 1%nat. split; [lia|]. cbn. unfold envelope_process. rewrite Hst.
      assert (Hb : Rleb 1 (env_counter env / param_to_time attack sr) = true)
        by (apply Rleb_true, progress_ge_1; lra).
      rewrite Hb. cbn. repeat split; lra.
    + assert (Hb : Rleb 1 (env_counter env / param_to_time attack sr)
                   = false).
      { apply Rleb_false. apply Rnot_le_lt. intros H.
        apply (proj1 (progress_ge_1 _ _ HT)) in H. lra. }
      destruct (IH (fst (envelope_process env attack decay sustain release
                           sr))) as (n & Hn & Hres).
      * unfold envelope_process. rewrite Hst, Hb. cbn. exact Hst.
      * unfold envelope_process. rewrite Hst, Hb. cbn. lra.
      * unfold envelope_process. rewrite Hst, Hb. cbn.
        rewrite S_INR in Hle. lra.
      * exists (S n). split; [lia|]. exact Hres.
Qed.

Lemma decay_finishes attack decay sustain release sr :
  0 < sr ->
  forall (N : nat) (env : moog_env_t),
  env_state env = ENV_DECAY -> 0 <= env_counter env ->
  param_to_time decay sr - env_counter env <= INR N ->
  exists n, (1 <= n <= N + 1)%nat /\
    let env' := env_run n attack decay sustain release sr env in
    env_state env' = ENV_SUSTAIN /\ env_level env' = sustain.
Proof.
  intros Hsr. pose proof (param_to_time_pos decay sr Hsr) as HT.
  induction N as [|N IH]; intros env Hst Hc Hle.
  - exists 1%nat. split; [lia|]. cbn. unfold envelope_process. rewrite Hst.
    cbn in Hle.
    assert (Hb : Rleb 1 (env_counter env / param_to_time decay sr) = true)
      by (apply Rleb_true, progress_ge_1; lra).
    rewrite Hb. cbn. now split.
  - destruct (Rle_lt_dec (param_to_time decay sr) (env_counter env))
      as [Hdone|Hnot].
    + exists 1%nat. split; [lia|]. cbn. unfold envelope_process. rewrite Hst.
      assert (Hb : Rleb 1 (env_counter env / param_to_time decay sr) = true)
        by (apply Rleb_true, progress_ge_1; lra).
      rewrite Hb. cbn. now split.
    + assert (Hb : Rleb 1 (env_counter env / param_to_time decay sr)
                   = false).
      { apply Rleb_false. apply Rnot_le_lt. intros H.
        apply (proj1 (progress_ge_1 _ _ HT)) in H. lra. }
      destruct (IH (fst (envelope_process env attack decay sustain release
                           sr))) as (n & Hn & Hres).
      * unfold envelope_process. rewrite Hst, Hb. cbn. exact Hst.
      * unfold envelope_process. rewrite Hst, Hb. cbn. lra.
      * unfold envelope_process. rewrite Hst, Hb. cbn.
        rewrite S_INR in Hle. lra.
      * exists (S n). split; [lia|]. exact Hres.
Qed.

Lemma release_finishes attack decay sustain release sr :
  0 < sr ->
  forall (N : nat) (env : moog_env_t),
  env_state env = ENV_RELEASE -> 0 <= env_counter env ->
  param_to_time release sr - env_counter env <= INR N ->
  exists n, (1 <= n <= N + 1)%nat /\
    let env' := env_run n attack decay sustain release sr env in
    env_state env' = ENV_OFF /\ env_level env' = 0.
Proof.
  intros Hsr. pose proof (param_to_time_pos release sr Hsr) as HT.
  induction N as [|N IH]; intros env Hst Hc Hle.
  - exists 1%nat. split; [lia|]. cbn. unfold envelope_process. rewrite Hst.
    cbn in Hle.
    assert (Hb : Rleb 1 (env_counter env / param_to_time release sr) = true)
      by (apply Rleb_true, progress_ge_1; lra).
    rewrite Hb. cbn. now split.
  - destruct (Rle_lt_dec (param_to_time release sr) (env_counter env))
      as [Hdone|Hnot].
    + exists 1%nat. split; [lia|]. cbn. unfold envelope_process. rewrite Hst.
      assert (Hb : Rleb 1 (env_counter env / param_to_time release sr)
                   = true)
        by (apply Rleb_true, progress_ge_1; lra).
      rewrite Hb. cbn. now split.
    + assert (Hb : Rleb 1 (env_counter env / param_to_time release sr)
                   = false).
      { apply Rleb_false. apply Rnot_le_lt. intros H.
        apply (proj1 (progress_ge_1 _ _ HT)) in H. lra. }
      destruct (IH (fst (envelope_process env attack decay sustain release
                           sr))) as (n & Hn & Hres).
      * unfold envelope_process. rewrite Hst, Hb. cbn. exact Hst.
      * unfold envelope_process. rewrite Hst, Hb. cbn. lra.
      * unfold envelope_process. rewrite Hst, Hb. cbn.
        rewrite S_INR in Hle. lra.
      * exists (S n). split; [lia|]. exact Hres.
Qed.

Lemma sustain_stays attack decay sustain release sr n :
  forall env,
  env_state env = ENV_SUSTAIN -> env_level env = sustain ->
  env_state (env_run n attack decay sustain release sr env) = ENV_SUSTAIN /\
  env_level (env_run n attack decay sustain release sr env) = sustain.
Proof.
  induction n as [|n IH]; intros env Hst Hl; [now split|].
  cbn [env_run]. apply IH; unfold envelope_process; rewrite Hst; cbn;
    [exact Hst | reflexivity].
Qed.

Lemma off_stays attack decay sustain release sr n :
  forall env,
  env_state env = ENV_OFF -> env_level env = 0 ->
  env_state (env_run n attack decay sustain release sr env) = ENV_OFF /\
  env_level (env_run n attack decay sustain release sr env) = 0.
Proof.
  induction n as [|n IH]; intros env Hst Hl; [now split|].
  cbn [env_run]. apply IH; unfold envelope_process; rewrite Hst; cbn;
    [exact Hst | reflexivity].
Qed.

Lemma env_run_reaches_sustain attack decay sustain release sr
    (Na Nd n : nat) (env : moog_env_t) :
  0 < sr -> env_state env = ENV_ATTACK -> 0 <= env_counter env ->
  param_to_time attack sr - env_counter env <= INR Na ->
  param_to_time decay sr - 1 <= INR Nd ->
  (Na + Nd + 2 <= n)%nat ->
  env_state (env_run n attack decay sustain release sr env) = ENV_SUSTAIN /\
  env_level (env_run n attack decay sustain release sr env) = sustain.
Proof.
  intros Hsr Hst Hc Ha Hd Hn.
  destruct (attack_finishes attack decay sustain release sr Hsr Na env
              Hst Hc Ha) as (n1 & Hn1 & Hdec & Hc1 & _).
  destruct (decay_finishes attack decay sustain release sr Hsr Nd
              (env_run n1 attack decay sustain release sr env) Hdec)
    as (n2 & Hn2 & Hsus & Hlev).
  { rewrite Hc1. lra. }
  { rewrite Hc1. exact Hd. }
  replace n with (n1 + (n2 + (n - n1 - n2)))%nat by lia.
  rewrite !env_run_add. now apply sustain_stays.
Qed.

Lemma env_run_reaches_off attack decay sustain release sr
    (Nr n : nat) (env : moog_env_t) :
  0 < sr -> env_state env = ENV_RELEASE -> 0 <= env_counter env ->
  param_to_time release sr - env_counter env <= INR Nr ->
  (Nr + 1 <= n)%nat ->
  env_state (env_run n attack decay sustain release sr env) = ENV_OFF /\
  env_level (env_run n attack decay sustain release sr env) = 0.
Proof.
  intros Hsr Hst Hc Hr Hn.
  destruct (release_finishes attack decay sustain release sr Hsr Nr env
              Hst Hc Hr) as (n1 & Hn1 & Hoff & Hlev).
  replace n with (n1 + (n - n1))%nat by lia.
  rewrite env_run_add. now apply off_stays.
Qed.

Lemma render_loop_envs sr br gr li k :
  forall e output i,
  amp_env (fst (render_loop sr br gr li e output i k)) =
    env_run k (amp_attack e) (amp_decay e) (amp_sustain e) (amp_release e)
      sr (amp_env e) /\
  filt_env (fst (render_loop sr br gr li e output i k)) =
    env_run k (filt_attack e) (filt_decay e) (filt_sustain e)
      (filt_release e) sr (filt_env e).
Proof.
  induction k as [|k IH]; intros e output i; [now split|].
  cbn [render_loop env_run].
  destruct (render_sample_envs sr br gr li e) as (Ha & Hf & Hp).
  destruct (render_sample sr br gr li e) as [e' v]. cbn [fst] in *.
  destruct (IH e' (<[i := v]> output) (S i)) as [IHa IHf].
  rewrite IHa, IHf, Ha, Hf, Hp. now split.
Qed.

Lemma render_blocks_envs blocks output :
  forall e,
  params (render_blocks blocks output e) = params e /\
  amp_env (render_blocks blocks output e) =
    env_run (total_frames blocks) (amp_attack e) (amp_decay e)
      (amp_sustain e) (amp_release e) (sample_rate e) (amp_env e) /\
  filt_env (render_blocks blocks output e) =
    env_run (total_frames blocks) (filt_attack e) (filt_decay e)
      (filt_sustain e) (filt_release e) (sample_rate e) (filt_env e).
Proof.
  induction blocks as [|frames blocks IH]; intros e; [now repeat split|].
  cbn [render_blocks total_frames]. unfold moog_engine_render.
  destruct (render_loop_envs (sample_rate e) (render_bend_ratio e)
              (render_glide_rate e frames) (render_lfo_inc e)
              (Z.to_nat frames) e output 0) as [Ha Hf].
  destruct (render_loop_voice (sample_rate e) (render_bend_ratio e)
              (render_glide_rate e frames) (render_lfo_inc e)
              (Z.to_nat frames) e output 0) as [Hp _].
  destruct (IH (fst (render_loop (sample_rate e) (render_bend_ratio e)
                       (render_glide_rate e frames) (render_lfo_inc e)
                       e output 0 (Z.to_nat frames)))) as (IHp & IHa & IHf).
  rewrite IHp, IHa, IHf, Ha, Hf, Hp, !env_run_add. now repeat split.
Qed.

(** X6: the attack and decay stages end.  After a note-on with the gate
    off, once at least [Na + Nd + 2] samples have been rendered, in blocks
    of any sizes and without further events, both envelopes are in Sustain
    at their sustain levels, where [Na] and [Nd] are numbers of samples that
    cover the attack times and the decay times (minus one sample) of both
    envelopes. *)
Theorem render_reaches_sustain (e : moog_engine_t) (note : Z) (vel : R)
    (blocks : list Z) (output : list R) (Na Nd : nat) :
  gate_on e = 0%Z -> 0 < sample_rate e ->
  param_to_time (amp_attack e) (sample_rate e) <= INR Na ->
  param_to_time (filt_attack e) (sample_rate e) <= INR Na ->
  param_to_time (amp_decay e) (sample_rate e) - 1 <= INR Nd ->
  param_to_time (filt_decay e) (sample_rate e) - 1 <= INR Nd ->
  (Na + Nd + 2 <= total_frames blocks)%nat ->
  let e' := render_blocks blocks output (moog_engine_note_on e note vel) in
  (amp_env_state e' = ENV_SUSTAIN /\ amp_env_level e' = amp_sustain e) /\
  (filt_env_state e' = ENV_SUSTAIN /\ filt_env_level e' = filt_sustain e).
Proof.
  intros Hg Hsr Haa Hfa Had Hfd Hn e'. unfold e'.
  destruct (render_blocks_envs blocks output
              (moog_engine_note_on e note vel)) as (_ & -> & ->).
  destruct (note_on_frame e note vel) as (-> & _).
  destruct (note_on_gate_off e note vel Hg) as (_ & -> & ->).
  split; apply (env_run_reaches_sustain _ _ _ _ _ Na Nd); try assumption;
    try reflexivity; cbn; lra.
Qed.

(** The theorem for the default envelopes (attack 66.15 samples, decay
    19889.1 samples): Sustain is reached within one second of audio, 345
    blocks of 128 frames. *)
Lemma render_reaches_sustain_witness :
  amp_env_state
    (render_blocks (repeat 128%Z 345) (repeat 0 256)
       (moog_engine_note_on (moog_engine_init engine_zero) 60 1))
  = ENV_SUSTAIN.
Proof.
  assert (H67 : INR (Z.to_nat 67) = 67)
    by (rewrite INR_IZR_INZ, Z2Nat.id by lia; reflexivity).
  assert (H19889 : INR (Z.to_nat 19889) = 19889)
    by (rewrite INR_IZR_INZ, Z2Nat.id by lia; reflexivity).
  refine (proj1 (proj1 (render_reaches_sustain (moog_engine_init engine_zero)
                   60 1 (repeat 128%Z 345) (repeat 0 256)
                   (Z.to_nat 67) (Z.to_nat 19889) eq_refl _ _ _ _ _ _)));
    rewrite ?H67, ?H19889;
    try (cbn; unfold param_to_time, MOOG_SAMPLE_RATE; lra).
  apply Nat.leb_le. vm_compute. reflexivity.
Defined.

(** X7: the release stage ends.  In a reachable state, after the note-off
    of the last held key, once at least [Nr + 1] samples have been rendered
    without further events, both envelopes are Off with level 0, where [Nr]
    is a number of samples that covers both release times. *)
Theorem render_reaches_off (e : moog_engine_t) (note : Z)
    (blocks : list Z) (output : list R) (Nr : nat) :
  reachable e -> remove_first note (held_keys e) = [] ->
  param_to_time (amp_release e) (sample_rate e) <= INR Nr ->
  param_to_time (filt_release e) (sample_rate e) <= INR Nr ->
  (Nr + 1 <= total_frames blocks)%nat ->
  let e' := render_blocks blocks output (moog_engine_note_off e note) in
  (amp_env_state e' = ENV_OFF /\ amp_env_level e' = 0) /\
  (filt_env_state e' = ENV_OFF /\ filt_env_level e' = 0).
Proof.
  intros Hr Hrem Har Hfr Hn e'. unfold e'.
  pose proof (reachable_envelopes_ok e Hr)
    as ((_ & _ & _ & _ & Haoff) & (_ & _ & _ & _ & Hfoff) & _ & Hsr).
  assert (Hpos : 0 < sample_rate e)
    by (rewrite Hsr; unfold MOOG_SAMPLE_RATE; lra).
  pose proof (reachable_key_stack_ok e Hr) as Hok.
  destruct (note_off_last_key e note Hok Hrem)
    as (_ & _ & Ha & Hf & _).
  destruct (render_blocks_envs blocks output (moog_engine_note_off e note))
    as (_ & -> & ->).
  rewrite note_off_params, Ha, Hf. split.
  - destruct (env_state (amp_env e)) eqn:Hst;
      try (apply (env_run_reaches_off _ _ _ _ _ Nr); try assumption;
           try reflexivity; cbn; lra).
    apply off_stays; [exact Hst | now apply Haoff].
  - destruct (env_state (filt_env e)) eqn:Hst;
      try (apply (env_run_reaches_off _ _ _ _ _ Nr); try assumption;
           try reflexivity; cbn; lra).
    apply off_stays; [exact Hst | now apply Hfoff].
Qed.

(** The theorem for the default release (8864.1 samples): a key pressed
    and released at once is Off after 70 blocks of 128 frames. *)
Lemma render_reaches_off_witness :
  amp_env_state
    (render_blocks (repeat 128%Z 70) (repeat 0 256)
       (moog_engine_note_off
          (moog_engine_note_on (moog_engine_init engine_zero) 60 1) 60))
  = ENV_OFF.
Proof.
  assert (H8865 : INR (Z.to_nat 8865) = 8865)
    by (rewrite INR_IZR_INZ, Z2Nat.id by lia; reflexivity).
  assert (Hp : params (moog_engine_note_on (moog_engine_init engine_zero)
                         60 1) = params (moog_engine_init engine_zero))
    by apply note_on_frame.
  refine (proj1 (proj1 (render_reaches_off
                   (moog_engine_note_on (moog_engine_init engine_zero) 60 1)
                   60 (repeat 128%Z 70) (repeat 0 256) (Z.to_nat 8865)
                   _ _ _ _ _))).
  - apply reach_note_on, reach_init.
  - rewrite held_keys_note_on by apply key_stack_ok_init. reflexivity.
  - rewrite Hp, H8865. cbn. unfold param_to_time, MOOG_SAMPLE_RATE. lra.
  - rewrite Hp, H8865. cbn. unfold param_to_time, MOOG_SAMPLE_RATE. lra.
  - apply Nat.leb_le. vm_compute. reflexivity.
Defined.

(** ** Oscillators and noise *)

Lemma fmod_range x y : 0 <= x -> 0 < y -> 0 <= fmod x y < y.
Proof.
  intros Hx Hy. unfold fmod, Rtrunc.
  assert (Hq : 0 <= x / y) by now apply progress_nonneg.
  destruct (Rltb (x / y) 0) eqn:Hb; [apply Rltb_true in Hb; lra|].
  destruct (base_Int_part (x / y)) as [Hlo Hhi].
  set (q := IZR (Int_part (x / y))) in *.
  assert (Hxy : x = x / y * y) by (field; lra).
  split.
  - assert (y * q <= x / y * y) by nra. lra.
  - assert (x / y * y < (q + 1) * y) by nra. lra.
Qed.

Lemma phase_range c p : 0 <= c -> 0 < p -> 0 <= fmod c p / p < 1.
Proof.
  intros Hc Hp. destruct (fmod_range c p Hc Hp) as [Hlo Hhi].
  split.
  - now apply progress_nonneg.
  - apply (Rmult_lt_reg_r p); [exact Hp|].
    unfold Rdiv. rewrite Rmult_assoc, Rinv_l by lra. lra.
Qed.

Lemma generate_osc_bound (wave : moog_wave_t) (c p : R) :
  0 <= c -> 0 < p -> -1 <= generate_osc wave c p <= 1.
Proof.
  intros Hc Hp. destruct wave; cbn; try lra.
  - unfold osc_triangle.
    destruct (phase_range (c + p / 4) p ltac:(lra) Hp) as [Hlo Hhi].
    set (ph := fmod (c + p / 4) p / p) in *.
    unfold Rabs. destruct (Rcase_abs (ph - 0.5)); lra.
  - unfold osc_sawtooth. destruct (phase_range c p Hc Hp). lra.
  - unfold osc_square. destruct (Rltb _ _); lra.
  - unfold osc_pulse. destruct (Rltb _ _); lra.
Qed.

(** X8: for a non-negative sample counter and a positive period every
    waveform (and the silent default for an unknown waveform number) yields
    a sample within [-1, 1]. *)
Theorem generate_osc_range (wave : moog_wave_t) (c p : R) :
  0 <= c -> 0 < p -> -1 <= generate_osc wave c p <= 1.
Proof.
  apply generate_osc_bound.
Qed.

(** The theorem for a sawtooth at sample 3 of a 100-sample period. *)
Lemma generate_osc_range_witness :
  -1 <= generate_osc WAVE_SAWTOOTH 3 100 <= 1.
Proof. apply generate_osc_range; lra. Defined.

Lemma osc_period_ge_2 e cp osc : 2 <= osc_period e cp osc.
Proof.
  unfold osc_period. rewrite clamp2_Rmax. apply Rmax_l.
Qed.

Lemma osc_loop_bound e cp n :
  0 <= counter e ->
  forall osc sample,
  Rabs (osc_loop e cp osc n sample) <=
  Rabs sample +
  fold_right Rplus 0
    (map (fun k => Rmax 0 (nth k (osc_volume e) 0)) (seq osc n)).
Proof.
  intros Hc. induction n as [|n IH]; intros osc sample.
  - cbn. lra.
  - cbn [osc_loop seq map fold_right].
    pose proof (Rmax_l 0 (nth osc (osc_volume e) 0)) as Hm0.
    pose proof (Rmax_r 0 (nth osc (osc_volume e) 0)) as Hmv.
    destruct (Rltb (nth osc (osc_volume e) 0) 0.001) eqn:Hb.
    + specialize (IH (S osc) sample). lra.
    + apply Rltb_false in Hb.
      set (g := generate_osc (nth osc (osc_wave e) WAVE_COUNT) (counter e)
                  (osc_period e cp osc)).
      assert (Hg : -1 <= g <= 1).
      { apply generate_osc_bound; [exact Hc|].
        pose proof (osc_period_ge_2 e cp osc). lra. }
      specialize (IH (S osc) (sample + g * nth osc (osc_volume e) 0)).
      eapply Rle_trans; [exact IH|].
      assert (Rabs (sample + g * nth osc (osc_volume e) 0) <=
              Rabs sample + nth osc (osc_volume e) 0).
      { eapply Rle_trans; [apply Rabs_triang|].
        apply Rplus_le_compat_l. apply Rabs_le. nra. }
      lra.
Qed.

(** X9: with a non-negative sample counter the sum of the four oscillator
    slots is bounded by the sum of the slot volumes (a slot with volume
    below 0.001, negative volumes included, contributes nothing). *)
Theorem osc_mix_bounded (e : moog_engine_t) (cp : R) :
  0 <= counter e ->
  Rabs (osc_loop e cp 0 4 0) <=
  Rmax 0 (nth 0 (osc_volume e) 0) + Rmax 0 (nth 1 (osc_volume e) 0) +
  Rmax 0 (nth 2 (osc_volume e) 0) + Rmax 0 (nth 3 (osc_volume e) 0).
Proof.
  intros Hc. pose proof (osc_loop_bound e cp 4 Hc 0%nat 0) as H.
  cbn [seq map fold_right] in H. rewrite Rabs_R0 in H. lra.
Qed.

(** The theorem on a fresh plugin instance, for a base period of 100. *)
Lemma osc_mix_bounded_witness :
  Rabs (osc_loop (inst_engine v2_create_instance) 100 0 4 0) <=
  Rmax 0 (nth 0 (osc_volume (inst_engine v2_create_instance)) 0) +
  Rmax 0 (nth 1 (osc_volume (inst_engine v2_create_instance)) 0) +
  Rmax 0 (nth 2 (osc_volume (inst_engine v2_create_instance)) 0) +
  Rmax 0 (nth 3 (osc_volume (inst_engine v2_create_instance)) 0).
Proof.
  assert (Hc : counter (inst_engine v2_create_instance) = 0) by reflexivity.
  generalize dependent (inst_engine v2_create_instance). intros e Hc.
  apply (osc_mix_bounded e 100). rewrite Hc. lra.
Defined.

Lemma to_int32_range z :
  (- 2 ^ 31 <= to_int32 z < 2 ^ 31)%Z.
Proof.
  unfold to_int32. pose proof (Z.mod_pos_bound z (2 ^ 32) ltac:(lia)).
  destruct (Z.ltb_spec (z mod 2 ^ 32) (2 ^ 31)); lia.
Qed.

(** X10: the noise generator keeps its seed a 32-bit unsigned value and
    yields a sample that is at most 1 and at least -2^31 / (2^31 - 1),
    i.e. within [-1, 1] up to 5e-10. *)
Theorem noise_sample_range (seed : Z) :
  (0 <= fst (noise_sample seed) < 2 ^ 32)%Z /\
  - (2147483648 / 2147483647) <= snd (noise_sample seed) <= 1.
Proof.
  unfold noise_sample. cbn [fst snd]. split.
  - unfold to_uint32. apply Z.mod_pos_bound. lia.
  - pose proof (to_int32_range
                  (to_uint32 (seed * 1664525 + 1013904223))) as [Hlo Hhi].
    set (i := to_int32 _) in *.
    apply IZR_le in Hlo.
    assert (Hhi' : IZR i <= 2147483647)
      by (apply IZR_le; change (2 ^ 31)%Z with 2147483648%Z in Hhi; lia).
    change (- 2 ^ 31)%Z with (-2147483648)%Z in Hlo.
    split.
    + apply (Rmult_le_reg_r 2147483647); [lra|].
      unfold Rdiv. rewrite Rmult_assoc, Rinv_l by lra. lra.
    + apply (Rmult_le_reg_r 2147483647); [lra|].
      unfold Rdiv. rewrite Rmult_assoc, Rinv_l by lra. lra.
Qed.

(** ** The render loop *)

(** The samples written by the loop, for an invariant [Inv] of the engine
    that each iteration keeps while producing a sample in [P]. *)
Lemma render_loop_samples (Inv : moog_engine_t -> Prop) (P : R -> Prop)
    sr br gr li :
  (forall e, Inv e ->
     Inv (fst (render_sample sr br gr li e)) /\
     P (snd (render_sample sr br gr li e))) ->
  forall n (e : moog_engine_t) (output : list R) (i : nat),
  Inv e -> (i + n <= length output)%nat ->
  Inv (fst (render_loop sr br gr li e output i n)) /\
  exists samples,
    length samples = n /\ Forall P samples /\
    snd (render_loop sr br gr li e output i n) =
    take i output ++ samples ++ drop (i + n) output.
Proof.
  intros Hstep. induction n as [|n IH]; intros e output i He Hlen.
  - split; [exact He|]. exists []. split; [reflexivity|].
    split; [constructor|]. cbn. rewrite Nat.add_0_r. now rewrite take_drop.
  - cbn [render_loop]. destruct (Hstep e He) as [He' Hv].
    destruct (render_sample sr br gr li e) as [e' v]. cbn [fst snd] in *.
    destruct (IH e' (<[i := v]> output) (S i) He') as (Hinv & samples & Hs & HP & Heq).
    { rewrite length_insert. lia. }
    split; [exact Hinv|].
    exists (v :: samples). split; [cbn; lia|]. split; [now constructor|].
    rewrite Heq. rewrite drop_insert_lt by lia.
    erewrite take_S_r by (apply list_lookup_insert_eq; lia).
    rewrite take_insert_ge by lia.
    rewrite <- app_assoc. cbn. now rewrite Nat.add_succ_r.
Qed.

Lemma render_samples_bound (e : moog_engine_t) (output : list R)
    (frames : Z) :
  (0 <= frames <= Z.of_nat (length output))%Z ->
  exists samples,
    length samples = Z.to_nat frames /\
    Forall (fun v => Rabs v <= 4 * Rabs (master_volume e)) samples /\
    snd (moog_engine_render e output frames) =
    samples ++ drop (Z.to_nat frames) output.
Proof.
  intros Hf. unfold moog_engine_render.
  destruct (render_loop_samples
              (fun e' => params e' = params e)
              (fun v => Rabs v <= 4 * Rabs (master_volume e))
              (sample_rate e) (render_bend_ratio e)
              (render_glide_rate e frames) (render_lfo_inc e))
    with (n := Z.to_nat frames) (e := e) (output := output) (i := 0%nat)
    as (_ & samples & Hs & HP & Heq); [|reflexivity|lia|].
  - intros e' Hp. split.
    + destruct (render_sample_voice (sample_rate e) (render_bend_ratio e)
                  (render_glide_rate e frames) (render_lfo_inc e) e')
        as (-> & _). exact Hp.
    + rewrite render_sample_value, Rabs_mult.
      pose proof (render_sample_tap4 (sample_rate e) (render_bend_ratio e)
                    (render_glide_rate e frames) (render_lfo_inc e) e')
        as Ht.
      apply within_Rabs in Ht. unfold master_volume. rewrite Hp.
      apply Rmult_le_compat_r; [apply Rabs_pos | exact Ht].
  - exists samples. now repeat split.
Qed.

(** X11: every sample that [moog_engine_render] writes is within
    4 * |master_volume| (the clamped final filter tap times the master
    volume), for any engine state and any parameter values. *)
Theorem render_output_bounded (e : moog_engine_t) (output : list R)
    (frames : Z) :
  (0 <= frames <= Z.of_nat (length output))%Z ->
  exists samples,
    length samples = Z.to_nat frames /\
    Forall (fun v => Rabs v <= 4 * Rabs (master_volume e)) samples /\
    snd (moog_engine_render e output frames) =
    samples ++ drop (Z.to_nat frames) output.
Proof.
  apply render_samples_bound.
Qed.

(** The theorem for a 128-frame block after a key press. *)
Lemma render_output_bounded_witness :
  exists samples,
    length samples = 128%nat /\
    Forall (fun v => Rabs v <= 4 * Rabs 0.7) samples /\
    snd (moog_engine_render
           (moog_engine_note_on (moog_engine_init engine_zero) 60 1)
           (repeat 0 256) 128) = samples ++ repeat 0 128.
Proof.
  destruct (render_output_bounded
              (moog_engine_note_on (moog_engine_init engine_zero) 60 1)
              (repeat 0 256) 128) as (samples & Hs & HP & Heq).
  { rewrite repeat_length. lia. }
  exists samples. split; [exact Hs|]. split.
  - destruct (note_on_frame (moog_engine_init engine_zero) 60 1)
      as (Hp & _).
    unfold master_volume in HP. rewrite Hp in HP. exact HP.
  - rewrite Heq. f_equal.
Defined.

(** *** Silence *)

Lemma ladder_taps_zero f fb :
  ladder_taps f fb 0 (repeat 0 6) = repeat 0 6.
Proof.
  unfold ladder_taps. cbn.
  replace ((0 - 0 * fb) * (0.35013 * f * f * f * f)) with 0 by ring.
  assert (E : 0 + 0.3 * 0 + (1 - f) * 0 = 0) by ring. rewrite !E.
  rewrite (proj2 (Rltb_false 4 0)) by lra. cbn.
  rewrite (proj2 (Rltb_false 0 (-4))) by lra. reflexivity.
Qed.

Lemma envelope_process_off env attack decay sustain release sr :
  env_state env = ENV_OFF ->
  envelope_process env attack decay sustain release sr =
  (set_env_level 0 env, 0).
Proof. intros H. unfold envelope_process. now rewrite H. Qed.

Lemma process_envelopes_amp sr e :
  snd (fst (process_envelopes sr e)) =
  snd (envelope_process (amp_env e) (amp_attack e) (amp_decay e)
         (amp_sustain e) (amp_release e) sr).
Proof.
  unfold process_envelopes.
  destruct (envelope_process (amp_env e) (amp_attack e) (amp_decay e)
              (amp_sustain e) (amp_release e) sr) as [env1 a].
  cbn -[envelope_process].
  now destruct (envelope_process (filt_env e) (filt_attack e) (filt_decay e)
                  (filt_sustain e) (filt_release e) sr).
Qed.

Lemma render_sample_silent sr br gr li e :
  silent e ->
  silent (fst (render_sample sr br gr li e)) /\
  snd (render_sample sr br gr li e) = 0.
Proof.
  intros [Hoff Hfp].
  assert (Hs : silent (fst (render_sample sr br gr li e))).
  { unfold render_sample.
    destruct (update_glide_frame gr e) as (_ & Ha1 & _ & Hf1).
    set (e1 := update_glide gr e) in *.
    destruct (update_lfo_frame li e1) as (_ & Ha2 & _ & Hf2).
    set (e2 := update_lfo li e1) in *.
    pose proof (process_envelopes_spec sr e2) as Hpe. cbv zeta in Hpe.
    pose proof (process_envelopes_amp sr e2) as Hamp.
    destruct (process_envelopes sr e2) as [[e3 a] f]. cbn [fst snd] in *.
    destruct Hpe as (Ha3 & _ & _ & Hf3).
    assert (Hoff2 : amp_env_state e2 = ENV_OFF) by now rewrite Ha2, Ha1.
    rewrite envelope_process_off in Ha3, Hamp by exact Hoff2.
    cbn [fst snd] in Ha3, Hamp. subst a.
    set (s := osc_loop e3 _ _ _ _).
    pose proof (add_noise_frame e3 s) as Hn. cbv zeta in Hn.
    destruct (add_noise e3 s) as [e4 s']. cbn [fst] in Hn.
    destruct Hn as (_ & Ha4 & _ & Hf4).
    split; cbn.
    - now rewrite Ha4, Ha3.
    - rewrite Hf4, Hf3, Hf2, Hf1, Hfp.
      replace (s' * (0 * _)) with 0 by ring.
      apply ladder_taps_zero. }
  split; [exact Hs|].
  rewrite render_sample_value. destruct Hs as [_ ->]. cbn. ring.
Qed.

Lemma Forall_eq_repeat {A} (x : A) l :
  Forall (fun v => v = x) l -> l = repeat x (length l).
Proof. induction 1; cbn; congruence. Qed.

Lemma reset_silent e : silent (moog_engine_reset e).
Proof. split; reflexivity. Qed.

Lemma init_silent e0 : silent (moog_engine_init e0).
Proof. split; reflexivity. Qed.

(** X12: an engine whose amplitude envelope is off and whose filter memory
    is clear (as [moog_engine_init] and [moog_engine_reset] leave it)
    renders exact zeros, whatever the oscillator, noise and LFO settings,
    and is in the same condition after the block. *)
Theorem idle_engine_renders_silence (e : moog_engine_t) (output : list R)
    (frames : Z) :
  silent e ->
  (0 <= frames <= Z.of_nat (length output))%Z ->
  snd (moog_engine_render e output frames) =
  repeat 0 (Z.to_nat frames) ++ drop (Z.to_nat frames) output /\
  silent (fst (moog_engine_render e output frames)).
Proof.
  intros Hs Hf. unfold moog_engine_render.
  destruct (render_loop_samples silent (fun v => v = 0)
              (sample_rate e) (render_bend_ratio e)
              (render_glide_rate e frames) (render_lfo_inc e))
    with (n := Z.to_nat frames) (e := e) (output := output) (i := 0%nat)
    as (Hinv & samples & Hlen & HP & Heq); [|exact Hs|lia|].
  - intros e'. apply render_sample_silent.
  - split; [|exact Hinv]. rewrite Heq. cbn.
    rewrite (Forall_eq_repeat 0 samples HP), Hlen. reflexivity.
Qed.

(** The theorem after a reset in the middle of a note, with the noise
    generator and all oscillators turned on. *)
Lemma idle_engine_renders_silence_witness :
  snd (moog_engine_render
         (moog_engine_reset
            (moog_engine_note_on (moog_engine_init engine_zero) 60 1))
         (repeat 1 128) 128) = repeat 0 128.
Proof.
  destruct (idle_engine_renders_silence
              (moog_engine_reset
                 (moog_engine_note_on (moog_engine_init engine_zero) 60 1))
              (repeat 1 128) 128) as [H _].
  - apply reset_silent.
  - rewrite repeat_length. lia.
  - rewrite H. change (Z.to_nat 128) with 128%nat.
    rewrite drop_ge by (rewrite repeat_length; lia).
    apply app_nil_r.
Defined.

(** *** Glide, LFO phase and sample counter *)

Lemma render_glide_rate_range (e : moog_engine_t) frames :
  0 <= sample_rate e -> (1 <= frames)%Z ->
  0 < render_glide_rate e frames <= 1.
Proof.
  intros Hsr Hf. unfold render_glide_rate.
  destruct (Rltb 0.001 (glide e)); [|lra].
  assert (0 < IZR frames) by (apply IZR_lt; lia).
  assert (0 <= glide e * glide e * 2 * sample_rate e / IZR frames).
  { apply Rmult_le_pos; [|left; now apply Rinv_0_lt_compat]. nra. }
  set (x := glide e * glide e * 2 * sample_rate e / IZR frames) in *.
  split.
  - apply Rdiv_lt_0_compat; lra.
  - apply (Rmult_le_reg_r (1 + x)); [lra|]. field_simplify; lra.
Qed.

Lemma update_glide_step gr e d0 (k : nat) :
  0 < gr <= 1 ->
  Rabs (period e - glide_period e) <= Rmax 0.01 (d0 * (1 - gr) ^ k) ->
  let e' := update_glide gr e in
  glide_period e' = glide_period e /\
  Rmin (period e) (glide_period e) <= period e' <=
    Rmax (period e) (glide_period e) /\
  Rabs (period e' - glide_period e) <= Rmax 0.01 (d0 * (1 - gr) ^ S k).
Proof.
  intros Hgr Hd. unfold update_glide.
  destruct (Rltb 0.01 (Rabs (period e - glide_period e))) eqn:Hfar.
  - apply Rltb_true in Hfar. cbn [glide_period period set_period].
    split; [reflexivity|]. split.
    + unfold Rmin, Rmax. destruct (Rle_dec (period e) (glide_period e)); nra.
    + replace (period e + (glide_period e - period e) * gr - glide_period e)
        with ((period e - glide_period e) * (1 - gr)) by ring.
      rewrite Rabs_mult, (Rabs_pos_eq (1 - gr)) by lra.
      assert (Hk : Rabs (period e - glide_period e) <= d0 * (1 - gr) ^ k).
      { unfold Rmax in Hd. destruct (Rle_dec 0.01 (d0 * (1 - gr) ^ k)); lra. }
      eapply Rle_trans; [|apply Rmax_r].
      cbn [pow]. replace (d0 * ((1 - gr) * (1 - gr) ^ k))
        with (d0 * (1 - gr) ^ k * (1 - gr)) by ring.
      apply Rmult_le_compat_r; lra.
  - apply Rltb_false in Hfar. split; [reflexivity|]. split.
    + unfold Rmin, Rmax. destruct (Rle_dec (period e) (glide_period e)); lra.
    + eapply Rle_trans; [exact Hfar | apply Rmax_l].
Qed.

Lemma render_loop_glide sr br gr li e output i n :
  0 < gr <= 1 ->
  let e' := fst (render_loop sr br gr li e output i n) in
  glide_period e' = glide_period e /\
  Rmin (period e) (glide_period e) <= period e' <=
    Rmax (period e) (glide_period e) /\
  Rabs (period e' - glide_period e) <=
    Rmax 0.01 (Rabs (period e - glide_period e) * (1 - gr) ^ n).
Proof.
  intros Hr.
  set (gp := glide_period e). set (d0 := Rabs (period e - gp)).
  pose proof (render_loop_inv
    (fun k x => glide_period x = gp /\
                Rmin (period e) gp <= period x <= Rmax (period e) gp /\
                Rabs (period x - gp) <= Rmax 0.01 (d0 * (1 - gr) ^ k))
    sr br gr li) as Hinv.
  apply (Hinv) with (n := n) (e := e) (output := output) (i := i)
                    (k := 0%nat).
  - clear Hinv. intros k x (Hgp & Hbet & Hd).
    destruct (render_sample_motion sr br gr li x) as (Hp & _ & _).
    destruct (render_sample_voice sr br gr li x)
      as (_ & _ & _ & _ & _ & Hg & _).
    rewrite Hp, Hg. rewrite <- Hgp in Hd.
    destruct (update_glide_step gr x d0 k Hr Hd) as (_ & Hb' & Hd').
    rewrite Hgp in *. split; [reflexivity|]. split; [|exact Hd'].
    unfold Rmin, Rmax in *.
    destruct (Rle_dec (period e) gp), (Rle_dec (period x) gp); lra.
  - split; [reflexivity|]. split.
    + unfold Rmin, Rmax. destruct (Rle_dec (period e) gp); lra.
    + cbn [pow]. rewrite Rmult_1_r. apply Rmax_r.
Qed.

(** X13: during a block of at least one frame the period moves towards the
    glide target and never past it: the target is untouched, the period
    stays between its old value and the target, and its distance to the
    target is at most the larger of 0.01 and the initial distance times
    (1 - rate)^frames, where the per-sample rate 1 / (1 + glide^2 * 2 *
    sample_rate / frames) depends on the block size. *)
Theorem glide_converges (e : moog_engine_t) (output : list R) (frames : Z) :
  0 <= sample_rate e -> (1 <= frames)%Z ->
  let e' := fst (moog_engine_render e output frames) in
  let rate := render_glide_rate e frames in
  0 < rate <= 1 /\
  glide_period e' = glide_period e /\
  Rmin (period e) (glide_period e) <= period e' <=
    Rmax (period e) (glide_period e) /\
  Rabs (period e' - glide_period e) <=
    Rmax 0.01 (Rabs (period e - glide_period e) *
               (1 - rate) ^ Z.to_nat frames).
Proof.
  intros Hsr Hf e' rate.
  pose proof (render_glide_rate_range e frames Hsr Hf) as Hr.
  split; [exact Hr|].
  apply render_loop_glide. exact Hr.
Qed.

(** The theorem for a 128-frame block after a key press on a fresh
    engine. *)
Lemma glide_converges_witness :
  let e := moog_engine_note_on (moog_engine_init engine_zero) 60 1 in
  let e' := fst (moog_engine_render e (repeat 0 128) 128) in
  glide_period e' = glide_period e /\
  Rmin (period e) (glide_period e) <= period e' <=
    Rmax (period e) (glide_period e).
Proof.
  intros e e'.
  assert (H0 : 0 <= sample_rate e).
  { unfold e. destruct (note_on_frame (moog_engine_init engine_zero) 60 1)
      as (Hp & _).
    unfold sample_rate. rewrite Hp. cbn. unfold MOOG_SAMPLE_RATE. lra. }
  destruct (glide_converges e (repeat 0 128) 128 H0 ltac:(lia))
    as (_ & Ht & Hb & _).
  exact (conj Ht Hb).
Defined.

(** X14: with glide at or below 0.001 the per-sample rate is 1, and after
    any block of at least one frame the sounding period is within 0.01
    samples of the glide target. *)
Theorem no_glide_period_snaps (e : moog_engine_t) (output : list R)
    (frames : Z) :
  glide e <= 0.001 -> (1 <= frames)%Z ->
  let e' := fst (moog_engine_render e output frames) in
  render_glide_rate e frames = 1 /\
  Rabs (period e' - glide_period e') <= 0.01.
Proof.
  intros Hg Hf e'.
  assert (Hr : render_glide_rate e frames = 1).
  { unfold render_glide_rate. now rewrite (proj2 (Rltb_false _ _) Hg). }
  split; [exact Hr|].
  destruct (render_loop_glide (sample_rate e) (render_bend_ratio e)
              (render_glide_rate e frames) (render_lfo_inc e) e output 0%nat
              (Z.to_nat frames)) as (Ht & _ & Hd).
  { rewrite Hr. lra. }
  unfold e', moog_engine_render. rewrite Ht.
  eapply Rle_trans; [exact Hd|]. rewrite Hr.
  destruct (Z.to_nat frames) as [|n] eqn:En; [lia|].
  cbn [pow]. replace (1 - 1) with 0 by ring.
  rewrite Rmult_0_l, Rmult_0_r. apply Rmax_lub; lra.
Qed.

(** The theorem on a fresh engine (glide 0) whose period was moved off
    the target by hand. *)
Lemma no_glide_period_snaps_witness :
  let e := set_period 300 (moog_engine_init engine_zero) in
  Rabs (period (fst (moog_engine_render e (repeat 0 64) 64)) -
        glide_period (fst (moog_engine_render e (repeat 0 64) 64))) <= 0.01.
Proof.
  intros e.
  refine (proj2 (no_glide_period_snaps e (repeat 0 64) 64 _ _)).
  - cbn. lra.
  - lia.
Defined.

Lemma update_lfo_range li (e : moog_engine_t) :
  0 <= li < 1 -> 0 <= lfo_phase e < 1 ->
  0 <= lfo_phase (update_lfo li e) < 1.
Proof.
  intros Hli Hp. unfold update_lfo. cbn.
  destruct (Rleb 1 (lfo_phase e + li)) eqn:Hw.
  - apply Rleb_true in Hw. cbn. lra.
  - apply Rleb_false in Hw. cbn. lra.
Qed.

(** X15: when the LFO frequency 0.1 + 20 * lfo_rate^2 is below the sample
    rate (as for every rate in [0, 1] at 44100 Hz), rendering keeps the LFO
    phase in [0, 1). *)
Theorem lfo_phase_wraps (e : moog_engine_t) (output : list R) (frames : Z) :
  0 < sample_rate e ->
  0.1 + lfo_rate e * lfo_rate e * 20 < sample_rate e ->
  0 <= lfo_phase e < 1 ->
  0 <= lfo_phase (fst (moog_engine_render e output frames)) < 1.
Proof.
  intros Hsr Hrate Hp. unfold moog_engine_render.
  assert (Hli : 0 <= render_lfo_inc e < 1).
  { unfold render_lfo_inc. split.
    - apply Rmult_le_pos; [nra | left; now apply Rinv_0_lt_compat].
    - apply (Rmult_lt_reg_r (sample_rate e)); [exact Hsr|].
      field_simplify; lra. }
  pose proof (render_loop_inv (fun _ x => 0 <= lfo_phase x < 1)
                (sample_rate e) (render_bend_ratio e)
                (render_glide_rate e frames) (render_lfo_inc e)) as Hinv.
  apply Hinv with (k := 0%nat); [|exact Hp].
  intros _ x Hx.
  destruct (render_sample_motion (sample_rate e) (render_bend_ratio e)
              (render_glide_rate e frames) (render_lfo_inc e) x)
    as (_ & -> & _).
  now apply update_lfo_range.
Qed.

(** The theorem for a freshly initialized engine. *)
Lemma lfo_phase_wraps_witness :
  0 <= lfo_phase (fst (moog_engine_render (moog_engine_init engine_zero)
                         (repeat 0 128) 128)) < 1.
Proof.
  apply (lfo_phase_wraps (moog_engine_init engine_zero) (repeat 0 128) 128);
    cbn; unfold MOOG_SAMPLE_RATE; lra.
Defined.

(** X16: the oscillators run free: rendering advances the sample counter by
    one per frame, and neither a note-on nor a note-off resets it, so a
    retriggered note continues the running waveform. *)
Theorem counter_free_running (e : moog_engine_t) (output : list R)
    (frames note : Z) (vel : R) :
  counter (fst (moog_engine_render e output frames)) =
    counter e + INR (Z.to_nat frames) /\
  counter (moog_engine_note_on e note vel) = counter e /\
  counter (moog_engine_note_off e note) = counter e.
Proof.
  split; [|split].
  - unfold moog_engine_render.
    pose proof (render_loop_inv
                  (fun k x => counter x = counter e + INR k)
                  (sample_rate e) (render_bend_ratio e)
                  (render_glide_rate e frames) (render_lfo_inc e)) as Hinv.
    apply (Hinv) with (n := Z.to_nat frames) (e := e) (output := output)
                      (i := 0%nat) (k := 0%nat).
    + intros k x Hx.
      destruct (render_sample_motion (sample_rate e) (render_bend_ratio e)
                  (render_glide_rate e frames) (render_lfo_inc e) x)
        as (_ & _ & ->).
      rewrite Hx, S_INR. ring.
    + cbn. ring.
  - note_on_cases e; reflexivity.
  - note_off_cases e note; reflexivity.
Qed.

(** *** Filter cutoff *)

Lemma clampf_range v lo hi : lo <= hi -> lo <= clampf v lo hi <= hi.
Proof.
  intros H. unfold clampf.
  destruct (Rltb v lo) eqn:E1; [lra|]. apply Rltb_false in E1.
  destruct (Rltb hi v) eqn:E2; [lra|]. apply Rltb_false in E2. lra.
Qed.

(** X17: whatever the envelope, key tracking and LFO add to the cutoff
    parameter, the normalised cutoff that reaches the filter lies in
    [0, 1], the cutoff frequency 20 * 1000^cutoff in 20 Hz .. 20 kHz, and
    at a positive sample rate the filter coefficient in
    [0.00116, 0.5684]. *)
Theorem filter_cutoff_range (e : moog_engine_t) (filt_env_v lfo_val sr : R) :
  0 < sr ->
  let c := modulated_cutoff e filt_env_v lfo_val in
  0 <= c <= 1 /\
  20 <= 20 * Rpower 1000 c <= 20000 /\
  0.00116 <= filter_coeff (20 * Rpower 1000 c) sr <= 0.5684.
Proof.
  intros Hsr c.
  assert (Hc : 0 <= c <= 1) by (apply clampf_range; lra).
  split; [exact Hc|]. split.
  - assert (H0 : Rpower 1000 0 = 1) by (apply Rpower_O; lra).
    assert (H1 : Rpower 1000 1 = 1000) by (apply Rpower_1; lra).
    pose proof (Rle_Rpower 1000 0 c ltac:(lra) (proj1 Hc)).
    pose proof (Rle_Rpower 1000 c 1 ltac:(lra) (proj2 Hc)).
    lra.
  - unfold filter_coeff.
    set (fc := 20 * Rpower 1000 c / sr).
    destruct (Rltb 0.49 fc) eqn:E1.
    + rewrite (proj2 (Rltb_false 0.49 0.001)) by lra. lra.
    + apply Rltb_false in E1.
      destruct (Rltb fc 0.001) eqn:E2; [lra|]. apply Rltb_false in E2. lra.
Qed.

(** The theorem for a new engine at 44100 Hz with the filter envelope at
    its peak. *)
Lemma filter_cutoff_range_witness :
  20 <= 20 * Rpower 1000
             (modulated_cutoff (moog_engine_init engine_zero) 1 0) <= 20000.
Proof.
  refine (proj1 (proj2 (filter_cutoff_range (moog_engine_init engine_zero)
                          1 0 44100 _))).
  lra.
Defined.

(** ** Note periods *)

Lemma note_to_hz_le n m : (n <= m)%Z -> note_to_hz n <= note_to_hz m.
Proof.
  intros H. destruct (Z.eq_dec n m) as [->|Hne]; [lra|].
  left. apply note_to_hz_lt. lia.
Qed.

Lemma period_antitone sr n m :
  0 < sr -> (0 <= n <= m)%Z ->
  sr / note_to_hz m <= sr / note_to_hz n.
Proof.
  intros Hsr Hnm. pose proof (note_to_hz_pos n).
  pose proof (note_to_hz_le n m ltac:(lia)).
  apply Rmult_le_compat_l; [lra|]. apply Rinv_le_contravar; lra.
Qed.

(** X18: the period that the note handlers compute is the sample rate over
    the frequency of the transposed note clamped to 0..127; the fallback
    of [hz_to_period] for frequencies below 1 Hz is never taken.  Periods
    therefore lie between those of notes 127 and 0, and a higher note
    never has a longer period. *)
Theorem note_period_range (e : moog_engine_t) (n m : Z) :
  0 < sample_rate e -> (n <= m)%Z ->
  0 < sample_rate e / note_to_hz 127 <= note_period e m /\
  note_period e m <= note_period e n <= sample_rate e / 8.1758.
Proof.
  intros Hsr Hnm. unfold note_period.
  set (cl := fun k : Z =>
         if ((if (k + octave_transpose e * 12 <? 0)%Z then 0%Z
              else (k + octave_transpose e * 12)%Z) >? 127)%Z
         then 127%Z
         else if (k + octave_transpose e * 12 <? 0)%Z then 0%Z
              else (k + octave_transpose e * 12)%Z).
  assert (Hcl : forall k, (0 <= cl k <= 127)%Z).
  { intros k. unfold cl.
    destruct (k + octave_transpose e * 12 <? 0)%Z eqn:E1;
      [cbn; lia|].
    destruct (k + octave_transpose e * 12 >? 127)%Z eqn:E2; lia. }
  assert (Hmono : (cl n <= cl m)%Z).
  { unfold cl.
    destruct (n + octave_transpose e * 12 <? 0)%Z eqn:E1;
    destruct (m + octave_transpose e * 12 <? 0)%Z eqn:E2;
    cbn [Z.gtb Z.compare];
    try destruct (n + octave_transpose e * 12 >? 127)%Z eqn:E3;
    try destruct (m + octave_transpose e * 12 >? 127)%Z eqn:E4; lia. }
  fold (cl n). fold (cl m).
  rewrite !hz_to_period_note by apply Hcl.
  pose proof (period_antitone (sample_rate e) (cl m) 127 Hsr
                ltac:(pose proof (Hcl m); lia)).
  pose proof (period_antitone (sample_rate e) (cl n) (cl m) Hsr
                ltac:(pose proof (Hcl n); lia)).
  pose proof (period_antitone (sample_rate e) 0 (cl n) Hsr
                ltac:(pose proof (Hcl n); lia)).
  rewrite note_to_hz_0 in *.
  pose proof (note_to_hz_pos 127).
  assert (0 < sample_rate e / note_to_hz 127)
    by (apply Rdiv_lt_0_compat; lra).
  lra.
Qed.

(** The theorem for notes 60 and 72 on a freshly initialized engine. *)
Lemma note_period_range_witness :
  note_period (moog_engine_init engine_zero) 72 <=
  note_period (moog_engine_init engine_zero) 60 <= 44100 / 8.1758.
Proof.
  refine (proj2 (note_period_range (moog_engine_init engine_zero) 60 72
                   _ _)).
  - cbn. unfold MOOG_SAMPLE_RATE. lra.
  - lia.
Defined.

(** ** The two ladder filters *)

(** X19: the block filter [moog_filter_process] and the single-sample
    ladder inlined in the render loop are the same filter: on a six-cell
    memory, filtering [frames] samples in place gives the samples and the
    memory that the single-sample ladder gives when run over them with the
    coefficients of the block. *)
Theorem moog_filter_process_ladder (output prev : list R) (frames : Z)
    (cutoff_hz resonance sample_rate : R) :
  length prev = 6%nat ->
  (0 <= frames <= Z.of_nat (length output))%Z ->
  let f := filter_coeff cutoff_hz sample_rate in
  let fb := resonance * (1 - 0.15 * f * f) in
  let l := ladder_run f fb (take (Z.to_nat frames) output) prev in
  moog_filter_process output prev frames cutoff_hz resonance sample_rate =
  (fst l ++ drop (Z.to_nat frames) output, snd l).
Proof.
  apply moog_filter_process_run.
Qed.

(** The theorem for two samples through a cleared filter. *)
Lemma moog_filter_process_ladder_witness :
  moog_filter_process [1; -1] (repeat 0 6) 2 1000 0.5 44100 =
  (fst (ladder_run (filter_coeff 1000 44100)
          (0.5 * (1 - 0.15 * filter_coeff 1000 44100 *
                  filter_coeff 1000 44100)) [1; -1] (repeat 0 6)),
   snd (ladder_run (filter_coeff 1000 44100)
          (0.5 * (1 - 0.15 * filter_coeff 1000 44100 *
                  filter_coeff 1000 44100)) [1; -1] (repeat 0 6))).
Proof.
  rewrite (moog_filter_process_ladder [1; -1] (repeat 0 6) 2 1000 0.5 44100
             eq_refl ltac:(cbn; lia)).
  cbv zeta. change (Z.to_nat 2) with 2%nat. cbn [take drop length].
  now rewrite app_nil_r.
Defined.

(** ** Plugin layer: parameters *)

Lemma shadow_param_at d :
  In d g_shadow_params -> nth_error g_shadow_params (index d) = Some d.
Proof.
  unfold g_shadow_params. cbn [In].
  intros H. repeat (destruct H as [<-|H]; [reflexivity|]). destruct H.
Qed.

Lemma shadow_index_lt d : In d g_shadow_params -> (index d < P_COUNT)%nat.
Proof.
  intros H. apply shadow_param_at in H.
  apply (proj1 (nth_error_Some g_shadow_params (index d))). congruence.
Qed.

Lemma shadow_index_inj d d' :
  In d g_shadow_params -> In d' g_shadow_params ->
  index d = index d' -> d = d'.
Proof.
  intros H H' E. apply shadow_param_at in H, H'. congruence.
Qed.

Lemma params_in_range_at ps d :
  params_in_range ps -> In d g_shadow_params ->
  min_val d <= nth (index d) ps 0 <= max_val d.
Proof.
  intros [_ H] Hd. rewrite Forall_forall in H. apply H.
  now apply list_elem_of_In.
Qed.

Lemma shadow_min_max d : In d g_shadow_params -> min_val d <= max_val d.
Proof.
  unfold g_shadow_params. cbn [In].
  intros H.
  repeat (destruct H as [<-|H]; [cbn [min_val max_val]; lra|]). destruct H.
Qed.

(** Storing a clamped value keeps the array in range. *)
Lemma params_in_range_insert ps d fval :
  params_in_range ps -> In d g_shadow_params ->
  params_in_range
    (<[index d :=
         let fval := if Rltb fval (min_val d) then min_val d else fval in
         if Rltb (max_val d) fval then max_val d else fval]> ps).
Proof.
  intros Hps Hd. pose proof Hps as [Hlen Hall]. split.
  - now rewrite length_insert.
  - rewrite Forall_forall. intros d' Hd'. apply list_elem_of_In in Hd'.
    destruct (Nat.eq_dec (index d) (index d')) as [E|NE].
    + assert (d = d') as <- by now apply shadow_index_inj.
      rewrite nth_insert_same.
      assert (Hlt : (index d <? length ps)%nat = true)
        by (apply Nat.ltb_lt; rewrite Hlen; now apply shadow_index_lt).
      rewrite Hlt. pose proof (shadow_min_max d Hd). cbv zeta.
      destruct (Rltb fval (min_val d)) eqn:E1;
        [apply Rltb_true in E1 | apply Rltb_false in E1].
      * destruct (Rltb (max_val d) (min_val d)) eqn:E2;
          [apply Rltb_true in E2 | apply Rltb_false in E2]; lra.
      * destruct (Rltb (max_val d) fval) eqn:E2;
          [apply Rltb_true in E2 | apply Rltb_false in E2]; lra.
    + rewrite nth_insert_other by exact NE.
      now apply params_in_range_at.
Qed.

Lemma factory_presets_in_range : Forall params_in_range g_factory_presets.
Proof.
  unfold g_factory_presets, params_in_range, g_shadow_params.
  repeat (apply List.Forall_cons;
          [split; [reflexivity|];
           repeat (apply List.Forall_cons; [cbn; lra|]); apply List.Forall_nil|]).
  apply List.Forall_nil.
Qed.

Ltac shadow_in :=
  unfold g_shadow_params; cbn [In];
  repeat (first [left; reflexivity | right]).

Ltac unit_param Hps k name :=
  let H := fresh "Hu" in
  pose proof (params_in_range_at _
                {| key := name; index := k; min_val := 0; max_val := 1 |}
                Hps ltac:(shadow_in)) as H;
  cbn [index min_val max_val] in H.

Lemma apply_params_adsr inst :
  params_in_range (inst_params inst) ->
  adsr_in_range (inst_engine (apply_params_to_engine inst)).
Proof.
  intros Hps.
  unit_param Hps P_AMP_ATTACK "attack"%string. unit_param Hps P_AMP_DECAY "decay"%string.
  unit_param Hps P_AMP_SUSTAIN "sustain"%string.
  unit_param Hps P_AMP_RELEASE "release"%string.
  unit_param Hps P_FILT_ATTACK "f_attack"%string.
  unit_param Hps P_FILT_DECAY "f_decay"%string.
  unit_param Hps P_FILT_SUSTAIN "f_sustain"%string.
  unit_param Hps P_FILT_RELEASE "f_release"%string.
  unfold adsr_in_range, apply_params_to_engine. cbn -[nth]. tauto.
Qed.

Lemma apply_params_synced inst : synced (apply_params_to_engine inst).
Proof. reflexivity. Qed.

Lemma apply_params_rest inst :
  let inst' := apply_params_to_engine inst in
  inst_params inst' = inst_params inst /\
  inst_octave_transpose inst' = inst_octave_transpose inst /\
  octave_transpose (inst_engine inst') = octave_transpose (inst_engine inst) /\
  current_preset inst' = current_preset inst /\
  preset_count inst' = preset_count inst /\
  presets inst' = presets inst /\
  output_gain inst' = output_gain inst /\
  pitch_bend (inst_engine inst') = pitch_bend (inst_engine inst) /\
  mod_wheel (inst_engine inst') = mod_wheel (inst_engine inst) /\
  velocity (inst_engine inst') = velocity (inst_engine inst).
Proof. cbv zeta. now repeat split. Qed.

Lemma apply_params_reachable inst :
  params_in_range (inst_params inst) -> reachable (inst_engine inst) ->
  reachable (inst_engine (apply_params_to_engine inst)).
Proof.
  intros Hps Hr. pose proof (apply_params_adsr inst Hps) as Ha.
  unfold apply_params_to_engine in *. cbn [inst_engine set_inst_engine] in *.
  apply reach_set_params; [exact Hr | reflexivity | exact Ha].
Qed.

(** Re-applying the parameter array to an instance with a sound engine. *)
Lemma apply_params_instance_ok inst :
  params_in_range (inst_params inst) -> host_state_ok inst ->
  instance_ok (apply_params_to_engine inst).
Proof.
  intros Hps (Hr & Hrest).
  destruct (apply_params_rest inst)
    as (E1 & E2 & E3 & E4 & E5 & E6 & E7 & E8 & E9 & E10).
  unfold instance_ok, host_state_ok.
  rewrite E1, E2, E3, E4, E5, E6, E7, E8, E9, E10.
  split; [exact Hps|]. split; [apply apply_params_synced|].
  split; [now apply apply_params_reachable | exact Hrest].
Qed.

Lemma nth_factory_preset idx :
  (0 <= idx < FACTORY_PRESET_COUNT)%Z ->
  params_in_range
    (nth (Z.to_nat idx) (presets v2_create_instance) (repeat 0 P_COUNT)).
Proof.
  intros Hidx.
  change (presets v2_create_instance) with
    (g_factory_presets ++
     drop (length g_factory_presets) (repeat (repeat 0 P_COUNT) MAX_PRESETS)).
  assert (Hlt : (Z.to_nat idx < length g_factory_presets)%nat).
  { change (length g_factory_presets) with 14%nat.
    unfold FACTORY_PRESET_COUNT in Hidx. lia. }
  rewrite app_nth1 by exact Hlt.
  pose proof factory_presets_in_range as H. rewrite Forall_forall in H.
  apply H, list_elem_of_In, nth_In, Hlt.
Qed.

Lemma apply_preset_ok inst idx :
  host_state_ok inst ->
  (params_in_range (inst_params inst) /\ synced inst) \/
  (0 <= idx < preset_count inst)%Z ->
  instance_ok (apply_preset inst idx).
Proof.
  intros Hh Hor. pose proof Hh as (Hr & Ho & Hoe & Hcp & Hpc & Hpr & Hrest).
  unfold apply_preset.
  destruct ((idx <? 0)%Z || (idx >=? preset_count inst)%Z) eqn:Hc.
  - destruct Hor as [[Hps Hs]|Hidx]; [exact (conj Hps (conj Hs Hh))|].
    apply orb_true_iff in Hc. destruct Hc as [Hc|Hc]; lia.
  - apply orb_false_iff in Hc. destruct Hc as [Hc1 Hc2].
    assert (Hidx : (0 <= idx < FACTORY_PRESET_COUNT)%Z) by (rewrite <- Hpc; lia).
    apply apply_params_instance_ok.
    + cbn [inst_params set_current_preset set_inst_params].
      rewrite Hpr. now apply nth_factory_preset.
    + unfold host_state_ok.
      cbn [inst_engine inst_octave_transpose current_preset preset_count
           presets output_gain set_current_preset set_inst_params].
      tauto.
Qed.

Lemma create_instance_ok : instance_ok v2_create_instance.
Proof.
  unfold v2_create_instance. cbv zeta. apply apply_preset_ok.
  - unfold host_state_ok.
    cbn [inst_engine inst_octave_transpose current_preset preset_count
         presets output_gain set_inst_engine].
    split; [apply reach_init|].
    unfold FACTORY_PRESET_COUNT.
    repeat split; try reflexivity; try lia;
      unfold moog_engine_init; cbn [pitch_bend mod_wheel velocity
        set_glide_period set_period set_noise_seed set_velocity set_params
        engine_zero]; lra.
  - right. cbn [preset_count set_inst_engine]. unfold FACTORY_PRESET_COUNT.
    lia.
Qed.

Lemma synced_set_engine inst e' :
  synced inst -> params e' = params (inst_engine inst) ->
  synced (set_inst_engine e' inst).
Proof.
  unfold synced, apply_params_to_engine.
  cbn [inst_engine inst_params set_inst_engine].
  destruct (inst_engine inst) as [p c pe gp lv ae fe fp ns cn g ks kc mw pb
                                  lp v].
  destruct e' as [p' c' pe' gp' lv' ae' fe' fp' ns' cn' g' ks' kc' mw' pb'
                  lp' v'].
  cbn. intros H E. subst p'. injection H as H. unfold set_params. cbn.
  f_equal. exact H.
Qed.

Lemma set_named_param_cases defs inst k fval :
  (forall d, In d defs -> In d g_shadow_params) ->
  set_named_param defs inst k fval = inst \/
  exists d, In d g_shadow_params /\
    set_named_param defs inst k fval =
    apply_params_to_engine
      (set_inst_params
         (<[index d :=
              let fval := if Rltb fval (min_val d) then min_val d else fval in
              if Rltb (max_val d) fval then max_val d else fval]>
            (inst_params inst)) inst).
Proof.
  induction defs as [|d defs IH]; intros Hin; [now left|].
  cbn [set_named_param]. destruct (String.eqb k (key d)).
  - right. exists d. split; [apply Hin; now left | reflexivity].
  - apply IH. intros d' Hd'. apply Hin. now right.
Qed.

Lemma reachable_adsr e : reachable e -> adsr_in_range e.
Proof. intros H. now destruct (reachable_envelopes_ok e H) as (_ & _ & ? & _). Qed.

Lemma set_octave_ok inst v :
  instance_ok inst -> (-3 <= v <= 3)%Z ->
  instance_ok
    (set_inst_engine
       (set_octave_transpose v (inst_engine inst))
       (set_inst_octave_transpose v inst)).
Proof.
  intros (Hps & Hs & Hr & Ho & Hoe & Hrest) Hv.
  split; [exact Hps|]. split.
  - unfold synced, apply_params_to_engine in *.
    cbn [inst_engine inst_params set_inst_engine set_inst_octave_transpose]
      in *.
    destruct (inst_engine inst) as [p c pe gp lv ae fe fp ns cn g ks kc mw pb
                                    lp vl].
    cbn in *. injection Hs as Hs. rewrite <- Hs. reflexivity.
  - unfold host_state_ok.
    cbn [inst_engine inst_octave_transpose current_preset preset_count
         presets output_gain set_inst_engine set_inst_octave_transpose].
    split.
    + unfold set_octave_transpose. apply reach_set_params;
        [exact Hr | reflexivity | exact (reachable_adsr _ Hr)].
    + split; [exact Hv|]. split; [reflexivity|]. exact Hrest.
Qed.

Lemma set_param_ok inst k val :
  instance_ok inst -> instance_ok (v2_set_param inst k val).
Proof.
  intros Hok. pose proof Hok as (Hps & Hs & Hh).
  unfold v2_set_param.
  destruct (String.eqb k "preset").
  { destruct ((Rtrunc val >=? 0)%Z && (Rtrunc val <? preset_count inst)%Z);
      [|exact Hok].
    apply apply_preset_ok; [exact Hh | now left]. }
  destruct (String.eqb k "octave_transpose").
  { cbn [inst_octave_transpose set_inst_octave_transpose inst_engine].
    apply set_octave_ok; [exact Hok|].
    destruct (Rtrunc val <? -3)%Z eqn:E1; [cbn; lia|].
    destruct (Rtrunc val >? 3)%Z eqn:E2; lia. }
  destruct (String.eqb k "all_notes_off").
  { split; [exact Hps|]. split; [now apply synced_set_engine|].
    destruct Hh as (Hr & Hrest). split; [now apply reach_all_notes_off|].
    exact Hrest. }
  destruct (set_named_param_cases g_shadow_params inst k val)
    as [->|(d & Hd & ->)]; [auto | exact Hok |].
  apply apply_params_instance_ok.
  - cbn [inst_params set_inst_params]. now apply params_in_range_insert.
  - exact Hh.
Qed.

(** ** Plugin layer: MIDI and rendering *)

Lemma note_off_rest e note :
  velocity (moog_engine_note_off e note) = velocity e /\
  pitch_bend (moog_engine_note_off e note) = pitch_bend e /\
  mod_wheel (moog_engine_note_off e note) = mod_wheel e.
Proof. note_off_cases e note; now repeat split. Qed.

Lemma engine_step_ok inst e' :
  instance_ok inst -> reachable e' ->
  params e' = params (inst_engine inst) ->
  -1 <= pitch_bend e' < 1 -> 0 <= mod_wheel e' <= 1 ->
  0 <= velocity e' <= 1 ->
  instance_ok (set_inst_engine e' inst).
Proof.
  intros (Hps & Hs & Hr & Ho & Hoe & Hcp & Hpc & Hpr & Hg & _) Hr' Hp Hpb
    Hmw Hv.
  split; [exact Hps|]. split; [now apply synced_set_engine|].
  unfold host_state_ok.
  cbn [inst_engine inst_octave_transpose current_preset preset_count
       presets output_gain set_inst_engine].
  assert (octave_transpose e' = inst_octave_transpose inst).
  { rewrite <- Hoe. unfold octave_transpose. now rewrite Hp. }
  tauto.
Qed.

Lemma midi_data_byte msg k :
  midi_data_ok msg -> (0 <= nth (S k) msg 0 < 128)%Z.
Proof.
  unfold midi_data_ok. intros H. destruct msg as [|b msg]; [cbn; lia|].
  change (drop 1 (b :: msg)) with msg in H. cbn [nth].
  destruct (Nat.lt_ge_cases k (length msg)) as [Hlt|Hge].
  - rewrite Forall_forall in H. apply H, list_elem_of_In, nth_In, Hlt.
  - rewrite nth_overflow by exact Hge. lia.
Qed.

(** The 14-bit value of a pitch-bend message with 7-bit data bytes. *)
Lemma bend_value d1 d2 :
  (0 <= d1 < 128)%Z -> (0 <= d2 < 128)%Z ->
  Z.lor (Z.shiftl d2 7) d1 = (128 * d2 + d1)%Z.
Proof.
  intros H1 H2. rewrite Z.shiftl_mul_pow2 by lia.
  change (2 ^ 7)%Z with 128%Z.
  rewrite <- Z.add_nocarry_lor; [lia|].
  apply Z.bits_inj'. intros n Hn. rewrite Z.land_spec, Z.bits_0.
  destruct (Z.lt_ge_cases n 7) as [Hlt|Hge].
  - replace (d2 * 128)%Z with (d2 * 2 ^ 7)%Z by reflexivity.
    rewrite Z.mul_pow2_bits_low by lia. reflexivity.
  - assert (Z.testbit d1 n = false) as ->.
    { destruct (Z.eq_dec d1 0%Z) as [->|Hne]; [apply Z.bits_0|].
      apply Z.bits_above_log2; [lia|].
      apply Z.lt_le_trans with 7%Z; [|lia].
      apply Z.log2_lt_pow2; [lia|]. change (2 ^ 7)%Z with 128%Z. lia. }
    apply andb_false_r.
Qed.

Lemma on_midi_ok inst msg inst' :
  instance_ok inst -> midi_data_ok msg ->
  v2_on_midi (Some inst) msg = Some inst' -> instance_ok inst'.
Proof.
  intros Hok Hmsg. pose proof Hok as (_ & _ & Hr & _ & _ & _ & _ & _ & _ &
                                      Hpb & Hmw & Hv).
  pose proof (midi_data_byte msg 0 Hmsg) as Hd1.
  assert (Hd2 : (0 <= (if (2 <? length msg)%nat then nth 2 msg 0 else 0)
                 < 128)%Z).
  { destruct (2 <? length msg)%nat; [apply (midi_data_byte msg 1 Hmsg)|lia]. }
  unfold v2_on_midi. destruct (length msg <? 2)%nat; [now intros [= <-]|].
  cbv zeta. set (d1 := nth 1 msg 0%Z) in *.
  set (d2 := if (2 <? length msg)%nat then nth 2 msg 0%Z else 0%Z) in *.
  intros [= <-].
  assert (Hvel : 0 <= IZR d2 / 127 <= 1).
  { assert (0 <= IZR d2 <= 127)
      by (split; apply IZR_le; lia).
    split; [apply Rmult_le_pos; lra|].
    apply (Rmult_le_reg_r 127); [lra|]. field_simplify. lra. }
  destruct (_ =? 144)%Z.
  { destruct (d2 >? 0)%Z.
    - destruct (note_on_frame (inst_engine inst) d1 (IZR d2 / 127))
        as (Hp & Hm & Hb & _).
      apply engine_step_ok; try assumption.
      + now apply reach_note_on.
      + now rewrite Hb.
      + now rewrite Hm.
      + now rewrite note_on_velocity.
    - destruct (note_off_rest (inst_engine inst) d1) as (E1 & E2 & E3).
      apply engine_step_ok; try assumption.
      + now apply reach_note_off.
      + apply note_off_params.
      + now rewrite E2.
      + now rewrite E3.
      + now rewrite E1. }
  destruct (_ =? 128)%Z.
  { destruct (note_off_rest (inst_engine inst) d1) as (E1 & E2 & E3).
    apply engine_step_ok; try assumption.
    - now apply reach_note_off.
    - apply note_off_params.
    - now rewrite E2.
    - now rewrite E3.
    - now rewrite E1. }
  destruct (_ =? 176)%Z.
  { destruct (d1 =? 1)%Z.
    - apply engine_step_ok; try assumption.
      + now apply reach_mod_wheel.
      + reflexivity.
    - destruct (d1 =? 123)%Z.
      + apply engine_step_ok; try assumption.
        * now apply reach_all_notes_off.
        * reflexivity.
      + apply engine_step_ok; try assumption. reflexivity. }
  destruct (_ =? 224)%Z.
  { apply engine_step_ok; try assumption.
    - now apply reach_pitch_bend.
    - reflexivity.
    - unfold moog_engine_pitch_bend. cbn [pitch_bend set_pitch_bend].
      rewrite bend_value by assumption.
      assert (-8192 <= IZR (128 * d2 + d1 - 8192) <= 8191)
        by (split; apply IZR_le; lia).
      split.
      + apply (Rmult_le_reg_r 8192); [lra|]. field_simplify. lra.
      + apply (Rmult_lt_reg_r 8192); [lra|]. field_simplify. lra. }
  apply engine_step_ok; try assumption. reflexivity.
Qed.

Lemma render_block_ok inst out frames inst' :
  instance_ok inst ->
  fst (fst (v2_render_block (Some inst) out frames)) = Some inst' ->
  instance_ok inst'.
Proof.
  intros Hok. pose proof Hok as (_ & _ & Hr & _ & _ & _ & _ & _ & _ &
                                 Hpb & Hmw & Hv).
  unfold v2_render_block.
  set (fr := if (frames >? 256)%Z then 256%Z else frames).
  pose proof (render_loop_voice (sample_rate (inst_engine inst))
                (render_bend_ratio (inst_engine inst))
                (render_glide_rate (inst_engine inst) fr)
                (render_lfo_inc (inst_engine inst)) (Z.to_nat fr)
                (inst_engine inst) (repeat 0 256) 0%nat)
    as (Hp & _ & _ & _ & _ & _ & Hvel & Hmod & Hbend & _).
  pose proof (reach_render (inst_engine inst) (repeat 0 256) fr
                (Z.to_nat fr) Hr (Nat.le_refl _)) as Hr'.
  fold (moog_engine_render (inst_engine inst) (repeat 0 256) fr) in *.
  destruct (moog_engine_render (inst_engine inst) (repeat 0 256) fr)
    as [e' mono]. cbn [fst snd] in *. intros [= <-].
  apply engine_step_ok; try assumption.
  - now rewrite Hbend.
  - now rewrite Hmod.
  - now rewrite Hvel.
Qed.

Lemma plugin_reachable_ok (inst : moog_instance_t) :
  plugin_reachable inst -> instance_ok inst.
Proof.
  induction 1 as [|inst k val _ IH|inst msg inst' _ IH Hmsg Heq
                  |inst out frames inst' _ IH Heq].
  - apply create_instance_ok.
  - now apply set_param_ok.
  - now apply (on_midi_ok inst msg).
  - now apply (render_block_ok inst out frames).
Qed.

(** X20: every instance that the host can reach through the plugin API
    (creation, [set_param] with any key but "state" and any value, MIDI
    messages with 7-bit data bytes, audio rendering) keeps each of the 37
    parameters within the range declared in [g_shadow_params], with the
    engine holding exactly those values; the octave transpose stays in
    -3..3, pitch bend in [-1, 1), mod wheel and velocity in [0, 1], and
    the engine is in a state for which the envelope and filter bounds
    hold. *)
Theorem plugin_instance_ok (inst : moog_instance_t) :
  plugin_reachable inst -> instance_ok inst.
Proof.
  apply plugin_reachable_ok.
Qed.

(** The theorem for a fresh instance whose cutoff is set out of range. *)
Lemma plugin_instance_ok_witness :
  instance_ok (v2_set_param v2_create_instance "cutoff" 5).
Proof. apply plugin_instance_ok. apply pr_set_param, pr_create. Defined.

Lemma clamp_Rmin_Rmax fval lo hi :
  lo <= hi ->
  (let fval := if Rltb fval lo then lo else fval in
   if Rltb hi fval then hi else fval) = Rmin hi (Rmax lo fval).
Proof.
  intros Hle. cbv zeta. unfold Rmin, Rmax.
  destruct (Rltb fval lo) eqn:E1;
    [apply Rltb_true in E1 | apply Rltb_false in E1].
  - destruct (Rltb hi lo) eqn:E2;
      [apply Rltb_true in E2 | apply Rltb_false in E2];
      destruct (Rle_dec lo fval); destruct (Rle_dec hi _); lra.
  - destruct (Rltb hi fval) eqn:E2;
      [apply Rltb_true in E2 | apply Rltb_false in E2];
      destruct (Rle_dec lo fval); destruct (Rle_dec hi _); lra.
Qed.

(** X21: setting a parameter by the key of a row of [g_shadow_params]
    stores the value clamped to the row's range in the row's slot of the
    parameter array, leaves every other slot as it was, and brings the
    engine in line with the array. *)
Theorem set_param_named (inst : moog_instance_t) (d : param_def_t)
    (val : R) :
  In d g_shadow_params ->
  let inst' := v2_set_param inst (key d) val in
  inst_params inst' =
    <[index d := Rmin (max_val d) (Rmax (min_val d) val)]>
      (inst_params inst) /\
  synced inst'.
Proof.
  intros Hd. pose proof (shadow_min_max d Hd) as Hle.
  assert (H : v2_set_param inst (key d) val =
              apply_params_to_engine
                (set_inst_params
                   (<[index d :=
                        let fval := if Rltb val (min_val d) then min_val d
                                    else val in
                        if Rltb (max_val d) fval then max_val d else fval]>
                      (inst_params inst)) inst)).
  { revert Hd. unfold g_shadow_params. cbn [In]. intros Hd.
    repeat (destruct Hd as [<-|Hd]; [reflexivity|]). destruct Hd. }
  cbv zeta. rewrite H. split.
  - cbn [inst_params apply_params_to_engine set_inst_engine set_inst_params].
    now rewrite clamp_Rmin_Rmax.
  - apply apply_params_synced.
Qed.

(** The theorem for the resonance, set above its range on a new
    instance. *)
Lemma set_param_named_witness :
  inst_params (v2_set_param v2_create_instance "resonance" 3) =
  <[P_FILTER_RESONANCE := Rmin 1 (Rmax 0 3)]>
    (inst_params v2_create_instance).
Proof.
  refine (proj1 (set_param_named v2_create_instance
                   {| key := "resonance"; index := P_FILTER_RESONANCE;
                      min_val := 0; max_val := 1 |} 3 _)).
  shadow_in.
Defined.

(** X22: a key that names no parameter row and is none of "preset",
    "octave_transpose" and "all_notes_off" leaves the instance as it is
    (the "state" key apart, which is not modelled). *)
Theorem set_param_unknown_key (inst : moog_instance_t) (k : string)
    (val : R) :
  k <> "preset"%string -> k <> "octave_transpose"%string ->
  k <> "all_notes_off"%string ->
  (forall d, In d g_shadow_params -> key d <> k) ->
  v2_set_param inst k val = inst.
Proof.
  intros H1 H2 H3 Hk. unfold v2_set_param.
  rewrite (proj2 (String.eqb_neq _ _) H1), (proj2 (String.eqb_neq _ _) H2),
    (proj2 (String.eqb_neq _ _) H3).
  revert Hk. generalize g_shadow_params. intros defs.
  induction defs as [|d defs IH]; intros Hk; [reflexivity|].
  cbn [set_named_param].
  rewrite (proj2 (String.eqb_neq k (key d)))
    by (intros E; apply (Hk d); [now left | now symmetry]).
  apply IH. intros d' Hd'. apply Hk. now right.
Qed.

(** The theorem for the key "pan", which the synth does not have. *)
Lemma set_param_unknown_key_witness :
  v2_set_param v2_create_instance "pan" 0.5 = v2_create_instance.
Proof.
  apply set_param_unknown_key; try discriminate.
  unfold g_shadow_params. cbn [In]. intros d Hd.
  repeat (destruct Hd as [<-|Hd]; [discriminate|]). destruct Hd.
Defined.

(** X23: selecting a preset.  On an instance that the host can reach,
    [set_param "preset"] with a value whose integer part is a valid index
    copies that factory preset into the parameter array, makes it the
    current preset and applies it to the engine; any other value leaves
    the instance as it is. *)
Theorem preset_select (inst : moog_instance_t) (val : R) :
  plugin_reachable inst ->
  let idx := Rtrunc val in
  let inst' := v2_set_param inst "preset" val in
  ((0 <= idx < FACTORY_PRESET_COUNT)%Z ->
   inst_params inst' = nth (Z.to_nat idx) g_factory_presets [] /\
   current_preset inst' = idx /\ synced inst') /\
  (~ (0 <= idx < FACTORY_PRESET_COUNT)%Z -> inst' = inst).
Proof.
  intros Hreach idx inst'.
  destruct (plugin_reachable_ok inst Hreach)
    as (_ & _ & _ & _ & _ & _ & Hpc & Hpr & _).
  unfold inst', v2_set_param. cbn [String.eqb Ascii.eqb Bool.eqb].
  fold idx. rewrite Hpc. split.
  - intros Hidx.
    destruct (idx >=? 0)%Z eqn:E1; [|lia].
    destruct (idx <? FACTORY_PRESET_COUNT)%Z eqn:E2; [|lia].
    cbn [andb]. unfold apply_preset. rewrite Hpc.
    destruct (idx <? 0)%Z eqn:E3; [lia|].
    destruct (idx >=? FACTORY_PRESET_COUNT)%Z eqn:E4; [lia|].
    cbn [orb].
    split; [|split; [reflexivity | apply apply_params_synced]].
    cbn [inst_params apply_params_to_engine set_inst_engine
         set_current_preset set_inst_params].
    rewrite Hpr.
    change (presets v2_create_instance) with
      (g_factory_presets ++
       drop (length g_factory_presets)
         (repeat (repeat 0 P_COUNT) MAX_PRESETS)).
    assert (Hlt : (Z.to_nat idx < length g_factory_presets)%nat).
    { change (length g_factory_presets) with 14%nat.
      unfold FACTORY_PRESET_COUNT in Hidx. lia. }
    rewrite app_nth1 by exact Hlt. now apply nth_indep.
  - intros Hidx.
    destruct (idx >=? 0)%Z eqn:E1; [|reflexivity].
    destruct (idx <? FACTORY_PRESET_COUNT)%Z eqn:E2; [|reflexivity].
    exfalso. apply Hidx. lia.
Qed.

(** The theorem for preset 3 on a new instance. *)
Lemma preset_select_witness :
  inst_params (v2_set_param v2_create_instance "preset" 3) =
  nth 3 g_factory_presets [].
Proof.
  pose proof (proj1 (preset_select v2_create_instance 3 pr_create)) as H.
  cbv zeta in H. rewrite (Rtrunc_IZR 3) in H.
  exact (proj1 (H ltac:(unfold FACTORY_PRESET_COUNT; lia))).
Defined.

(** ** Conversion to stereo int16 *)

Lemma tanh_range x : -1 < tanh x < 1.
Proof.
  unfold tanh, sinh, cosh.
  pose proof (exp_pos x) as Ha. pose proof (exp_pos (- x)) as Hb.
  set (a := exp x) in *. set (b := exp (- x)) in *.
  replace ((a - b) / 2 / ((a + b) / 2)) with ((a - b) / (a + b))
    by (field; lra).
  split.
  - apply (Rmult_lt_reg_r (a + b)); [lra|]. field_simplify; lra.
  - apply (Rmult_lt_reg_r (a + b)); [lra|]. field_simplify; lra.
Qed.

Lemma soft_clip_range x : -1 < soft_clip x < 1.
Proof.
  unfold soft_clip.
  destruct (Rltb 0.9 x) eqn:E1; [apply tanh_range|].
  destruct (Rltb x (-0.9)) eqn:E2; [apply tanh_range|].
  apply Rltb_false in E1, E2. cbn. lra.
Qed.

Lemma Int_part_bound y (B : Z) :
  0 <= y < IZR B + 1 -> (0 <= Int_part y <= B)%Z.
Proof.
  intros [H0 HB]. destruct (base_Int_part y) as [H1 H2]. split.
  - apply Z.lt_succ_r, lt_IZR. rewrite succ_IZR. lra.
  - apply Z.lt_succ_r, lt_IZR. rewrite succ_IZR. lra.
Qed.

Lemma Rtrunc_bound x (B : Z) :
  - IZR B - 1 < x < IZR B + 1 -> (- B <= Rtrunc x <= B)%Z.
Proof.
  intros [Hlo Hhi]. unfold Rtrunc.
  destruct (Rltb x 0) eqn:E; [apply Rltb_true in E | apply Rltb_false in E].
  - pose proof (Int_part_bound (- x) B ltac:(lra)). lia.
  - pose proof (Int_part_bound x B ltac:(lra)). lia.
Qed.

(** The int16 value that the conversion loop computes for a mono sample:
    neither clamp changes it. *)
Lemma convert_sample sample :
  let s := Rtrunc (soft_clip sample * 32767) in
  (if ((if (s >? 32767)%Z then 32767%Z else s) <? -32768)%Z
   then (-32768)%Z else if (s >? 32767)%Z then 32767%Z else s) = s /\
  (-32767 <= s <= 32767)%Z.
Proof.
  cbv zeta. pose proof (soft_clip_range sample) as Hc.
  pose proof (Rtrunc_bound (soft_clip sample * 32767) 32767
                ltac:(lra)) as Hb.
  split; [|exact Hb].
  destruct (_ >? 32767)%Z eqn:E1; [lia|].
  destruct (_ <? -32768)%Z eqn:E2; lia.
Qed.

Lemma convert_loop_spec mono gain n :
  forall (out : list Z) i,
  (i + n <= length mono)%nat -> (2 * (i + n) <= length out)%nat ->
  convert_loop mono gain out i n =
  take (2 * i) out ++
  flat_map (fun s => [s; s])
    (map (fun m => Rtrunc (soft_clip (m * gain) * 32767))
       (take n (drop i mono))) ++
  drop (2 * (i + n)) out.
Proof.
  induction n as [|n IH]; intros out i Hm Ho.
  - rewrite take_0, Nat.add_0_r. cbn [map flat_map convert_loop app].
    now rewrite take_drop.
  - cbn [convert_loop].
    destruct (drop i mono) as [|x rest] eqn:Hd.
    { apply (f_equal length) in Hd. rewrite length_drop in Hd. cbn in Hd.
      lia. }
    assert (Hx : nth i mono 0 = x).
    { rewrite nth_lookup, <- (Nat.add_0_r i), <- lookup_drop, Hd.
      reflexivity. }
    assert (Hrest : drop (S i) mono = rest).
    { change (S i) with (1 + i)%nat. rewrite Nat.add_comm, <- drop_drop, Hd.
      reflexivity. }
    rewrite Hx. fold (soft_clip (x * gain)).
    destruct (convert_sample (x * gain)) as [Hs _]. cbv zeta in Hs.
    set (s := Rtrunc (soft_clip (x * gain) * 32767)) in *.
    replace (if ((if (s >? 32767)%Z then 32767%Z else s) <? -32768)%Z
             then (-32768)%Z
             else if (s >? 32767)%Z then 32767%Z else s) with s
      by (symmetry; exact Hs).
    replace (i * 2 + 1)%nat with (S (2 * i)) by lia.
    replace (i * 2)%nat with (2 * i)%nat by lia.
    rewrite IH by (rewrite ?length_insert; lia).
    rewrite Hrest.
    change (take (S n) (x :: rest)) with (x :: take n rest).
    cbn [map flat_map].
    replace (2 * S i)%nat with (S (S (2 * i))) by lia.
    replace (2 * (S i + n))%nat with (2 * (i + S n))%nat by lia.
    rewrite !drop_insert_lt by lia.
    erewrite take_S_r by (apply list_lookup_insert_eq;
                          rewrite length_insert; lia).
    erewrite take_S_r
      by (rewrite list_lookup_insert_ne by lia;
          apply list_lookup_insert_eq; lia).
    rewrite !take_insert_ge by lia.
    rewrite <- !app_assoc. reflexivity.
Qed.

Lemma render_block_cells (inst : moog_instance_t) (out : list Z)
    (frames : Z) :
  let n := Z.to_nat (Z.min frames 256) in
  (2 * n <= length out)%nat ->
  let r := v2_render_block (Some inst) out frames in
  let cells :=
    map (fun m => Rtrunc (soft_clip (m * output_gain inst) * 32767))
      (take n (snd r)) in
  snd (fst r) = flat_map (fun s => [s; s]) cells ++ drop (2 * n) out /\
  length cells = n /\
  Forall (fun s => (-32767 <= s <= 32767)%Z) cells.
Proof.
  intros n Hout. unfold v2_render_block.
  assert (Hfr : (if (frames >? 256)%Z then 256%Z else frames) =
                Z.min frames 256) by (destruct (frames >? 256)%Z eqn:E; lia).
  rewrite Hfr. fold n.
  assert (Hn : (n <= 256)%nat) by (unfold n; lia).
  destruct (render_output (inst_engine inst) (repeat 0 256)
              (Z.of_nat n)) as (samples & Hlen & Hmono).
  { rewrite repeat_length. lia. }
  assert (Hren : moog_engine_render (inst_engine inst) (repeat 0 256)
                   (Z.min frames 256) =
                 moog_engine_render (inst_engine inst) (repeat 0 256)
                   (Z.of_nat n)).
  { unfold moog_engine_render, render_glide_rate.
    destruct (Z.le_gt_cases 0 (Z.min frames 256)) as [Hpos|Hneg].
    - unfold n. now rewrite Z2Nat.id by exact Hpos.
    - unfold n. replace (Z.to_nat (Z.min frames 256)) with 0%nat by lia.
      reflexivity. }
  rewrite Hren.
  destruct (moog_engine_render (inst_engine inst) (repeat 0 256)
              (Z.of_nat n)) as [e' mono].
  cbn [fst snd] in *. rewrite Nat2Z.id in *.
  assert (Hml : length mono = 256%nat).
  { rewrite Hmono, length_app, length_drop, repeat_length, Hlen. lia. }
  cbv zeta. split; [|split].
  - rewrite convert_loop_spec by (rewrite ?Hml; lia).
    rewrite drop_0. cbn [take app]. now rewrite Nat.add_0_l.
  - rewrite length_map, length_take, Hml. lia.
  - rewrite Forall_forall. intros s Hs.
    apply list_elem_of_In, in_map_iff in Hs. destruct Hs as (m & <- & _).
    apply convert_sample.
Qed.

(** X24: [v2_render_block] on an instance fills the first 2 * n cells of
    the output, n = min(frames, 256), with the mono samples in pairs, left
    equal to right, and leaves the cells behind them untouched.  Each pair
    is the mono sample times the output gain, soft-clipped and scaled by
    32767 with truncation; as the soft clip keeps the value inside (-1, 1),
    the two hard clamps never change it and no cell is ever
    -32768. *)
Theorem render_block_stereo (inst : moog_instance_t) (out : list Z)
    (frames : Z) :
  let n := Z.to_nat (Z.min frames 256) in
  (2 * n <= length out)%nat ->
  let r := v2_render_block (Some inst) out frames in
  let cells :=
    map (fun m => Rtrunc (soft_clip (m * output_gain inst) * 32767))
      (take n (snd r)) in
  snd (fst r) = flat_map (fun s => [s; s]) cells ++ drop (2 * n) out /\
  length cells = n /\
  Forall (fun s => (-32767 <= s <= 32767)%Z) cells.
Proof.
  apply render_block_cells.
Qed.

(** The theorem for a 128-frame block into a 256-cell buffer. *)
Lemma render_block_stereo_witness :
  Forall (fun s => (-32767 <= s <= 32767)%Z)
    (map (fun m => Rtrunc (soft_clip (m * 0.35) * 32767))
       (take 128 (snd (v2_render_block (Some v2_create_instance)
                         (repeat 0%Z 256) 128)))).
Proof.
  refine (proj2 (proj2 (render_block_stereo v2_create_instance
                          (repeat 0%Z 256) 128 _))).
  rewrite repeat_length. change (Z.to_nat (Z.min 128 256)) with 128%nat. lia.
Defined.

(** *** Headroom of the whole chain *)

Lemma exp_le_compat x y : x <= y -> exp x <= exp y.
Proof.
  intros [H| ->]; [left; now apply exp_increasing | lra].
Qed.

Lemma exp_double x : exp (x + x) = exp x * exp x.
Proof. apply exp_plus. Qed.

(** exp(-1.4) >= 0.231, from exp(-0.0875) >= 1 - 0.0875 by four
    squarings. *)
Lemma exp_m14_lower : 0.231 <= exp (-1.4).
Proof.
  pose proof (exp_ineq1_le (-0.0875)) as H0.
  pose proof (exp_double (-0.0875)) as H1.
  pose proof (exp_double (-0.0875 + -0.0875)) as H2.
  pose proof (exp_double (-0.0875 + -0.0875 + (-0.0875 + -0.0875))) as H3.
  pose proof (exp_double (-0.0875 + -0.0875 + (-0.0875 + -0.0875) +
                          (-0.0875 + -0.0875 + (-0.0875 + -0.0875)))) as H4.
  replace (-0.0875 + -0.0875 + (-0.0875 + -0.0875) +
           (-0.0875 + -0.0875 + (-0.0875 + -0.0875)) +
           (-0.0875 + -0.0875 + (-0.0875 + -0.0875) +
            (-0.0875 + -0.0875 + (-0.0875 + -0.0875)))) with (-1.4)
    in H4 by lra.
  set (u1 := exp (-0.0875)) in *.
  set (u2 := exp (-0.0875 + -0.0875)) in *.
  set (u4 := exp (-0.0875 + -0.0875 + (-0.0875 + -0.0875))) in *.
  set (u8 := exp (-0.0875 + -0.0875 + (-0.0875 + -0.0875) +
                  (-0.0875 + -0.0875 + (-0.0875 + -0.0875)))) in *.
  assert (0.9125 <= u1) by lra.
  assert (0.8326 <= u2) by nra.
  assert (0.6932 <= u4) by nra.
  assert (0.4805 <= u8) by nra.
  nra.
Qed.

Lemma tanh_14 y : -1.4 <= y <= 1.4 -> -0.9 <= tanh y <= 0.9.
Proof.
  intros [Hlo Hhi]. unfold tanh, sinh, cosh.
  pose proof (exp_pos y) as Ha. pose proof (exp_pos (- y)) as Hb.
  pose proof exp_m14_lower as Hc.
  pose proof (exp_le_compat (-1.4) y Hlo) as Hay.
  pose proof (exp_le_compat (-1.4) (- y) ltac:(lra)) as Hby.
  assert (Hab : exp y * exp (- y) = 1).
  { rewrite <- exp_plus. replace (y + - y) with 0 by ring. apply exp_0. }
  set (a := exp y) in *. set (b := exp (- y)) in *.
  set (c := exp (-1.4)) in *.
  replace ((a - b) / 2 / ((a + b) / 2)) with ((a - b) / (a + b))
    by (field; lra).
  assert (Ha19 : a <= 19 * b) by nra.
  assert (Hb19 : b <= 19 * a) by nra.
  split.
  - apply (Rmult_le_reg_r (a + b)); [lra|]. field_simplify; lra.
  - apply (Rmult_le_reg_r (a + b)); [lra|]. field_simplify; lra.
Qed.

Lemma soft_clip_14 y : -1.4 <= y <= 1.4 -> -0.9 <= soft_clip y <= 0.9.
Proof.
  intros Hy. unfold soft_clip.
  destruct (Rltb 0.9 y) eqn:E1; [now apply tanh_14|].
  destruct (Rltb y (-0.9)) eqn:E2; [now apply tanh_14|].
  apply Rltb_false in E1, E2. cbn. lra.
Qed.

Lemma instance_master_volume inst :
  instance_ok inst -> 0 <= master_volume (inst_engine inst) <= 1.
Proof.
  intros (Hps & Hs & _). unfold synced in Hs. rewrite <- Hs.
  unit_param Hps P_MASTER_VOLUME "volume"%string. exact Hu.
Qed.

(** X25: the output of the plugin never reaches full scale.  For every
    instance that the host can reach through the API, each int16 cell
    that [v2_render_block] writes is within -29490 .. 29490 (0.9 of full
    scale): the filter clamp bounds the mono sample by 4 times a master
    volume of at most 1, the output gain 0.35 brings it within 1.4, and
    the soft clip maps that range into [-0.9, 0.9]. *)
Theorem plugin_output_headroom (inst : moog_instance_t) (out : list Z)
    (frames : Z) :
  plugin_reachable inst ->
  let n := Z.to_nat (Z.min frames 256) in
  (2 * n <= length out)%nat ->
  Forall (fun s => (-29490 <= s <= 29490)%Z)
    (take (2 * n) (snd (fst (v2_render_block (Some inst) out frames)))).
Proof.
  intros Hreach n Hout.
  pose proof (plugin_reachable_ok inst Hreach) as Hok.
  pose proof (instance_master_volume inst Hok) as Hmv.
  destruct Hok as (_ & _ & _ & _ & _ & _ & _ & _ & Hgain & _).
  destruct (render_block_cells inst out frames Hout) as (Hcells & Hlen & _).
  fold n in Hcells, Hlen. rewrite Hcells.
  set (cells := map _ _) in *.
  assert (Hfl : length (flat_map (fun s : Z => [s; s]) cells) = (2 * n)%nat).
  { rewrite <- Hlen. clear. induction cells as [|c cells IH]; cbn in *; lia. }
  rewrite take_app_length' by (symmetry; exact Hfl).
  assert (Hall : Forall (fun s => (-29490 <= s <= 29490)%Z) cells).
  { subst cells. rewrite Forall_forall. intros s Hs.
    apply list_elem_of_In, in_map_iff in Hs. destruct Hs as (m & <- & Hm).
    assert (Hm4 : Rabs m <= 4).
    { revert Hm. unfold v2_render_block.
      assert (Hfr : (if (frames >? 256)%Z then 256%Z else frames) =
                    Z.min frames 256)
        by (destruct (frames >? 256)%Z eqn:E; lia).
      rewrite Hfr.
      destruct (Z.le_gt_cases 0 (Z.min frames 256)) as [Hpos|Hneg].
      - destruct (render_samples_bound (inst_engine inst) (repeat 0 256)
                    (Z.min frames 256)) as (samples & Hsl & Hsb & Hmono).
        { rewrite repeat_length. lia. }
        destruct (moog_engine_render (inst_engine inst) (repeat 0 256)
                    (Z.min frames 256)) as [e' mono].
        cbn [fst snd] in *. fold n in Hsl. rewrite Hmono.
        rewrite take_app_length' by (symmetry; exact Hsl). intros Hin.
        rewrite Forall_forall in Hsb.
        pose proof (Hsb m (proj2 (list_elem_of_In _ _) Hin)) as Hb.
        cbn beta in Hb. rewrite (Rabs_pos_eq (master_volume _)) in Hb by lra.
        lra.
      - replace n with 0%nat by (unfold n; lia).
        destruct (moog_engine_render _ _ _) as [e' mono]. cbn [fst snd].
        rewrite take_0. intros []. }
    apply Rabs_within in Hm4. unfold within in Hm4. rewrite Hgain.
    pose proof (soft_clip_14 (m * 0.35) ltac:(lra)) as Hc.
    apply (Rtrunc_bound _ 29490). lra. }
  clear -Hall. induction Hall as [|c cells Hc _ IH]; cbn; [constructor|].
  constructor; [exact Hc|]. constructor; [exact Hc | exact IH].
Qed.

(** The theorem for a 128-frame block on a new instance with the master
    volume at its maximum. *)
Lemma plugin_output_headroom_witness :
  Forall (fun s => (-29490 <= s <= 29490)%Z)
    (take 256
       (snd (fst (v2_render_block
                    (Some (v2_set_param v2_create_instance "volume" 1))
                    (repeat 0%Z 256) 128)))).
Proof.
  apply (plugin_output_headroom (v2_set_param v2_create_instance "volume" 1)
           (repeat 0%Z 256) 128).
  - apply pr_set_param, pr_create.
  - rewrite repeat_length. change (Z.to_nat (Z.min 128 256)) with 128%nat.
    lia.
Defined.

(** ** MIDI input *)

(** X26: a note-on with velocity 0, or cut short after the note number, is
    handled as the note-off of that note, on any channel. *)
Theorem midi_note_on_zero_velocity (inst : moog_instance_t)
    (st st' note vel : Z) :
  Z.land st 240 = 144%Z -> Z.land st' 240 = 128%Z ->
  v2_on_midi (Some inst) [st; note; 0%Z] =
    v2_on_midi (Some inst) [st'; note; vel] /\
  v2_on_midi (Some inst) [st; note] =
    v2_on_midi (Some inst) [st'; note; vel] /\
  v2_on_midi (Some inst) [st'; note; vel] =
    Some (set_inst_engine (moog_engine_note_off (inst_engine inst) note)
            inst).
Proof.
  intros H H'. unfold v2_on_midi. cbn [length Nat.ltb Nat.leb nth].
  rewrite H, H'. cbn. now repeat split.
Qed.

(** The theorem for channel 4: status bytes 0x93 and 0x83. *)
Lemma midi_note_on_zero_velocity_witness :
  v2_on_midi (Some v2_create_instance) [147; 60; 0]%Z =
  v2_on_midi (Some v2_create_instance) [131; 60; 64]%Z.
Proof.
  refine (proj1 (midi_note_on_zero_velocity v2_create_instance 147 131 60 64
                   _ _)); reflexivity.
Defined.

(** X27: pitch bend stays within an octave.  For every instance that the
    host can reach through the API, the ratio by which rendering divides
    the period lies between 1/2 and 2. *)
Theorem bend_within_octave (inst : moog_instance_t) :
  plugin_reachable inst ->
  1 / 2 <= render_bend_ratio (inst_engine inst) <= 2.
Proof.
  intros Hreach. pose proof (plugin_reachable_ok inst Hreach) as Hok.
  assert (Hbr : 0 <= bend_range (inst_engine inst) <= 1).
  { destruct Hok as (Hps & Hs & _). unfold synced in Hs. rewrite <- Hs.
    unit_param Hps P_BEND_RANGE "bend_range"%string. exact Hu. }
  destruct Hok as (_ & _ & _ & _ & _ & _ & _ & _ & _ & Hpb & _).
  unfold render_bend_ratio.
  set (pb := pitch_bend (inst_engine inst)) in *.
  set (br := bend_range (inst_engine inst)) in *.
  replace (pb * br * 12 / 12) with (pb * br) by field.
  assert (Hx : -1 <= pb * br <= 1) by nra.
  assert (Hhalf : Rpower 2 (Ropp 1) = 1 / 2)
    by (rewrite Rpower_Ropp, Rpower_1 by lra; lra).
  assert (Htwo : Rpower 2 1 = 2) by (apply Rpower_1; lra).
  split.
  - rewrite <- Hhalf. apply Rle_Rpower; lra.
  - eapply Rle_trans; [|right; exact Htwo]. apply Rle_Rpower; lra.
Qed.

(** The theorem for a new instance with the bend range at its maximum. *)
Lemma bend_within_octave_witness :
  render_bend_ratio
    (inst_engine (v2_set_param v2_create_instance "bend_range" 1)) <= 2.
Proof.
  refine (proj2 (bend_within_octave
                   (v2_set_param v2_create_instance "bend_range" 1) _)).
  apply pr_set_param, pr_create.
Defined.
